(** * figshare_dataset.py: download, extract and upload of the REAL-Colon
      archives, embedded and verified.

    The Python program is embedded shallowly.  Strings are lists of
    characters with the Python string methods the program calls written out
    on them; the operating system, the network and the blob store are an
    explicit [World] threaded through a state-and-exception monad, so that
    every function of [figshare_dataset.py] is an executable Rocq term. *)

From Stdlib Require Import List String Ascii ZArith Lia Bool Arith PeanoNat.
From Stdlib Require Import Permutation.
Import ListNotations.

Set Implicit Arguments.

(** ** Python strings *)

Module PyStr.

Definition str := list ascii.

Definition of_string (s : string) : str := list_ascii_of_string s.
Coercion of_string : string >-> str.

Definition ascii_eqb (a b : ascii) : bool := Ascii.eqb a b.
Arguments ascii_eqb : simpl never.

Fixpoint str_eqb (a b : str) : bool :=
  match a, b with
  | [], [] => true
  | x :: a', y :: b' => ascii_eqb x y && str_eqb a' b'
  | _, _ => false
  end.

(** [len(s)] as a Python integer. *)
Definition len (s : str) : Z := Z.of_nat (List.length s).

(** [s.startswith(p)] *)
Fixpoint startswith (p s : str) : bool :=
  match p, s with
  | [], _ => true
  | x :: p', y :: s' => ascii_eqb x y && startswith p' s'
  | _ :: _, [] => false
  end.

(** [s.endswith(suf)] *)
Definition endswith (suf s : str) : bool := startswith (rev suf) (rev s).

(** [s.find(sub)]: lowest index where [sub] occurs, [-1] when it does not. *)
Fixpoint find_from (sub s : str) (i : Z) : Z :=
  if startswith sub s then i
  else match s with
       | [] => (-1)%Z
       | _ :: s' => find_from sub s' (i + 1)%Z
       end.

Definition find (sub s : str) : Z := find_from sub s 0%Z.

(** [s.rfind(sub)]: highest index where [sub] occurs, [-1] when it does not. *)
Definition rfind (sub s : str) : Z :=
  let r := find (rev sub) (rev s) in
  if (r <? 0)%Z then (-1)%Z else (len s - len sub - r)%Z.

(** [sub in s] *)
Definition contains (sub s : str) : bool := (0 <=? find sub s)%Z.

(** A slice bound as Python normalises it: a negative index counts from the
    end, and the result is clamped to [0, len(s)]. *)
Definition slice_index (s : str) (i : Z) : nat :=
  let j := if (i <? 0)%Z then (i + len s)%Z else i in
  Z.to_nat (Z.min (Z.max j 0) (len s)).

(** [s[:i]] and [s[i:]] *)
Definition slice_to (s : str) (i : Z) : str := firstn (slice_index s i) s.
Definition slice_from (s : str) (i : Z) : str := skipn (slice_index s i) s.

(** [c in chars] for a single character. *)
Definition char_in (c : ascii) (chars : str) : bool :=
  existsb (ascii_eqb c) chars.

(** [dropwhile] from the left, used on the reversed string by [rstrip]. *)
Fixpoint lstrip (chars s : str) : str :=
  match s with
  | [] => []
  | c :: s' => if char_in c chars then lstrip chars s' else s
  end.

(** [s.rstrip(chars)]: [chars] is a SET of characters, all trailing
    occurrences of its members are removed. *)
Definition rstrip (chars s : str) : str := rev (lstrip chars (rev s)).

End PyStr.
Import PyStr.

(** ** posixpath *)

Module OsPath.

Definition sep : str := "/"%string.
Definition extsep : str := "."%string.

(** [os.path.join(a, b)] *)
Definition join (a b : str) : str :=
  if startswith sep b then b
  else if (match a with [] => true | _ => false end) || endswith sep a
       then a ++ b
       else a ++ sep ++ b.

(** [os.path.basename(p)]: [p[p.rfind('/') + 1:]] *)
Definition basename (p : str) : str :=
  slice_from p (rfind sep p + 1)%Z.

(** The loop of [genericpath._splitext] that skips the leading dots of the
    last component: it answers whether some character of
    [p[filenameIndex:dotIndex]] is not a dot. *)
Fixpoint has_non_dot (s : str) : bool :=
  match s with
  | [] => false
  | c :: s' => if startswith extsep [c] then has_non_dot s' else true
  end.

(** [os.path.splitext(p)] *)
Definition splitext (p : str) : str * str :=
  let sepIndex := rfind sep p in
  let dotIndex := rfind extsep p in
  if (sepIndex <? dotIndex)%Z
  then
    let filenameIndex := (sepIndex + 1)%Z in
    if has_non_dot (slice_to (slice_from p filenameIndex)
                             (dotIndex - filenameIndex)%Z)
    then (slice_to p dotIndex, slice_from p dotIndex)
    else (p, [])
  else (p, []).

End OsPath.

(** ** The string computations of the program *)

(** [blob_exists], line 61: [local_filename[:local_filename.find('.')]] *)
Definition name_wo_ext (local_filename : str) : str :=
  slice_to local_filename (find "."%string local_filename).

(** [blob_exists], line 62. *)
Definition blob_prefix (base_blob_name local_filename : str) : str :=
  OsPath.join base_blob_name (name_wo_ext local_filename).

(** [extract_file], line 122: [file_path.rstrip('.tar.gz')] *)
Definition stripped_name (file_path : str) : str :=
  rstrip ".tar.gz"%string file_path.

(** [extract_file], line 123. *)
Definition extracted_folder_name (file_path : str) : str :=
  fst (OsPath.splitext (OsPath.basename (stripped_name file_path))).

(** [extract_file], line 124. *)
Definition extracted_folder_path (download_dir file_path : str) : str :=
  OsPath.join download_dir (extracted_folder_name file_path).

(** ** Exceptions and the world the program runs in *)

(** A Python exception object: its class and [str(e)].  Only instances of
    [Exception] are modelled; [KeyboardInterrupt] and [SystemExit] are not
    events of this model. *)
Record exn := Exn { exn_class : string; exn_msg : str }.

Inductive result (A : Type) : Type :=
| Ok (a : A)
| Raise (e : exn).
Arguments Ok {A} a.
Arguments Raise {A} e.

(** A file system tree.  A directory keeps its entries in listing order. *)
#[warnings="-register-all"] Inductive node :=
| File (data : str)
| Dir (entries : list (str * node)).

Definition entries_t := list (str * node).

(** What the server answers to one [requests.get(url, stream=True)]. *)
Inductive response :=
| ConnError (e : exn)
| Resp (status : Z) (chunks : list str) (broken : option exn).

(** One element of [article_data['files']]. *)
Record file_info := FileInfo { download_url : str; name : str }.

(** The argument tuples appended to [download_tasks] in [main]. *)
Record task := Task {
  t_file_url : str; t_file_name : str; t_storage_acct_url : str;
  t_container_name : str; t_base_blob_name : str }.

Inductive phase := Downloading | Extracting | Uploading | Total.

Inductive log_msg :=
| LogPhaseTime (p : phase) (file_name : str)
| LogException (e : exn)
| LogSkipping (file_name : str)
| LogQueued (file_name : str)
| LogFailed (file : str)
| LogUploaded (n_blobs : Z) (file : str)
| LogAllDone.

Inductive level := INFO | ERROR.

Inductive print_msg :=
| PrintNewline
| PrintConnectionError (error_message : str) (retry_delay : Z)
| PrintUnexpectedError (error_message : str) (retry_delay : Z)
| PrintFailed (simple_filename : str) (max_attempts : Z)
| PrintExtracting (file_path : str)
| PrintDeleting (file_path : str).

(** Observable actions. *)
Inductive event :=
| EvPrint (m : print_msg)
| EvLog (l : level) (m : log_msg)
| EvSleep (seconds : Z)
| EvRequest (url : str)
| EvOpenWrite (path : str)
| EvOpenRead (path : str)
| EvRemove (path : str)
| EvMkdtemp (path : str)
| EvCleanup (path : str)
| EvTarOpen (path : str)
| EvExtractAll (path dir : str)
| EvCredential
| EvServiceClient (url : str)
| EvListContainers (name_starts_with : str)
| EvCreateContainer (container : str)
| EvListBlobNames (container name_starts_with : str)
| EvUploadBlob (container blob : str) (data : str)
| EvPool (processes : Z).

Definition blobs_t := list (str * str).

Record World := mkWorld {
  (** the local file system and the working directory of the process *)
  fs : node;
  cwd : list str;
  (** the storage account: container name, then blob name and content *)
  containers : list (str * blobs_t);
  (** the network: the answer to the n-th request of the run *)
  http : nat -> str -> response;
  requests : nat;
  (** injected failures: the n-th fallible system or SDK call raises *)
  faults : nat -> option exn;
  ticks : nat;
  (** the random source of [tempfile] *)
  rng : nat -> nat;
  rng_pos : nat;
  (** [tarfile]: [None] when the bytes are no archive, otherwise what
      [extractall] makes of the entries of the target directory *)
  untar : str -> option (entries_t -> entries_t);
  (** [os.getenv("AZURE_STORAGE_ACCOUNT_URL")] and the figshare article *)
  environ_account_url : str;
  article_files : result (list file_info)
}.

Definition set_fs (f : node) (w : World) : World :=
  mkWorld f (cwd w) (containers w) (http w) (requests w) (faults w) (ticks w)
          (rng w) (rng_pos w) (untar w) (environ_account_url w)
          (article_files w).

Definition set_containers (c : list (str * blobs_t)) (w : World) : World :=
  mkWorld (fs w) (cwd w) c (http w) (requests w) (faults w) (ticks w)
          (rng w) (rng_pos w) (untar w) (environ_account_url w)
          (article_files w).

Definition set_requests (n : nat) (w : World) : World :=
  mkWorld (fs w) (cwd w) (containers w) (http w) n (faults w) (ticks w)
          (rng w) (rng_pos w) (untar w) (environ_account_url w)
          (article_files w).

Definition set_ticks (n : nat) (w : World) : World :=
  mkWorld (fs w) (cwd w) (containers w) (http w) (requests w) (faults w) n
          (rng w) (rng_pos w) (untar w) (environ_account_url w)
          (article_files w).

Definition set_rng_pos (n : nat) (w : World) : World :=
  mkWorld (fs w) (cwd w) (containers w) (http w) (requests w) (faults w)
          (ticks w) (rng w) n (untar w) (environ_account_url w)
          (article_files w).

(** ** The monad: state, exceptions and the events emitted *)

(** A computation maps a world to its result, the world it leaves and the
    events it emitted, oldest first. *)
Definition M (A : Type) : Type := World -> result A * World * list event.

Definition ret {A} (a : A) : M A := fun w => (Ok a, w, []).

Definition bind {A B} (c : M A) (k : A -> M B) : M B :=
  fun w => match c w with
           | (Ok a, w1, t1) =>
               match k a w1 with
               | (r, w2, t2) => (r, w2, t1 ++ t2)
               end
           | (Raise e, w1, t1) => (Raise e, w1, t1)
           end.

Definition raise {A} (e : exn) : M A := fun w => (Raise e, w, []).

(** [try: c  except Exception as e: h e] *)
Definition try_except {A} (c : M A) (h : exn -> M A) : M A :=
  fun w => match c w with
           | (Ok a, w1, t1) => (Ok a, w1, t1)
           | (Raise e, w1, t1) =>
               match h e w1 with
               | (r, w2, t2) => (r, w2, t1 ++ t2)
               end
           end.

(** [try: c  finally: f], the shape of a [with] block: [f] runs on both
    exits, and an exception of [c] is raised again after it unless [f]
    raises itself. *)
Definition try_finally {A} (c : M A) (f : M unit) : M A :=
  fun w => match c w with
           | (r, w1, t1) =>
               match f w1 with
               | (Ok _, w2, t2) => (r, w2, t1 ++ t2)
               | (Raise e', w2, t2) => (Raise e', w2, t1 ++ t2)
               end
           end.

Definition get_world : M World := fun w => (Ok w, w, []).
Definition modify (f : World -> World) : M unit := fun w => (Ok tt, f w, []).

Definition result_of {A} (o : result A * World * list event) : result A :=
  fst (fst o).
Definition world_of {A} (o : result A * World * list event) : World :=
  snd (fst o).
Definition events_of {A} (o : result A * World * list event) : list event :=
  snd o.

Declare Scope py_scope.
Delimit Scope py_scope with py.
Notation "x <- c ;; k" := (bind c (fun x => k))
  (at level 61, c at next level, right associativity) : py_scope.
Notation "c ;; k" := (bind c (fun _ => k))
  (at level 61, right associativity) : py_scope.
Open Scope py_scope.

Definition emit (e : event) : M unit := fun w => (Ok tt, w, [e]).

(** A fallible call to the system or to the SDK: it consumes one entry of
    the failure plan and raises when that entry holds an exception. *)
Definition tick : M unit :=
  fun w => let w' := set_ticks (S (ticks w)) w in
           match faults w (ticks w) with
           | Some e => (Raise e, w', [])
           | None => (Ok tt, w', [])
           end.

Definition print (m : print_msg) : M unit := emit (EvPrint m).
Definition logger_info (m : log_msg) : M unit := emit (EvLog INFO m).
Definition logger_error (m : log_msg) : M unit := emit (EvLog ERROR m).
Definition logger_exception (e : exn) : M unit :=
  emit (EvLog ERROR (LogException e)).
Definition time_sleep (seconds : Z) : M unit := emit (EvSleep seconds).

(** [for x in xs: body x] *)
Fixpoint for_each {A} (xs : list A) (body : A -> M unit) : M unit :=
  match xs with
  | [] => ret tt
  | x :: xs' => body x ;; for_each xs' body
  end.

(** [[f x for x in xs]] with an effectful [f], left to right. *)
Fixpoint map_m {A B} (f : A -> M B) (xs : list A) : M (list B) :=
  match xs with
  | [] => ret []
  | x :: xs' => y <- f x ;; ys <- map_m f xs' ;; ret (y :: ys)
  end.

(** ** The file system *)

Module Fs.

Fixpoint lookup (name : str) (es : entries_t) : option node :=
  match es with
  | [] => None
  | (n, x) :: es' => if str_eqb n name then Some x else lookup name es'
  end.

Fixpoint set_entry (name : str) (x : node) (es : entries_t) : entries_t :=
  match es with
  | [] => [(name, x)]
  | (n, y) :: es' =>
      if str_eqb n name then (n, x) :: es' else (n, y) :: set_entry name x es'
  end.

Fixpoint del_entry (name : str) (es : entries_t) : entries_t :=
  match es with
  | [] => []
  | (n, y) :: es' =>
      if str_eqb n name then del_entry name es' else (n, y) :: del_entry name es'
  end.

(** The node a list of path components leads to. *)
Fixpoint get (t : node) (p : list str) : option node :=
  match p with
  | [] => Some t
  | c :: p' =>
      match t with
      | File _ => None
      | Dir es => match lookup c es with
                  | Some x => get x p'
                  | None => None
                  end
      end
  end.

(** Rewrite the entries of the directory at [d]; [None] when [d] is no
    directory. *)
Fixpoint update_dir (t : node) (d : list str) (f : entries_t -> entries_t)
  : option node :=
  match t with
  | File _ => None
  | Dir es =>
      match d with
      | [] => Some (Dir (f es))
      | c :: d' =>
          match lookup c es with
          | Some sub => match update_dir sub d' f with
                        | Some sub' => Some (Dir (set_entry c sub' es))
                        | None => None
                        end
          | None => None
          end
      end
  end.

(** [p.split('/')] *)
Fixpoint split_sep (s : str) : list str :=
  match s with
  | [] => [[]]
  | c :: s' =>
      if ascii_eqb c "/"%char then [] :: split_sep s'
      else match split_sep s' with
           | [] => [[c]]
           | h :: t => (c :: h) :: t
           end
  end.

(** One step along a path: an empty component and [.] stay where they are,
    [..] goes up, the root being its own parent, and a name goes down. *)
Definition push_comp (stack : list str) (c : str) : list str :=
  if str_eqb c [] || str_eqb c "."%string then stack
  else if str_eqb c ".."%string then removelast stack
  else stack ++ [c].

(** Why a path names nothing, or nothing that can be used as asked. *)
Inductive errno := ENOENT | ENOTDIR | EISDIR | EEXIST.

(** The walk of the kernel along the components of a path, in a tree
    without symbolic links: every component, [..] and the empty component of
    a trailing slash included, is looked up in a directory that exists. *)
Fixpoint walk (root : node) (cur : list str) (comps : list str)
  : errno + list str :=
  match comps with
  | [] => inr cur
  | c :: comps' =>
      match get root cur with
      | Some (Dir _) => walk root (push_comp cur c) comps'
      | Some (File _) => inl ENOTDIR
      | None => inl ENOENT
      end
  end.

(** Where the walk starts: the root for an absolute path, the working
    directory otherwise. *)
Definition start (cwd : list str) (p : str) : list str :=
  if startswith OsPath.sep p then [] else cwd.

(** What [stat(p)] finds: the components of the node and the node.  The
    empty path names nothing. *)
Definition resolve (root : node) (cwd : list str) (p : str)
  : errno + (list str * node) :=
  match p with
  | [] => inl ENOENT
  | _ :: _ =>
      match walk root (start cwd p) (split_sep p) with
      | inr c => match get root c with
                 | Some x => inr (c, x)
                 | None => inl ENOENT
                 end
      | inl e => inl e
      end
  end.

Definition stat (root : node) (cwd : list str) (p : str) : option node :=
  match resolve root cwd p with
  | inr (_, x) => Some x
  | inl _ => None
  end.

(** The components of a path without the empty ones trailing slashes
    leave. *)
Fixpoint strip_trailing_empty (comps : list str) : list str :=
  match comps with
  | [] => []
  | c :: comps' =>
      match strip_trailing_empty comps' with
      | [] => if str_eqb c [] then [] else [c]
      | rest => c :: rest
      end
  end.

(** For a call that creates an entry: the directory the last component of
    [p] is looked up in, which has to exist, and that component, trailing
    slashes apart. *)
Definition resolve_parent (root : node) (cwd : list str) (p : str)
  : errno + (list str * str) :=
  match p with
  | [] => inl ENOENT
  | _ :: _ =>
      let comps := strip_trailing_empty (split_sep p) in
      match walk root (start cwd p) (removelast comps) with
      | inr d => match get root d with
                 | Some (Dir _) => inr (d, last comps [])
                 | Some (File _) => inl ENOTDIR
                 | None => inl ENOENT
                 end
      | inl e => inl e
      end
  end.

(** The walk of [os.makedirs]: as [walk], but a name that is missing in a
    directory that exists is created as an empty directory. *)
Fixpoint walk_create (root : node) (cur : list str) (comps : list str)
  : errno + (node * list str) :=
  match comps with
  | [] => inr (root, cur)
  | c :: comps' =>
      match get root cur with
      | Some (Dir _) =>
          match get root (push_comp cur c) with
          | Some _ => walk_create root (push_comp cur c) comps'
          | None =>
              match update_dir root cur (set_entry c (Dir [])) with
              | Some root' => walk_create root' (push_comp cur c) comps'
              | None => inl ENOENT
              end
          end
      | Some (File _) => inl ENOTDIR
      | None => inl ENOENT
      end
  end.

(** A name a directory entry can have. *)
Definition valid_name (n : str) : bool :=
  negb (str_eqb n []) && negb (str_eqb n "."%string)
  && negb (str_eqb n ".."%string) && negb (char_in "/"%char n).

(** The parent directory and the last component of a list of components. *)
Definition parent (p : list str) : list str := removelast p.
Definition leaf (p : list str) : str := last p [].

End Fs.

(** [os.path.commonprefix] on two component lists. *)
Fixpoint commonprefix (a b : list str) : list str :=
  match a, b with
  | x :: a', y :: b' => if str_eqb x y then x :: commonprefix a' b' else []
  | _, _ => []
  end.

(** The non-empty components of [os.path.abspath(p)]: [normpath] works on
    the text of the path alone and looks nothing up. *)
Definition abspath_parts (cwd : list str) (p : str) : list str :=
  fold_left Fs.push_comp (Fs.split_sep p) (Fs.start cwd p).

(** [os.path.relpath(path, start)] for a [path] that is not empty. *)
Definition relpath (cwd : list str) (path start : str) : str :=
  let start_list := abspath_parts cwd start in
  let path_list := abspath_parts cwd path in
  let i := List.length (commonprefix start_list path_list) in
  let rel_list :=
    repeat (of_string "..") (List.length start_list - i) ++ skipn i path_list in
  match rel_list with
  | [] => of_string "."
  | c :: cs => fold_left OsPath.join cs c
  end.

Definition file_names (es : entries_t) : list str :=
  map fst (filter (fun e => match snd e with File _ => true | Dir _ => false end) es).

Definition dir_names (es : entries_t) : list str :=
  map fst (filter (fun e => match snd e with File _ => false | Dir _ => true end) es).

(** [os.walk(top)], top-down: the triple of a directory comes before the
    triples of its sub-directories, which follow in listing order.  A [top]
    that is no directory yields nothing. *)
Fixpoint walk_node (top : str) (t : node) {struct t}
  : list (str * list str * list str) :=
  match t with
  | File _ => []
  | Dir es =>
      (top, dir_names es, file_names es) ::
      (fix walk_subdirs (l : entries_t) : list (str * list str * list str) :=
         match l with
         | [] => []
         | (n, x) :: l' =>
             match x with
             | Dir _ => walk_node (OsPath.join top n) x
             | File _ => []
             end ++ walk_subdirs l'
         end) es
  end.

Definition exn_of (cls : string) (msg : str) : exn := Exn cls msg.

(** The [OSError] subclass Python raises for an error number; [str(e)]
    names the path. *)
Definition os_error (e : Fs.errno) (p : str) : exn :=
  exn_of (match e with
          | Fs.ENOENT => "FileNotFoundError"
          | Fs.ENOTDIR => "NotADirectoryError"
          | Fs.EISDIR => "IsADirectoryError"
          | Fs.EEXIST => "FileExistsError"
          end) p.

(** [os.path.exists(p)]: whether [os.stat(p)] succeeds. *)
Definition os_path_exists (p : str) : M bool :=
  w <- get_world ;;
  ret (match Fs.stat (fs w) (cwd w) p with
       | Some _ => true
       | None => false
       end).

(** [os.path.getsize]; the size reported for a directory is the usual
    block size. *)
Definition os_path_getsize (p : str) : M Z :=
  w <- get_world ;;
  match Fs.resolve (fs w) (cwd w) p with
  | inr (_, File data) => ret (len data)
  | inr (_, Dir _) => ret 4096%Z
  | inl e => raise (os_error e p)
  end.

(** Put [x] under the name [n] into the directory at [d]. *)
Definition fs_store (d : list str) (n : str) (x : node) : M unit :=
  w <- get_world ;;
  match Fs.update_dir (fs w) d (Fs.set_entry n x) with
  | Some t => modify (set_fs t)
  | None => raise (os_error Fs.ENOENT n)
  end.

(** [with open(p, 'wb') as f: f.write(data)]: the file is created or
    truncated; a trailing slash, [.], [..] and a directory are refused. *)
Definition write_file (p : str) (data : str) : M unit :=
  w <- get_world ;;
  match Fs.resolve_parent (fs w) (cwd w) p with
  | inr (d, n) =>
      if endswith OsPath.sep p || negb (Fs.valid_name n)
      then raise (os_error Fs.EISDIR p)
      else match Fs.get (fs w) (d ++ [n]) with
           | Some (Dir _) => raise (os_error Fs.EISDIR p)
           | _ => fs_store d n (File data)
           end
  | inl e => raise (os_error e p)
  end.

(** [open(p, 'rb')] followed by reading the whole file. *)
Definition read_file (p : str) : M str :=
  emit (EvOpenRead p) ;;
  tick ;;
  w <- get_world ;;
  match Fs.resolve (fs w) (cwd w) p with
  | inr (_, File data) => ret data
  | inr (_, Dir _) => raise (os_error Fs.EISDIR p)
  | inl e => raise (os_error e p)
  end.

(** The file system with the entry at [p] taken out of its parent. *)
Definition fs_without (p : list str) (t : node) : node :=
  match p with
  | [] => t
  | _ :: _ =>
      match Fs.update_dir t (Fs.parent p) (Fs.del_entry (Fs.leaf p)) with
      | Some t' => t'
      | None => t
      end
  end.

(** [os.remove(p)] *)
Definition os_remove (p : str) : M unit :=
  emit (EvRemove p) ;;
  tick ;;
  w <- get_world ;;
  match Fs.resolve (fs w) (cwd w) p with
  | inr (c, File _) => modify (set_fs (fs_without c (fs w)))
  | inr (_, Dir _) => raise (os_error Fs.EISDIR p)
  | inl e => raise (os_error e p)
  end.

(** [os.mkdir(p)]: trailing slashes are allowed, anything that exists is
    refused. *)
Definition os_mkdir (p : str) : M unit :=
  tick ;;
  w <- get_world ;;
  match Fs.resolve_parent (fs w) (cwd w) p with
  | inr (d, n) =>
      if negb (Fs.valid_name n) then raise (os_error Fs.EEXIST p)
      else match Fs.get (fs w) (d ++ [n]) with
           | Some _ => raise (os_error Fs.EEXIST p)
           | None => fs_store d n (Dir [])
           end
  | inl e => raise (os_error e p)
  end.

(** ** tempfile, tarfile and the Azure SDK *)

Module Tempfile.

(** [tempfile.gettempdir()], taken to be [/tmp]. *)
Definition tempdir : str := "/tmp"%string.
Definition prefix : str := "tmp"%string.
Definition characters : str := "abcdefghijklmnopqrstuvwxyz0123456789_"%string.
#[warnings="-abstract-large-number"] Definition TMP_MAX : nat := 10000.

(** [_RandomNameSequence.__next__]: eight characters drawn from
    [characters]. *)
Definition random_name (rng : nat -> nat) (pos : nat) : str :=
  map (fun k => nth (rng (pos + k) mod 37) characters "_"%char) (seq 0 8).

(** [tempfile.mkdtemp()]: candidate names are tried until one does not
    exist yet, at most [TMP_MAX] times. *)
Fixpoint mkdtemp_loop (tries : nat) : M str :=
  match tries with
  | 0 => raise (exn_of "FileExistsError"
                       (of_string "No usable temporary directory name found"))
  | S tries' =>
      w <- get_world ;;
      let name := random_name (rng w) (rng_pos w) in
      modify (set_rng_pos (rng_pos w + 8)) ;;
      let file := OsPath.join tempdir (prefix ++ name) in
      try_except (os_mkdir file ;; ret file)
                 (fun e => if String.eqb (exn_class e) "FileExistsError"
                           then mkdtemp_loop tries'
                           else raise e)
  end.

Definition mkdtemp : M str :=
  file <- mkdtemp_loop TMP_MAX ;;
  emit (EvMkdtemp file) ;;
  ret file.

(** [TemporaryDirectory.cleanup]: [shutil.rmtree] of the directory.  A
    directory that is gone already is no error; any other failure of the
    removal is raised, and the directory is then still there. *)
Definition cleanup (name : str) : M unit :=
  emit (EvCleanup name) ;;
  tick ;;
  w <- get_world ;;
  match Fs.resolve (fs w) (cwd w) name with
  | inr (c, Dir _) => modify (set_fs (fs_without c (fs w)))
  | inr (_, File _) => raise (os_error Fs.ENOTDIR name)
  | inl Fs.ENOENT => ret tt
  | inl e => raise (os_error e name)
  end.

(** [with tempfile.TemporaryDirectory() as tmpdir: body tmpdir] *)
Definition with_TemporaryDirectory {A} (body : str -> M A) : M A :=
  tmpdir <- mkdtemp ;;
  try_finally (body tmpdir) (cleanup tmpdir).

End Tempfile.

Module Tarfile.

(** [tarfile.open(p, 'r')]: the archive object is what [extractall] will do
    to the entries of its target directory. *)
Definition open (p : str) : M (entries_t -> entries_t) :=
  match p with
  | [] => raise (exn_of "ValueError" (of_string "nothing to open"))
  | _ :: _ =>
      emit (EvTarOpen p) ;;
      tick ;;
      w <- get_world ;;
      match Fs.resolve (fs w) (cwd w) p with
      | inr (_, File data) =>
          match untar w data with
          | Some members => ret members
          | None => raise (exn_of "ReadError"
                                  (of_string "file could not be opened successfully"))
          end
      | inr (_, Dir _) => raise (os_error Fs.EISDIR p)
      | inl e => raise (os_error e p)
      end
  end.

(** [tar_ref.extractall(dir)] for the archive opened from [p].  The members
    are extracted below [dir], which is the working directory when [dir] is
    empty; the directories of [dir] that are missing are made, an archive
    being taken to have a member. *)
Definition extractall (p : str) (members : entries_t -> entries_t) (dir : str)
  : M unit :=
  emit (EvExtractAll p dir) ;;
  tick ;;
  w <- get_world ;;
  match Fs.walk_create (fs w) (Fs.start (cwd w) dir) (Fs.split_sep dir) with
  | inr (root, c) =>
      match Fs.update_dir root c members with
      | Some t => modify (set_fs t)
      | None => raise (os_error Fs.ENOTDIR dir)
      end
  | inl e => raise (os_error e dir)
  end.

End Tarfile.

Module Azure.

Fixpoint blobs_of (container : str) (cs : list (str * blobs_t)) : option blobs_t :=
  match cs with
  | [] => None
  | (n, b) :: cs' => if str_eqb n container then Some b else blobs_of container cs'
  end.

Fixpoint set_blobs (container : str) (b : blobs_t) (cs : list (str * blobs_t))
  : list (str * blobs_t) :=
  match cs with
  | [] => [(container, b)]
  | (n, b0) :: cs' =>
      if str_eqb n container then (n, b) :: cs'
      else (n, b0) :: set_blobs container b cs'
  end.

Definition DefaultAzureCredential : M unit :=
  emit EvCredential ;; tick.

(** The service client is identified with the account URL it talks to, a
    container client with the name of its container. *)
Definition BlobServiceClient (account_url : str) (credential : unit) : M str :=
  emit (EvServiceClient account_url) ;; tick ;; ret account_url.

Definition list_containers (client : str) (name_starts_with : str)
  : M (list str) :=
  emit (EvListContainers name_starts_with) ;;
  tick ;;
  w <- get_world ;;
  ret (filter (startswith name_starts_with) (map fst (containers w))).

Definition create_container (client : str) (container_name : str) : M str :=
  emit (EvCreateContainer container_name) ;;
  tick ;;
  w <- get_world ;;
  match blobs_of container_name (containers w) with
  | Some _ => raise (exn_of "ResourceExistsError" container_name)
  | None =>
      modify (set_containers (containers w ++ [(container_name, [])])) ;;
      ret container_name
  end.

Definition get_container_client (client : str) (container_name : str) : M str :=
  ret container_name.

Definition list_blob_names (container_client : str) (name_starts_with : str)
  : M (list str) :=
  emit (EvListBlobNames container_client name_starts_with) ;;
  tick ;;
  w <- get_world ;;
  match blobs_of container_client (containers w) with
  | Some blobs => ret (filter (startswith name_starts_with) (map fst blobs))
  | None => raise (exn_of "ResourceNotFoundError" container_client)
  end.

(** [upload_blob(name=..., data=...)] with its default [overwrite=False]. *)
Definition upload_blob (container_client : str) (blob : str) (data : str)
  : M unit :=
  emit (EvUploadBlob container_client blob data) ;;
  tick ;;
  w <- get_world ;;
  match blobs_of container_client (containers w) with
  | Some blobs =>
      if existsb (str_eqb blob) (map fst blobs)
      then raise (exn_of "ResourceExistsError" blob)
      else modify (set_containers
                     (set_blobs container_client (blobs ++ [(blob, data)])
                                (containers w)))
  | None => raise (exn_of "ResourceNotFoundError" container_client)
  end.

End Azure.

(** ** figshare_dataset.py *)

Definition CONTAINER_NAME : str := "polyp-datasets"%string.
Definition BASE_BLOB_NAME : str := "real-colon-dataset"%string.

(** [file_exists], lines 54-57. *)
Definition file_exists (local_filename : str) : M Z :=
  b <- os_path_exists local_filename ;;
  if b then os_path_getsize local_filename else ret (-1)%Z.

(** [blob_exists], lines 60-68. *)
Definition blob_exists (local_filename container_client base_blob_name : str)
  : M bool :=
  let name_wo_ext := name_wo_ext local_filename in
  let blob_path := OsPath.join base_blob_name name_wo_ext in
  blobs_list <- Azure.list_blob_names container_client blob_path ;;
  ret (match blobs_list with
       | [] => false
       | _ :: _ => true
       end).

Definition max_attempts : nat := 1000.
Definition retry_delay : Z := 180%Z.

(** [r.raise_for_status()] *)
Definition raise_for_status (status : Z) : M unit :=
  if ((400 <=? status) && (status <? 600))%Z
  then raise (exn_of "HTTPError" (of_string "Client or Server Error"))
  else ret tt.

(** The body of the [try] of [download_file], lines 83-98: the request, then
    the file is opened for writing and receives the non-empty chunks that
    arrive; a stream that breaks leaves what was written. *)
Definition download_attempt (url local_filename : str) : M str :=
  emit (EvRequest url) ;;
  w <- get_world ;;
  modify (set_requests (S (requests w))) ;;
  match http w (requests w) url with
  | ConnError e => raise e
  | Resp status chunks broken =>
      raise_for_status status ;;
      emit (EvOpenWrite local_filename) ;;
      tick ;;
      write_file local_filename
        (List.concat (filter (fun chunk => negb (str_eqb chunk [])) chunks)) ;;
      match broken with
      | Some e => raise e
      | None => print PrintNewline ;; ret local_filename
      end
  end.

(** The [while attempt < max_attempts] loop of [download_file], lines
    80-110, by recursion on [max_attempts - attempt]. *)
Fixpoint download_loop (remaining : nat) (url local_filename : str)
  : M (option str) :=
  match remaining with
  | 0 =>
      print (PrintFailed local_filename (Z.of_nat max_attempts)) ;;
      ret None
  | S remaining' =>
      try_except
        (p <- download_attempt url local_filename ;; ret (Some p))
        (fun e =>
           let error_message := exn_msg e in
           (if contains (of_string "IncompleteRead") error_message
            then print (PrintConnectionError error_message retry_delay) ;;
                 time_sleep retry_delay
            else print (PrintUnexpectedError error_message retry_delay) ;;
                 time_sleep retry_delay) ;;
           download_loop remaining' url local_filename)
  end.

(** [download_file], lines 71-113; [None] is Python's [None]. *)
Definition download_file (args : str * str) : M (option str) :=
  let '(url, local_filename) := args in
  existing_file_size <- file_exists local_filename ;;
  download_loop max_attempts url local_filename.

(** [extract_file], lines 116-133. *)
Definition extract_file (args : str * str) : M unit :=
  let '(file_path, download_dir) := args in
  if endswith (of_string ".tar.gz") file_path then
    let file_comp_path := OsPath.join download_dir file_path in
    let file_name := rstrip (of_string ".tar.gz") file_path in
    let extracted_folder_name :=
      fst (OsPath.splitext (OsPath.basename file_name)) in
    let extracted_folder_path := OsPath.join download_dir extracted_folder_name in
    exists_ <- os_path_exists extracted_folder_path ;;
    (if negb exists_ then
       print (PrintExtracting file_path) ;;
       tar_ref <- Tarfile.open file_comp_path ;;
       Tarfile.extractall file_comp_path tar_ref download_dir
     else ret tt) ;;
    print (PrintDeleting file_path) ;;
    os_remove file_comp_path
  else ret tt.

(** [os.walk(tmpdir)], read off the file system at the start of the loop;
    the loop body does not write to the file system.  A [top] that cannot
    be listed yields nothing. *)
Definition os_walk (top : str) : M (list (str * list str * list str)) :=
  w <- get_world ;;
  ret (match Fs.stat (fs w) (cwd w) top with
       | Some t => walk_node top t
       | None => []
       end).

(** The inner loop of the upload phase, lines 183-189, with the running
    value of [n_blobs_uploaded]. *)
Fixpoint upload_files (root tmpdir base_blob_name container_client : str)
         (files : list str) (n_blobs_uploaded : Z) : M Z :=
  match files with
  | [] => ret n_blobs_uploaded
  | f :: files' =>
      let full_path := OsPath.join root f in
      w <- get_world ;;
      let rel_path := relpath (cwd w) full_path tmpdir in
      let blob_path := OsPath.join base_blob_name rel_path in
      data <- read_file full_path ;;
      Azure.upload_blob container_client blob_path data ;;
      upload_files root tmpdir base_blob_name container_client files'
                   (n_blobs_uploaded + 1)%Z
  end.

(** The outer loop, line 182. *)
Fixpoint upload_walk (tmpdir base_blob_name container_client : str)
         (triples : list (str * list str * list str)) (n_blobs_uploaded : Z)
  : M Z :=
  match triples with
  | [] => ret n_blobs_uploaded
  | (root, dirs, files) :: triples' =>
      n <- upload_files root tmpdir base_blob_name container_client files
                        n_blobs_uploaded ;;
      upload_walk tmpdir base_blob_name container_client triples' n
  end.

(** The upload phase of the pipeline, lines 181-193. *)
Definition upload_phase (tmpdir base_blob_name container_client : str)
           (file_name : str) (n_blobs_uploaded : Z) : M Z :=
  triples <- os_walk tmpdir ;;
  n <- upload_walk tmpdir base_blob_name container_client triples
                   n_blobs_uploaded ;;
  logger_info (LogPhaseTime Uploading file_name) ;;
  ret n.

(** Lines 151-162 of [download_to_blob], and 206-218 of [main]: the
    container client, created when the listing does not show the
    container. *)
Definition open_container (storage_acct_url container_name : str) : M str :=
  credential <- Azure.DefaultAzureCredential ;;
  blob_service_client <- Azure.BlobServiceClient storage_acct_url credential ;;
  containers <- Azure.list_containers blob_service_client container_name ;;
  let container_exists :=
    existsb (fun container => str_eqb container container_name) containers in
  if negb container_exists
  then Azure.create_container blob_service_client container_name
  else Azure.get_container_client blob_service_client container_name.

(** The body of the [with] block, lines 166-193. *)
Definition pipeline_body (file_url file_name base_blob_name container_client : str)
           (n_blobs_uploaded : Z) (tmpdir : str) : M Z :=
  let local_file_path := OsPath.join tmpdir file_name in
  download_file (file_url, local_file_path) ;;
  logger_info (LogPhaseTime Downloading file_name) ;;
  tar_ref <- Tarfile.open local_file_path ;;
  Tarfile.extractall local_file_path tar_ref tmpdir ;;
  logger_info (LogPhaseTime Extracting file_name) ;;
  os_remove local_file_path ;;
  upload_phase tmpdir base_blob_name container_client file_name
               n_blobs_uploaded.

(** The [try] block, lines 164-201. *)
Definition pipeline_try (file_url file_name base_blob_name container_client : str)
  : M Z :=
  let n_blobs_uploaded := 0%Z in
  try_except
    (n <- Tempfile.with_TemporaryDirectory
            (pipeline_body file_url file_name base_blob_name container_client
                           n_blobs_uploaded) ;;
     logger_info (LogPhaseTime Total file_name) ;;
     ret n)
    (fun e => logger_exception e ;; ret (-1)%Z).

(** [download_to_blob], lines 148-201. *)
Definition download_to_blob (file_url file_name storage_acct_url
                             container_name base_blob_name : str) : M Z :=
  container_client <- open_container storage_acct_url container_name ;;
  pipeline_try file_url file_name base_blob_name container_client.

Definition run_task (t : task) : M Z :=
  download_to_blob (t_file_url t) (t_file_name t) (t_storage_acct_url t)
                   (t_container_name t) (t_base_blob_name t).

(** The loop over [article_data['files']], lines 225-235. *)
Fixpoint queue_tasks (files : list file_info) (container_client account_url : str)
         (download_tasks : list task) : M (list task) :=
  match files with
  | [] => ret download_tasks
  | file_info :: files' =>
      let file_url := download_url file_info in
      let file_name := name file_info in
      existing_blob <- blob_exists file_name container_client BASE_BLOB_NAME ;;
      if existing_blob then
        logger_info (LogSkipping file_name) ;;
        queue_tasks files' container_client account_url download_tasks
      else
        let download_tasks :=
          download_tasks ++ [Task file_url file_name account_url
                                  CONTAINER_NAME BASE_BLOB_NAME] in
        logger_info (LogQueued file_name) ;;
        queue_tasks files' container_client account_url download_tasks
  end.

(** [requests.get(article_url)], [raise_for_status] and
    [response.json()['files']], lines 220-225. *)
Definition fetch_article_files : M (list file_info) :=
  fun w => (article_files w, w, []).

(** ** multiprocessing.Pool *)

(** [Pool(processes=n)]: the constructor refuses fewer than one process. *)
Definition Pool (processes : Z) : M unit :=
  if (processes <? 1)%Z
  then raise (exn_of "ValueError"
                     (of_string "Number of processes must be at least 1"))
  else emit (EvPool processes).

(** [Pool._map_async]: the tasks are handed out in chunks of
    [ceil(len / (4 * processes))]. *)
Definition pool_chunksize (len : nat) (processes : Z) : nat :=
  let chunksize := (Z.of_nat len / (processes * 4))%Z in
  let extra := (Z.of_nat len mod (processes * 4))%Z in
  Z.to_nat (if (extra =? 0)%Z then chunksize else (chunksize + 1)%Z).

(** [Pool._get_tasks]: slices of [size] elements, the last one shorter;
    [fuel] bounds the number of slices. *)
Fixpoint chunks {A} (fuel size : nat) (l : list A) : list (list A) :=
  match fuel with
  | 0 => []
  | S fuel' =>
      match l with
      | [] => []
      | _ :: _ => firstn size l :: chunks fuel' size (skipn size l)
      end
  end.

(** What a worker does with one chunk ([mapstar] under the [try] of
    [worker]): the calls are made in order, the first exception ends the
    chunk and is its result. *)
Definition run_chunk {A B} (f : A -> M B) (chunk : list A)
  : M (result (list B)) :=
  try_except (rs <- map_m f chunk ;; ret (Ok rs)) (fun e => ret (Raise e)).

(** [MapResult]: the values of the chunks in task order, or the first
    exception stored. *)
Fixpoint collect {B} (rs : list (result (list B))) : result (list B) :=
  match rs with
  | [] => Ok []
  | Ok v :: rs' =>
      match collect rs' with
      | Ok vs => Ok (v ++ vs)
      | Raise e => Raise e
      end
  | Raise e :: _ => Raise e
  end.

(** [pool.map] and [pool.starmap]: every chunk is run, and only when all
    are done the result is returned or the stored exception raised.  The
    workers are run one after the other on the shared world, chunk by
    chunk in task order, so the exception stored is that of the first
    chunk that fails. *)
Definition pool_map {A B} (processes : Z) (f : A -> M B) (tasks : list A)
  : M (list B) :=
  let chunksize := pool_chunksize (List.length tasks) processes in
  rs <- map_m (run_chunk f) (chunks (List.length tasks) chunksize tasks) ;;
  match collect rs with
  | Ok v => ret v
  | Raise e => raise e
  end.

(** [with Pool(processes=num_processes) as pool: pool.starmap(...)] *)
Definition pool_starmap (num_processes : Z) (tasks : list task) : M (list Z) :=
  Pool num_processes ;;
  pool_map num_processes run_task tasks.

(** The summary loop, lines 249-253. *)
Definition summary_line (x : str * Z) : M unit :=
  let '(file, n_blobs) := x in
  if (n_blobs =? -1)%Z
  then logger_error (LogFailed file)
  else logger_info (LogUploaded n_blobs file).

(** The second half of [main], lines 237-254: the pool, then the summary.
    The local variable [results] is bound only by the branch that creates
    the pool; reading it unbound raises [UnboundLocalError]. *)
Definition main_dispatch (download_tasks : list task) : M unit :=
  let num_processes := 4%Z in
  let num_processes :=
    Z.min num_processes (Z.of_nat (List.length download_tasks)) in
  results <- (if negb (num_processes =? 0)%Z
              then r <- pool_starmap num_processes download_tasks ;; ret (Some r)
              else ret None) ;;
  let fnames := map t_file_name download_tasks in
  match results with
  | None =>
      raise (exn_of "UnboundLocalError"
                    (of_string "cannot access local variable 'results' where it is not associated with a value"))
  | Some results =>
      for_each (combine fnames results) summary_line ;;
      logger_info LogAllDone
  end.

(** [main], lines 203-254. *)
Definition main : M unit :=
  w <- get_world ;;
  let account_url := environ_account_url w in
  container_client <- open_container account_url CONTAINER_NAME ;;
  files <- fetch_article_files ;;
  download_tasks <- queue_tasks files container_client account_url [] ;;
  main_dispatch download_tasks.

(** ** Vocabulary of the statements *)

(** The character set handed to [rstrip] in [extract_file]. *)
Definition tar_gz : str := of_string ".tar.gz".

(** The file name without its extension, as the specification words it:
    what precedes the first dot, the whole name when there is no dot. *)
Fixpoint file_stem (file_name : str) : str :=
  match file_name with
  | [] => []
  | c :: s => if ascii_eqb c "."%char then [] else c :: file_stem s
  end.

(** The blob names of a container; no names when the container is absent. *)
Definition blob_names (container : str) (w : World) : list str :=
  match Azure.blobs_of container (containers w) with
  | Some blobs => map fst blobs
  | None => []
  end.

(** Some listed blob starts with [prefix]. *)
Definition listed_under (prefix container : str) (w : World) : bool :=
  existsb (startswith prefix) (blob_names container w).

(** No failure is injected from the current call on. *)
Definition calm (w : World) : Prop := forall n, faults w (ticks w + n) = None.

Definition is_request (e : event) : bool :=
  match e with EvRequest _ => true | _ => false end.

Definition is_sleep (e : event) : bool :=
  match e with EvSleep _ => true | _ => false end.

Definition is_pool (e : event) : bool :=
  match e with EvPool _ => true | _ => false end.

Definition is_list_call (e : event) : bool :=
  match e with EvListBlobNames _ _ => true | _ => false end.

Definition is_summary (e : event) : bool :=
  match e with
  | EvLog _ (LogFailed _) | EvLog _ (LogUploaded _ _) => true
  | _ => false
  end.

(** ** Sample worlds *)

Module Samples.

Definition no_faults : nat -> option exn := fun _ => None.

Definition archive_bytes : str := of_string "TARBYTES".

Definition sample_tree : entries_t :=
  [ (of_string "001",
     Dir [ (of_string "a.jpg", File (of_string "A"));
           (of_string "sub", Dir [ (of_string "b.jpg", File (of_string "B")) ]) ]);
    (of_string "info.csv", File (of_string "I")) ].

Definition sample_untar (data : str) : option (entries_t -> entries_t) :=
  if str_eqb data archive_bytes then Some (fun es => es ++ sample_tree) else None.

Definition always_ok (n : nat) (url : str) : response :=
  Resp 200 [of_string "TAR"; []; of_string "BYTES"] None.

Definition always_down (n : nat) (url : str) : response :=
  ConnError (Exn "ConnectionError" (of_string "IncompleteRead(0 bytes read)")).

Definition twice_down (n : nat) (url : str) : response :=
  if n <? 2 then always_down n url else always_ok n url.

Definition catalog : list file_info :=
  [ FileInfo (of_string "https://figshare.com/files/1") (of_string "001.tar.gz");
    FileInfo (of_string "https://figshare.com/files/2") (of_string "README") ].

Definition account : str := of_string "https://acct.blob.core.windows.net".

Definition world (files : entries_t) (blobs : blobs_t)
           (net : nat -> str -> response) (plan : nat -> option exn) : World :=
  mkWorld (Dir ((of_string "tmp", Dir []) :: files)) []
          [(CONTAINER_NAME, blobs)] net 0 plan 0 (fun n => n) 0
          sample_untar account (Ok catalog).

Definition fresh : World := world [] [] always_ok no_faults.

End Samples.

Module SamplesExistence.

(** A container whose only blob lies under [READM2], and one worker's
    result of an earlier run for the archive [001]. *)
Definition readm_blobs : blobs_t :=
  [ (of_string "real-colon-dataset/READM2/x.jpg", of_string "x") ].

Definition readm_world : World :=
  Samples.world [] readm_blobs Samples.always_ok Samples.no_faults.

Definition uploaded_blobs : blobs_t :=
  [ (of_string "real-colon-dataset/001/a.jpg", of_string "A");
    (of_string "real-colon-dataset/READM2/x.jpg", of_string "x") ].

(** Every entry of the catalog is reported as present. *)
Definition all_uploaded_world : World :=
  Samples.world [] uploaded_blobs Samples.always_ok Samples.no_faults.

End SamplesExistence.

(** The task [main] queues for a catalog entry, and the test that makes it
    skip the entry. *)
Definition task_of (account_url : str) (f : file_info) : task :=
  Task (download_url f) (name f) account_url CONTAINER_NAME BASE_BLOB_NAME.


(** The summary line [main] logs for one file and its result. *)
Definition summary_event (x : str * Z) : event :=
  if (snd x =? -1)%Z
  then EvLog ERROR (LogFailed (fst x))
  else EvLog INFO (LogUploaded (snd x) (fst x)).

Definition unbound_results : exn :=
  exn_of "UnboundLocalError"
         (of_string "cannot access local variable 'results' where it is not associated with a value").

(** The events of the steps that precede the [try] of [download_to_blob]. *)
Definition is_setup (e : event) : bool :=
  match e with
  | EvCredential | EvServiceClient _ | EvListContainers _
  | EvCreateContainer _ => true
  | _ => false
  end.

(** The first [k] attempts made from [w] all raise; the answer is the world
    the [k]-th of them leaves (printing and sleeping do not change it). *)
Fixpoint attempts_fail (k : nat) (url local_filename : str) (w : World)
  : option World :=
  match k with
  | 0 => Some w
  | S k' =>
      match download_attempt url local_filename w with
      | (Raise _, w1, _) => attempts_fail k' url local_filename w1
      | (Ok _, _, _) => None
      end
  end.

Module SamplesDownload.

Definition url : str := of_string "https://figshare.com/files/1".
Definition dest : str := of_string "/tmp/001.tar.gz".

(** The server is down for the whole run. *)
Definition down_world : World :=
  Samples.world [] [] Samples.always_down Samples.no_faults.

(** Two broken connections, then a complete answer. *)
Definition flaky_world : World :=
  Samples.world [] [] Samples.twice_down Samples.no_faults.

End SamplesDownload.


Module SamplesPipeline.

Definition url : str := of_string "https://figshare.com/files/1".
Definition file_name : str := of_string "001.tar.gz".

Definition auth_error : exn :=
  Exn "ClientAuthenticationError"
      (of_string "DefaultAzureCredential failed to retrieve a token").

(** The third SDK call of a run, the container listing, is refused. *)
Definition auth_plan (n : nat) : option exn :=
  if n =? 2 then Some auth_error else None.

Definition auth_fail_world : World :=
  Samples.world [] [] Samples.always_ok auth_plan.

(** The server answers with bytes that are no archive. *)
Definition garbage (n : nat) (u : str) : response :=
  Resp 200 [of_string "<html>"] None.

Definition garbage_world : World :=
  Samples.world [] [] garbage Samples.no_faults.

(** One of the blobs of the archive is in the container already. *)
Definition clash_world : World :=
  Samples.world []
    [ (of_string "real-colon-dataset/001/sub/b.jpg", of_string "old") ]
    Samples.always_ok Samples.no_faults.

(** There is no [/tmp]. *)
Definition no_tmp_world : World :=
  mkWorld (Dir []) [] [(CONTAINER_NAME, [])] Samples.always_ok 0
          Samples.no_faults 0 (fun n => n) 0 Samples.sample_untar
          Samples.account (Ok Samples.catalog).

Definition run (w : World) : result Z * World * list event :=
  download_to_blob url file_name Samples.account CONTAINER_NAME
                   BASE_BLOB_NAME w.

End SamplesPipeline.

Module SamplesExtract.

Definition download_dir : str := of_string "dataset".
Definition file_path : str := of_string "001.tar.gz".

(** The archive lies in the download directory, nothing is extracted. *)
Definition downloaded : entries_t :=
  [ (of_string "dataset",
     Dir [ (of_string "001.tar.gz", File Samples.archive_bytes) ]) ].

(** The archive lies next to a directory named like its stem. *)
Definition extracted_before : entries_t :=
  [ (of_string "dataset",
     Dir [ (of_string "001", Dir [ (of_string "old.jpg", File (of_string "O")) ]);
           (of_string "001.tar.gz", File Samples.archive_bytes) ]) ].

Definition new_world : World :=
  Samples.world downloaded [] Samples.always_ok Samples.no_faults.

Definition again_world : World :=
  Samples.world extracted_before [] Samples.always_ok Samples.no_faults.

Definition members (es : entries_t) : entries_t := es ++ Samples.sample_tree.

(** The file system of [new_world] once the archive is extracted. *)
Definition extracted_fs : node :=
  Eval vm_compute in
    match Fs.update_dir (fs new_world) [download_dir] members with
    | Some t => t
    | None => Dir []
    end.

End SamplesExtract.

(** ** Vocabulary of the upload statement *)


(** The number of regular files below a node. *)
Fixpoint count_files (t : node) : nat :=
  match t with
  | File _ => 1
  | Dir es =>
      (fix go (l : entries_t) : nat :=
         match l with
         | [] => 0
         | (_, x) :: l' => count_files x + go l'
         end) es
  end.




(** The blobs of a container, none when the container is absent. *)
Definition blobs_in (container : str) (w : World) : blobs_t :=
  match Azure.blobs_of container (containers w) with
  | Some blobs => blobs
  | None => []
  end.

Definition is_upload (e : event) : bool :=
  match e with EvUploadBlob _ _ _ => true | _ => false end.


(** The content [open(p, 'rb')] reads. *)
Definition read_data (root : node) (cwd : list str) (p : str) : str :=
  match Fs.stat root cwd p with
  | Some (File data) => data
  | _ => []
  end.

(** The blob the loop body makes of the file [f] of the directory [root]
    (lines 184-188). *)
Definition upload_of (fsroot : node) (cwd : list str)
           (tmpdir base_blob_name root f : str) : str * str :=
  (OsPath.join base_blob_name
               (relpath cwd (OsPath.join root f) tmpdir),
   read_data fsroot cwd (OsPath.join root f)).

(** The blobs the two loops make of the triples of a walk. *)
Definition planned_uploads (fsroot : node) (cwd : list str)
           (tmpdir base_blob_name : str)
           (triples : list (str * list str * list str)) : list (str * str) :=
  flat_map (fun tr => map (upload_of fsroot cwd tmpdir base_blob_name
                                     (fst (fst tr)))
                          (snd tr))
           triples.


(** The triples [os.walk] yields for the sub-directories among [l], and the
    files below the entries [l]: the inner loops of [walk_node] and
    [files_under] by name. *)
Fixpoint walk_subdirs (top : str) (l : entries_t)
  : list (str * list str * list str) :=
  match l with
  | [] => []
  | (n, x) :: l' =>
      match x with
      | Dir _ => walk_node (OsPath.join top n) x
      | File _ => []
      end ++ walk_subdirs top l'
  end.


Module SamplesUpload.

Definition tmpdir : str := of_string "/tmp/scratch".

(** The scratch directory holds an extracted tree. *)
Definition extracted_world : World :=
  mkWorld (Dir [ (of_string "tmp",
                  Dir [ (of_string "scratch", Dir Samples.sample_tree) ]) ])
          [] [(CONTAINER_NAME, [])] Samples.always_ok 0 Samples.no_faults 0
          (fun n => n) 0 Samples.sample_untar Samples.account
          (Ok Samples.catalog).

Definition run : result Z * World * list event :=
  upload_phase tmpdir BASE_BLOB_NAME CONTAINER_NAME (of_string "001.tar.gz")
               0 extracted_world.

End SamplesUpload.

(** ** The extraction pool *)

(** [extract_files], lines 136-145. *)
Definition extract_files (file_paths : list str) (download_dir : str) : M unit :=
  let num_processes := 3%Z in
  let num_processes :=
    Z.min num_processes (Z.of_nat (List.length file_paths)) in
  Pool num_processes ;;
  pool_map num_processes extract_file
           (map (fun file_path => (file_path, download_dir)) file_paths) ;;
  ret tt.

(** ** Vocabulary of the further statements *)

(** A response that makes [download_file] fail before it opens the
    destination: no connection, or a 4xx or 5xx status. *)
Definition refused (r : response) : bool :=
  match r with
  | ConnError _ => true
  | Resp status _ _ => ((400 <=? status) && (status <? 600))%Z
  end.

Definition is_create (e : event) : bool :=
  match e with EvCreateContainer _ => true | _ => false end.

(** A computation keeps the relation [I] between the world it starts in and
    the world it leaves, whatever its result. *)
Definition preserves (I : World -> World -> Prop) {A} (c : M A) : Prop :=
  forall w r w' t, c w = (r, w', t) -> I w w'.

(** What a relation needs for [preserves] to compose: it is a preorder and
    ignores the counters of the world. *)
Definition frame_law (I : World -> World -> Prop) : Prop :=
  (forall w, I w w) /\
  (forall a b c, I a b -> I b c -> I a c) /\
  (forall w n, I w (set_ticks n w)) /\
  (forall w n, I w (set_requests n w)) /\
  (forall w n, I w (set_rng_pos n w)).

(** Every container is still there, and its blobs are the old ones followed
    by new ones: nothing was deleted or overwritten. *)
Definition blobs_grow (w w' : World) : Prop :=
  forall container blobs,
    Azure.blobs_of container (containers w) = Some blobs ->
    exists new,
      Azure.blobs_of container (containers w') = Some (blobs ++ new).

Module SamplesStrip.

(** An archive whose stem is made of characters of [.tar.gz] only. *)
Definition stem : str := of_string "rat".
Definition file_path : str := of_string "rat.tar.gz".

Definition downloaded : entries_t :=
  [ (of_string "dataset",
     Dir [ (of_string "rat.tar.gz", File Samples.archive_bytes) ]) ].

Definition rat_world : World :=
  Samples.world downloaded [] Samples.always_ok Samples.no_faults.

End SamplesStrip.

Module SamplesMain.

(** The article cannot be fetched. *)
Definition fetch_error : exn :=
  Exn "HTTPError" (of_string "503 Server Error: Service Unavailable").

Definition no_catalog_world : World :=
  mkWorld (Dir [(of_string "tmp", Dir [])]) [] [] Samples.always_ok 0
          Samples.no_faults 0 (fun n => n) 0 Samples.sample_untar
          Samples.account (Raise fetch_error).

Definition listing_error : exn :=
  Exn "ServiceRequestError" (of_string "connection reset").

(** The listing for the second catalog entry fails: it is the fifth SDK
    call of the run. *)
Definition listing_plan (n : nat) : option exn :=
  if n =? 4 then Some listing_error else None.

Definition listing_fail_world : World :=
  Samples.world [] [] Samples.always_ok listing_plan.


Definition tasks : list task :=
  [ task_of Samples.account
            (FileInfo (of_string "https://figshare.com/files/1")
                      (of_string "001.tar.gz")) ].

End SamplesMain.

(** ** Vocabulary of the revised statements *)

(** Lines 166-180, the part of the [with] block that precedes the upload:
    download, extraction and removal of the archive. *)
Definition fetch_phase (file_url file_name tmpdir : str) : M unit :=
  let local_file_path := OsPath.join tmpdir file_name in
  download_file (file_url, local_file_path) ;;
  logger_info (LogPhaseTime Downloading file_name) ;;
  tar_ref <- Tarfile.open local_file_path ;;
  Tarfile.extractall local_file_path tar_ref tmpdir ;;
  logger_info (LogPhaseTime Extracting file_name) ;;
  os_remove local_file_path.

(** The requests and the waits among the events of a run, in order. *)
Definition is_request_or_sleep (e : event) : bool :=
  is_request e || is_sleep e.

(** [k] failed rounds of the retry loop: a request, then the wait. *)
Fixpoint rounds (k : nat) (url : str) : list event :=
  match k with
  | 0 => []
  | S k' => EvRequest url :: EvSleep retry_delay :: rounds k' url
  end.

(** The directory [extractall(dir)] extracts into when it is there: its
    components and its entries. *)
Definition extraction_target (w : World) (dir : str)
  : option (list str * entries_t) :=
  match Fs.walk (fs w) (Fs.start (cwd w) dir) (Fs.split_sep dir) with
  | inr d => match Fs.get (fs w) d with
             | Some (Dir es) => Some (d, es)
             | _ => None
             end
  | inl _ => None
  end.

Module SamplesCleanup.





End SamplesCleanup.

(** Every directory of [root] is a directory of [root'] still. *)
Definition dirs_kept (root root' : node) : Prop :=
  forall q es, Fs.get root q = Some (Dir es) ->
               exists es', Fs.get root' q = Some (Dir es').

Module SamplesData.

(** The archive [data.tar.gz] lies next to a directory named [data], the
    stem of the archive; there is no directory named [d]. *)
Definition file_path : str := of_string "data.tar.gz".

Definition downloaded : entries_t :=
  [ (of_string "dataset",
     Dir [ (of_string "data", Dir [ (of_string "old.jpg", File (of_string "O")) ]);
           (of_string "data.tar.gz", File Samples.archive_bytes) ]) ].

Definition data_world : World :=
  Samples.world downloaded [] Samples.always_ok Samples.no_faults.

End SamplesData.




Module SamplesWorkers.


Definition tasks : list task :=
  map (task_of Samples.account) Samples.catalog.

End SamplesWorkers.


(** * Properties *)

(** ** The string computations on the names of the data set *)

Example name_wo_ext_frames :
  name_wo_ext (of_string "001-001_frames.tar.gz") = of_string "001-001_frames".
Proof. reflexivity. Qed.

Example name_wo_ext_dotless :
  name_wo_ext (of_string "README") = of_string "READM".
Proof. reflexivity. Qed.

Example folder_frames :
  extracted_folder_name (of_string "001-001_frames.tar.gz")
  = of_string "001-001_frames".
Proof. reflexivity. Qed.

Example folder_data :
  extracted_folder_name (of_string "data.tar.gz") = of_string "d".
Proof. reflexivity. Qed.

Example folder_dotted :
  extracted_folder_name (of_string "set.v1.tar.gz") = of_string "set".
Proof. reflexivity. Qed.

Example folder_all_stripped :
  extracted_folder_path (of_string "dataset") (of_string "rat.tar.gz")
  = of_string "dataset/".
Proof. reflexivity. Qed.

(** ** Strings *)

Section StrFacts.

Lemma ascii_eqb_true (a b : ascii) : ascii_eqb a b = true <-> a = b.
Proof. unfold ascii_eqb. apply Ascii.eqb_eq. Qed.

Lemma ascii_eqb_refl (a : ascii) : ascii_eqb a a = true.
Proof. apply ascii_eqb_true. reflexivity. Qed.

Lemma ascii_eqb_false (a b : ascii) : ascii_eqb a b = false <-> a <> b.
Proof. unfold ascii_eqb. apply Ascii.eqb_neq. Qed.

Lemma str_eqb_true (a b : str) : str_eqb a b = true <-> a = b.
Proof.
  revert b. induction a as [|x a IH]; intros [|y b]; simpl; split;
    try congruence; try reflexivity.
  - intros H. apply andb_true_iff in H as [H1 H2].
    apply ascii_eqb_true in H1. apply IH in H2. congruence.
  - intros H. inversion H; subst. rewrite ascii_eqb_refl. simpl.
    apply IH. reflexivity.
Qed.

Lemma str_eqb_refl (a : str) : str_eqb a a = true.
Proof. apply str_eqb_true. reflexivity. Qed.

Lemma str_eqb_false (a b : str) : str_eqb a b = false <-> a <> b.
Proof.
  split.
  - intros H E. apply str_eqb_true in E. congruence.
  - intros H. destruct (str_eqb a b) eqn:E; [|reflexivity].
    apply str_eqb_true in E. contradiction.
Qed.

Lemma char_in_true (c : ascii) (chars : str) :
  char_in c chars = true <-> In c chars.
Proof.
  unfold char_in. rewrite existsb_exists. split.
  - intros [x [Hx E]]. apply ascii_eqb_true in E. subst. exact Hx.
  - intros H. exists c. split; [exact H | apply ascii_eqb_refl].
Qed.

Lemma startswith_app (p s : str) : startswith p (p ++ s) = true.
Proof.
  induction p as [|x p IH]; simpl; [reflexivity|].
  rewrite ascii_eqb_refl. exact IH.
Qed.

Lemma startswith_true (p s : str) :
  startswith p s = true <-> exists r, s = p ++ r.
Proof.
  revert s. induction p as [|x p IH]; intros s; simpl.
  - split; [intros _; exists s; reflexivity | reflexivity].
  - destruct s as [|y s].
    + split; [discriminate | intros [r Hr]; discriminate].
    + rewrite andb_true_iff, ascii_eqb_true, IH. split.
      * intros [E [r Hr]]. exists r. subst. reflexivity.
      * intros [r Hr]. inversion Hr; subst. split; [reflexivity|].
        exists r. reflexivity.
Qed.

(** [find] of a character that does not occur answers [-1]. *)
Lemma find_from_absent (c : ascii) (s : str) (i : Z) :
  ~ In c s -> find_from [c] s i = (-1)%Z.
Proof.
  revert i. induction s as [|y s IH]; intros i H; simpl; [reflexivity|].
  destruct (ascii_eqb c y) eqn:E.
  - apply ascii_eqb_true in E. subst. exfalso. apply H. left. reflexivity.
  - simpl. apply IH. intros Hin. apply H. right. exact Hin.
Qed.

(** [find] of a character answers the length of the part before its first
    occurrence. *)
Lemma find_from_first (c : ascii) (a b : str) (i : Z) :
  ~ In c a -> find_from [c] (a ++ c :: b) i = (i + len a)%Z.
Proof.
  revert i. induction a as [|y a IH]; intros i H; simpl.
  - rewrite ascii_eqb_refl. simpl. unfold len. simpl. lia.
  - destruct (ascii_eqb c y) eqn:E.
    + apply ascii_eqb_true in E. subst. exfalso. apply H. left. reflexivity.
    + simpl. rewrite IH by (intros Hin; apply H; right; exact Hin).
      unfold len. change (List.length (y :: a)) with (S (List.length a)). lia.
Qed.

Lemma slice_index_nonneg (s : str) (i : nat) :
  i <= List.length s -> slice_index s (Z.of_nat i) = i.
Proof.
  intros H. unfold slice_index, len.
  destruct (Z.of_nat i <? 0)%Z eqn:E; [apply Z.ltb_lt in E; lia|]. lia.
Qed.


Lemma slice_to_app (a b : str) : slice_to (a ++ b) (len a) = a.
Proof.
  unfold slice_to, len. rewrite slice_index_nonneg.
  - rewrite firstn_app, Nat.sub_diag, firstn_all. simpl. apply app_nil_r.
  - rewrite length_app. lia.
Qed.

Lemma slice_from_app (a b : str) : slice_from (a ++ b) (len a) = b.
Proof.
  unfold slice_from, len. rewrite slice_index_nonneg.
  - rewrite skipn_app, Nat.sub_diag, skipn_all. reflexivity.
  - rewrite length_app. lia.
Qed.

End StrFacts.

(** ** [rstrip], [basename] and [splitext] *)

Section StripFacts.

Variable chars : str.

Lemma lstrip_split (s : str) :
  exists x, s = x ++ lstrip chars s
            /\ Forall (fun c => char_in c chars = true) x.
Proof.
  induction s as [|c s [x [E F]]]; simpl.
  - exists []. split; [reflexivity | constructor].
  - destruct (char_in c chars) eqn:Hc.
    + exists (c :: x). split; [simpl; congruence | constructor; assumption].
    + exists []. split; [reflexivity | constructor].
Qed.

Lemma lstrip_head (s : str) :
  match lstrip chars s with
  | [] => True
  | c :: _ => char_in c chars = false
  end.
Proof.
  induction s as [|c s IH]; simpl; [exact I|].
  destruct (char_in c chars) eqn:Hc; [exact IH | exact Hc].
Qed.

Lemma lstrip_app_all (x y : str) :
  Forall (fun c => char_in c chars = true) x ->
  lstrip chars (x ++ y) = lstrip chars y.
Proof.
  induction 1 as [|c x Hc _ IH]; simpl; [reflexivity|].
  rewrite Hc. exact IH.
Qed.

(** What [rstrip] removes is a run of characters of the set. *)
Lemma rstrip_split (s : str) :
  exists t, s = rstrip chars s ++ t
            /\ Forall (fun c => char_in c chars = true) t.
Proof.
  unfold rstrip. destruct (lstrip_split (rev s)) as [x [E F]].
  exists (rev x). split.
  - rewrite <- rev_app_distr, <- E. symmetry. apply rev_involutive.
  - apply Forall_rev. exact F.
Qed.

(** What [rstrip] leaves does not end in a character of the set. *)
Lemma rstrip_last (s p : str) (c : ascii) :
  rstrip chars s = p ++ [c] -> char_in c chars = false.
Proof.
  unfold rstrip. intros H. pose proof (lstrip_head (rev s)) as L.
  assert (E : lstrip chars (rev s) = c :: rev p).
  { rewrite <- (rev_involutive (lstrip chars (rev s))), H, rev_app_distr.
    reflexivity. }
  rewrite E in L. exact L.
Qed.

(** Trailing characters of the set do not change the result. *)
Lemma rstrip_app_all (s t : str) :
  Forall (fun c => char_in c chars = true) t ->
  rstrip chars (s ++ t) = rstrip chars s.
Proof.
  intros F. unfold rstrip. rewrite rev_app_distr, lstrip_app_all; [reflexivity|].
  apply Forall_rev. exact F.
Qed.

Lemma rstrip_length (s : str) :
  List.length (rstrip chars s) <= List.length s.
Proof.
  destruct (rstrip_split s) as [t [E _]].
  rewrite E at 2. rewrite length_app. lia.
Qed.

End StripFacts.

Section PathFacts.

Lemma rfind_sep_last (a b : str) :
  ~ In "/"%char b -> rfind OsPath.sep (a ++ "/"%char :: b) = len a.
Proof.
  intros H. unfold rfind, find.
  change (rev OsPath.sep) with ["/"%char].
  rewrite rev_app_distr. simpl rev. rewrite <- app_assoc. simpl app.
  rewrite find_from_first by (rewrite <- in_rev; exact H).
  unfold len. rewrite length_rev, length_app.
  destruct (0 + Z.of_nat (List.length b) <? 0)%Z eqn:E;
    [apply Z.ltb_lt in E; lia|].
  change (List.length OsPath.sep) with 1.
  change (List.length ("/"%char :: b)) with (S (List.length b)). lia.
Qed.

Lemma rfind_sep_absent (s : str) :
  ~ In "/"%char s -> rfind OsPath.sep s = (-1)%Z.
Proof.
  intros H. unfold rfind, find. change (rev OsPath.sep) with ["/"%char].
  rewrite find_from_absent by (rewrite <- in_rev; exact H). reflexivity.
Qed.

(** A string either has no separator or splits at its last one. *)
Lemma last_sep_split (s : str) :
  ~ In "/"%char s \/
  exists a b, s = a ++ "/"%char :: b /\ ~ In "/"%char b.
Proof.
  induction s as [|c s IH].
  - left. intros [].
  - destruct IH as [H | [a [b [E H]]]].
    + destruct (ascii_eqb c "/"%char) eqn:Ec.
      * apply ascii_eqb_true in Ec. subst c. right. exists [], s.
        split; [reflexivity | exact H].
      * apply ascii_eqb_false in Ec. left. intros [E | Hin];
          [congruence | contradiction].
    + right. exists (c :: a), b. split; [simpl; congruence | exact H].
Qed.

Lemma basename_after_sep (a b : str) :
  ~ In "/"%char b -> OsPath.basename (a ++ "/"%char :: b) = b.
Proof.
  intros H. unfold OsPath.basename. rewrite rfind_sep_last by exact H.
  replace (len a + 1)%Z with (len (a ++ ["/"%char])).
  - replace (a ++ "/"%char :: b) with ((a ++ ["/"%char]) ++ b)
      by (rewrite <- app_assoc; reflexivity).
    apply slice_from_app.
  - unfold len. rewrite length_app. simpl. lia.
Qed.

Lemma basename_no_sep (s : str) :
  ~ In "/"%char s -> OsPath.basename s = s.
Proof.
  intros H. unfold OsPath.basename. rewrite rfind_sep_absent by exact H.
  change (-1 + 1)%Z with (Z.of_nat 0). unfold slice_from.
  rewrite slice_index_nonneg by lia. reflexivity.
Qed.

Lemma slice_to_length (s : str) (i : Z) :
  List.length (slice_to s i) <= List.length s.
Proof. unfold slice_to. rewrite length_firstn. lia. Qed.

Lemma splitext_root_length (p : str) :
  List.length (fst (OsPath.splitext p)) <= List.length p.
Proof.
  unfold OsPath.splitext.
  destruct (_ <? _)%Z; [|simpl; lia].
  destruct (OsPath.has_non_dot _); simpl; [apply slice_to_length | lia].
Qed.

End PathFacts.

(** ** The directory [extract_file] consults *)

Lemma tar_gz_all_in_set :
  Forall (fun c => char_in c tar_gz = true) tar_gz.
Proof. repeat constructor. Qed.

Lemma extract_file_folder_short (stem p : str) (c : ascii) :
  stem = p ++ [c] -> In c tar_gz ->
  List.length (stripped_name (stem ++ tar_gz)) < List.length stem.
Proof.
  intros E Hc. unfold stripped_name. fold tar_gz.
  rewrite rstrip_app_all by apply tar_gz_all_in_set.
  subst stem. rewrite rstrip_app_all.
  - pose proof (rstrip_length tar_gz p). rewrite length_app. simpl. lia.
  - constructor; [apply char_in_true; exact Hc | constructor].
Qed.

(** [file_path.rstrip('.tar.gz')] removes every trailing character of the
    set [{. t a r g z}]: what is removed is a run of such characters, what
    is left does not end in one, and for a stem that ends in a character of
    the set the directory name computed is strictly shorter than the stem. *)
Lemma stripped_name_char_set (stem p : str) (c : ascii) :
  stem = p ++ [c] -> In c tar_gz ->
  let file_path := stem ++ tar_gz in
  (exists t, file_path = stripped_name file_path ++ t
             /\ Forall (fun x => In x tar_gz) t) /\
  (forall q x, stripped_name file_path = q ++ [x] -> ~ In x tar_gz) /\
  stripped_name file_path = rstrip tar_gz p /\
  stripped_name file_path <> stem /\
  List.length (extracted_folder_name file_path) < List.length stem /\
  extracted_folder_name file_path <> stem /\
  extracted_folder_name file_path <> OsPath.basename stem.
Proof.
  intros E Hc file_path.
  pose proof (@extract_file_folder_short stem p c E Hc) as Hshort. fold file_path in Hshort.
  assert (Hstrip : stripped_name file_path = rstrip tar_gz p).
  { unfold file_path, stripped_name. fold tar_gz.
    rewrite rstrip_app_all by apply tar_gz_all_in_set.
    subst stem. apply rstrip_app_all.
    constructor; [apply char_in_true; exact Hc | constructor]. }
  assert (Hfolder : List.length (extracted_folder_name file_path)
                    <= List.length (OsPath.basename (stripped_name file_path))).
  { unfold extracted_folder_name. apply splitext_root_length. }
  assert (Hbase : List.length (OsPath.basename (stripped_name file_path))
                  < List.length (OsPath.basename stem)).
  { rewrite Hstrip. destruct (rstrip_split tar_gz p) as [t [Et Ft]].
    assert (Hnosep : ~ In "/"%char (t ++ [c])).
    { intros Hin. apply in_app_or in Hin as [Hin | [Hin | []]].
      - rewrite Forall_forall in Ft. apply Ft in Hin. discriminate Hin.
      - subst c. apply char_in_true in Hc. discriminate Hc. }
    assert (Es : stem = rstrip tar_gz p ++ (t ++ [c])).
    { rewrite app_assoc, <- Et. exact E. }
    destruct (last_sep_split (rstrip tar_gz p)) as [Hn | [a [b [Eab Hb]]]].
    - rewrite basename_no_sep by exact Hn.
      rewrite basename_no_sep.
      + rewrite Es. rewrite !length_app. simpl. lia.
      + rewrite Es. intros Hin. apply in_app_or in Hin as [Hin | Hin];
          contradiction.
    - rewrite Eab, basename_after_sep by exact Hb.
      assert (Es' : stem = a ++ "/"%char :: (b ++ (t ++ [c]))).
      { rewrite Es, Eab, <- app_assoc. reflexivity. }
      rewrite Es', basename_after_sep.
      + rewrite !length_app. simpl. lia.
      + intros Hin. apply in_app_or in Hin as [Hin | Hin]; contradiction. }
  assert (Hbs : List.length (OsPath.basename stem) <= List.length stem).
  { unfold OsPath.basename, slice_from. rewrite length_skipn. lia. }
  repeat split.
  - destruct (rstrip_split tar_gz file_path) as [t [Et Ft]].
    exists t. split; [exact Et|].
    eapply Forall_impl; [|exact Ft]. intros x Hx. apply char_in_true. exact Hx.
  - intros q x Hq Hx. unfold stripped_name in Hq. fold tar_gz in Hq.
    apply rstrip_last in Hq. apply char_in_true in Hx. congruence.
  - exact Hstrip.
  - intros Heq. rewrite Heq in Hshort. lia.
  - lia.
  - intros Heq. rewrite Heq in Hfolder. lia.
  - intros Heq. rewrite Heq in Hfolder. lia.
Qed.

(** ** Running computations *)

(** Split a conjunction into its parts, and nothing else. *)
Ltac split_and := repeat match goal with |- _ /\ _ => split end.

(** Case analysis on an innermost scrutinee of a hypothesis. *)
Ltac break_match_in H :=
  match type of H with
  | context [match ?x with _ => _ end] =>
      lazymatch x with
      | context [match _ with _ => _ end] => fail
      | _ => destruct x eqn:?
      end
  end.

Ltac break_match_goal :=
  match goal with
  | |- context [match ?x with _ => _ end] =>
      lazymatch x with
      | context [match _ with _ => _ end] => fail
      | _ => destruct x eqn:?
      end
  end.

(** Replace the events of a closed run by their value. *)
Ltac eval_events :=
  repeat match goal with
         | |- context [events_of ?o] =>
             let v := eval vm_compute in (events_of o) in
             replace (events_of o) with v by (vm_compute; reflexivity)
         end.

(** Project the fields of updated worlds in a hypothesis. *)
Ltac world_simpl_in H :=
  cbn [fs cwd containers http requests faults ticks rng rng_pos untar
       environ_account_url article_files set_fs set_containers set_requests
       set_ticks set_rng_pos fst snd app] in H.

Ltac unfold_monad_in H :=
  unfold bind, ret, raise, emit, tick, get_world, modify, try_except,
    try_finally in H.

Section MonadFacts.

Context {A B : Type}.

Lemma bind_ok (c : M A) (k : A -> M B) w a w1 t1 r w2 t2 :
  c w = (Ok a, w1, t1) -> k a w1 = (r, w2, t2) ->
  bind c k w = (r, w2, t1 ++ t2).
Proof. intros Hc Hk. unfold bind. rewrite Hc, Hk. reflexivity. Qed.

Lemma bind_raise (c : M A) (k : A -> M B) w e w1 t1 :
  c w = (Raise e, w1, t1) -> bind c k w = (Raise e, w1, t1).
Proof. intros Hc. unfold bind. rewrite Hc. reflexivity. Qed.

Lemma bind_inv (c : M A) (k : A -> M B) w r w2 t :
  bind c k w = (r, w2, t) ->
  (exists a w1 t1 t2,
      c w = (Ok a, w1, t1) /\ k a w1 = (r, w2, t2) /\ t = t1 ++ t2)
  \/ (exists e, c w = (Raise e, w2, t) /\ r = Raise e).
Proof.
  unfold bind. destruct (c w) as [[[a | e] w1] t1].
  - destruct (k a w1) as [[r' w2'] t2] eqn:Hk. intros H. inversion H; subst.
    left. exists a, w1, t1, t2. auto.
  - intros H. inversion H; subst. right. exists e. auto.
Qed.

Lemma bind_inv_ok (c : M A) (k : A -> M B) w b w2 t :
  bind c k w = (Ok b, w2, t) ->
  exists a w1 t1 t2,
    c w = (Ok a, w1, t1) /\ k a w1 = (Ok b, w2, t2) /\ t = t1 ++ t2.
Proof.
  intros H. apply bind_inv in H as [H | [e [_ H]]]; [exact H | discriminate].
Qed.

End MonadFacts.

(** ** The existence checker *)

Lemma nonempty_filter_existsb {X} (f : X -> bool) (l : list X) :
  match filter f l with [] => false | _ :: _ => true end = existsb f l.
Proof.
  induction l as [|x l IH]; simpl; [reflexivity|].
  destruct (f x); simpl; [reflexivity | exact IH].
Qed.

(** What one call of [blob_exists] does, case by case. *)
Lemma blob_exists_run (local_filename container_client base_blob_name : str) w :
  blob_exists local_filename container_client base_blob_name w =
  let w' := set_ticks (S (ticks w)) w in
  let ev := [EvListBlobNames container_client
                             (blob_prefix base_blob_name local_filename)] in
  match faults w (ticks w) with
  | Some e => (Raise e, w', ev)
  | None =>
      match Azure.blobs_of container_client (containers w) with
      | Some _ =>
          (Ok (listed_under (blob_prefix base_blob_name local_filename)
                            container_client w), w', ev)
      | None => (Raise (exn_of "ResourceNotFoundError" container_client), w', ev)
      end
  end.
Proof.
  unfold blob_exists, Azure.list_blob_names, listed_under, blob_names,
    blob_prefix, bind, emit, tick, get_world, ret, raise.
  cbn. destruct (faults w (ticks w)); [reflexivity|]. cbn.
  destruct (Azure.blobs_of container_client (containers w)); cbn;
    [|reflexivity].
  rewrite nonempty_filter_existsb. reflexivity.
Qed.



Lemma file_stem_dot (a b : str) :
  ~ In "."%char a -> file_stem (a ++ "."%char :: b) = a.
Proof.
  induction a as [|c a IH]; intros H; simpl; [reflexivity|].
  destruct (ascii_eqb c "."%char) eqn:E.
  - apply ascii_eqb_true in E. subst. exfalso. apply H. left. reflexivity.
  - rewrite IH; [reflexivity|]. intros Hin. apply H. right. exact Hin.
Qed.

(** For a name with a dot the program's [name_wo_ext] is the file name
    without its extension. *)
Lemma name_wo_ext_dot (a b : str) :
  ~ In "."%char a ->
  name_wo_ext (a ++ "."%char :: b) = file_stem (a ++ "."%char :: b).
Proof.
  intros H. rewrite file_stem_dot by exact H. unfold name_wo_ext, find.
  change (of_string ".") with ["."%char].
  rewrite find_from_first by exact H. apply slice_to_app.
Qed.



(** For a name with a dot, [blob_exists] issues one listing call for the
    prefix made of the base and the name without its extension, answers
    whether a listed blob starts with it, and lets a failure of the call
    through. *)
Lemma blob_exists_with_dot (a b container_client base_blob_name : str) w :
  ~ In "."%char a ->
  let local_filename := a ++ "."%char :: b in
  let prefix := OsPath.join base_blob_name (file_stem local_filename) in
  let out := blob_exists local_filename container_client base_blob_name w in
  events_of out = [EvListBlobNames container_client prefix] /\
  (forall e, faults w (ticks w) = Some e -> result_of out = Raise e) /\
  (faults w (ticks w) = None ->
   Azure.blobs_of container_client (containers w) <> None ->
   result_of out = Ok (listed_under prefix container_client w)).
Proof.
  intros H local_filename prefix out. subst out prefix.
  rewrite blob_exists_run. unfold blob_prefix. subst local_filename.
  rewrite name_wo_ext_dot by exact H. cbv zeta.
  destruct (faults w (ticks w)) as [e0|].
  - split; [reflexivity | split].
    + intros e E. inversion E. reflexivity.
    + discriminate.
  - destruct (Azure.blobs_of container_client (containers w)).
    + split; [reflexivity | split]; [discriminate | reflexivity].
    + split; [reflexivity | split]; [discriminate|].
      intros _ Hn. contradiction.
Qed.

(** C7.  At the dotless name [README] the existence checker answers [True]
    although no listed blob starts with the base joined with the file name
    without its extension: its single listing call asks for the name minus
    its last character. *)
Theorem blob_exists_dotless_name_wrong_prefix :
  let w := SamplesExistence.readm_world in
  let out := blob_exists (of_string "README") CONTAINER_NAME BASE_BLOB_NAME w in
  result_of out = Ok true /\
  listed_under (OsPath.join BASE_BLOB_NAME (file_stem (of_string "README")))
               CONTAINER_NAME w = false /\
  events_of out =
    [EvListBlobNames CONTAINER_NAME (of_string "real-colon-dataset/READM")].
Proof. cbv zeta. repeat split. Qed.

(** ** The orchestrator *)

Lemma emit_bind {B} (e : event) (k : unit -> M B) w :
  bind (emit e) k w =
  match k tt w with (r, w2, t2) => (r, w2, e :: t2) end.
Proof. reflexivity. Qed.



(** Opening the container touches neither the file system nor the
    network of the download; its events are those of the SDK calls. *)
Lemma open_container_run acct cname w r w' t :
  open_container acct cname w = (r, w', t) ->
  fs w' = fs w /\ cwd w' = cwd w /\ requests w' = requests w
  /\ http w' = http w /\ untar w' = untar w /\ rng w' = rng w
  /\ rng_pos w' = rng_pos w /\ forallb is_setup t = true.
Proof.
  intros H. unfold open_container, Azure.DefaultAzureCredential,
    Azure.BlobServiceClient, Azure.list_containers, Azure.create_container,
    Azure.get_container_client in H. unfold_monad_in H.
  repeat (break_match_in H; cbv beta iota in H); inversion H; subst;
    repeat match goal with
           | E : (_, _, _) = (_, _, _) |- _ => inversion E; subst; clear E
           end; split_and; reflexivity.
Qed.

Lemma setup_no_pool t : forallb is_setup t = true -> filter is_pool t = [].
Proof.
  induction t as [|e t IH]; [reflexivity|]. cbn [forallb filter].
  intros H. apply andb_true_iff in H as [He Ht].
  destruct e; try discriminate He; cbn; apply IH; exact Ht.
Qed.

Lemma setup_no_request t :
  forallb is_setup t = true -> filter is_request t = [].
Proof.
  induction t as [|e t IH]; [reflexivity|]. cbn [forallb filter].
  intros H. apply andb_true_iff in H as [He Ht].
  destruct e; try discriminate He; cbn; apply IH; exact Ht.
Qed.


Lemma map_m_length {X Y} (f : X -> M Y) (xs : list X) :
  forall w ys w' t, map_m f xs w = (Ok ys, w', t) ->
                    List.length ys = List.length xs.
Proof.
  induction xs as [|x xs IH]; intros w ys w' t H.
  - inversion H. reflexivity.
  - cbn [map_m] in H.
    apply bind_inv_ok in H as [y [w1 [t1 [t2 [_ [H _]]]]]].
    apply bind_inv_ok in H as [ys' [w2 [t3 [t4 [H [Hr _]]]]]].
    inversion Hr; subst. simpl. f_equal. eapply IH. exact H.
Qed.

Lemma for_each_summary (l : list (str * Z)) w :
  for_each l summary_line w = (Ok tt, w, map summary_event l).
Proof.
  induction l as [|[file n] l IH]; [reflexivity|].
  cbn [for_each map]. unfold bind. unfold summary_line at 1.
  unfold summary_event at 1. cbn [fst snd].
  destruct (n =? -1)%Z; cbn; rewrite IH; reflexivity.
Qed.

(** ** The pool *)

Section PoolFacts.

Context {X Y : Type}.
Variable f : X -> M Y.

Lemma Pool_run (n : Z) w :
  (1 <= n)%Z -> Pool n w = (Ok tt, w, [EvPool n]).
Proof.
  intros H. unfold Pool. destruct (n <? 1)%Z eqn:E; [|reflexivity].
  apply Z.ltb_lt in E. lia.
Qed.

Lemma pool_chunksize_pos (len : nat) (p : Z) :
  0 < len -> (1 <= p)%Z -> 0 < pool_chunksize len p.
Proof.
  intros Hl Hp. unfold pool_chunksize.
  assert (H4 : (0 < p * 4)%Z) by lia.
  pose proof (Z.div_mod (Z.of_nat len) (p * 4)) as Hdm.
  pose proof (Z.mod_pos_bound (Z.of_nat len) (p * 4) H4) as Hm.
  pose proof (Z.div_pos (Z.of_nat len) (p * 4)) as Hq.
  destruct (Z.of_nat len mod (p * 4) =? 0)%Z eqn:E.
  - apply Z.eqb_eq in E. nia.
  - assert (0 <= Z.of_nat len / (p * 4))%Z by (apply Hq; lia). lia.
Qed.

Lemma map_m_app_ok (a b : list X) :
  forall w ys w' t,
    map_m f (a ++ b) w = (Ok ys, w', t) ->
    exists ya yb w1 ta tb,
      map_m f a w = (Ok ya, w1, ta) /\ map_m f b w1 = (Ok yb, w', tb) /\
      ys = ya ++ yb /\ t = ta ++ tb.
Proof.
  induction a as [|x a IH]; intros w ys w' t H.
  - exists [], ys, w, [], t. split_and; try reflexivity. exact H.
  - cbn [app map_m] in H.
    apply bind_inv_ok in H as [y [w1 [t1 [t2 [Hy [H Et]]]]]].
    apply bind_inv_ok in H as [ys' [w2 [t3 [t4 [Hys [Hr Et2]]]]]].
    inversion Hr; subst ys w2 t4; clear Hr.
    apply IH in Hys as [ya [yb [w3 [ta [tb [Ha [Hb [Ey Et3]]]]]]]].
    exists (y :: ya), yb, w3, (t1 ++ ta), tb. split_and.
    + cbn [map_m]. unfold bind. rewrite Hy, Ha. cbn. rewrite app_nil_r.
      reflexivity.
    + exact Hb.
    + subst ys'. reflexivity.
    + subst t t2 t3. rewrite app_nil_r, app_assoc. reflexivity.
Qed.

Lemma run_chunk_ok (chunk : list X) w ys w' t :
  map_m f chunk w = (Ok ys, w', t) ->
  run_chunk f chunk w = (Ok (Ok ys), w', t).
Proof.
  intros H. unfold run_chunk, try_except, bind, ret. rewrite H.
  rewrite app_nil_r. reflexivity.
Qed.



Lemma chunks_all_ok (fuel size : nat) :
  0 < size ->
  forall xs w ys w' t,
    List.length xs <= fuel ->
    map_m f xs w = (Ok ys, w', t) ->
    exists rs,
      map_m (run_chunk f) (chunks fuel size xs) w = (Ok rs, w', t)
      /\ collect rs = Ok ys.
Proof.
  intros Hs. induction fuel as [|fuel IH]; intros xs w ys w' t Hl H.
  - destruct xs; [|cbn in Hl; lia]. inversion H; subst.
    exists []. split; reflexivity.
  - destruct xs as [|x xs].
    + inversion H; subst. exists []. split; reflexivity.
    + cbn [chunks]. set (l := x :: xs) in *.
      rewrite <- (firstn_skipn size l) in H.
      apply map_m_app_ok in H as [ya [yb [w1 [ta [tb [Ha [Hb [Ey Et]]]]]]]].
      assert (Hlen : List.length (skipn size l) <= fuel).
      { rewrite length_skipn. subst l. cbn [List.length] in *. lia. }
      destruct (IH _ _ _ _ _ Hlen Hb) as [rs [Hrs Hc]].
      exists (Ok ya :: rs). split.
      * cbn [map_m]. unfold bind. rewrite (run_chunk_ok _ _ Ha), Hrs.
        cbn. rewrite app_nil_r. subst t. reflexivity.
      * cbn [collect]. rewrite Hc. subst ys. reflexivity.
Qed.

(** When every call returns, the pool returns what the calls return, in
    task order, and leaves the world and the events of the calls made one
    after the other. *)
Lemma pool_map_all_ok (p : Z) (xs : list X) w ys w' t :
  (1 <= p)%Z ->
  map_m f xs w = (Ok ys, w', t) ->
  pool_map p f xs w = (Ok ys, w', t).
Proof.
  intros Hp H. unfold pool_map.
  destruct xs as [|x xs].
  - inversion H; subst. reflexivity.
  - set (l := x :: xs) in *.
    assert (Hs : 0 < pool_chunksize (List.length l) p).
    { apply pool_chunksize_pos; [subst l; cbn; lia | exact Hp]. }
    destruct (@chunks_all_ok (List.length l) _ Hs l w ys w' t (le_n _) H)
      as [rs [Hrs Hc]].
    unfold bind. rewrite Hrs, Hc. cbn. rewrite app_nil_r. reflexivity.
Qed.






(** *** Chunks of one task *)








End PoolFacts.

(** With pending tasks [main] creates one pool of [min(4, n)] processes,
    hands it the queued tasks, and logs one summary line per task. *)
Lemma main_dispatch_pending tasks w rs w1 t1 :
  tasks <> [] ->
  map_m run_task tasks w = (Ok rs, w1, t1) ->
  let lines := map summary_event (combine (map t_file_name tasks) rs) in
  main_dispatch tasks w =
    (Ok tt, w1,
     EvPool (Z.min 4 (Z.of_nat (List.length tasks))) :: t1 ++ lines
       ++ [EvLog INFO LogAllDone])
  /\ List.length lines = List.length tasks.
Proof.
  intros Hne Hm lines. split.
  - unfold main_dispatch.
    assert (Hn : (Z.min 4 (Z.of_nat (List.length tasks)) =? 0)%Z = false).
    { apply Z.eqb_neq. destruct tasks; [contradiction|].
      cbn [List.length]. lia. }
    assert (Hp : (1 <= Z.min 4 (Z.of_nat (List.length tasks)))%Z).
    { destruct tasks; [contradiction|]. cbn [List.length]. lia. }
    rewrite Hn. cbn [negb]. unfold pool_starmap, bind, ret.
    rewrite (@Pool_run _ w Hp).
    rewrite (@pool_map_all_ok _ _ run_task _ _ _ _ _ _ Hp Hm).
    rewrite for_each_summary. cbn. rewrite app_nil_r.
    reflexivity.
  - unfold lines. rewrite length_map, length_combine, length_map.
    apply map_m_length in Hm. lia.
Qed.



(** C4.  With no pending task [main] creates no pool, but then reads the
    local variable [results], which only the pool branch binds: it raises
    [UnboundLocalError] instead of finishing the summary.  This happens for
    every world once the queue is empty, and in particular when every
    catalog entry is reported present. *)
Theorem main_zero_pending_unbound_results :
  (forall w, main_dispatch [] w = (Raise unbound_results, w, [])) /\
  (let out := main SamplesExistence.all_uploaded_world in
   result_of out = Raise unbound_results /\
   filter is_pool (events_of out) = [] /\
   filter is_summary (events_of out) = [] /\
   ~ In (EvLog INFO LogAllDone) (events_of out) /\
   In (EvLog INFO (LogSkipping (of_string "001.tar.gz"))) (events_of out) /\
   In (EvLog INFO (LogSkipping (of_string "README"))) (events_of out)).
Proof.
  split; [reflexivity|]. cbv zeta. split_and; try (vm_compute; reflexivity).
  - eval_events. cbn [In]. intros H.
    repeat match goal with
           | H : _ \/ _ |- _ => destruct H as [H | H]; [discriminate H|]
           end. exact H.
  - eval_events. cbn [In]. tauto.
  - eval_events. cbn [In]. tauto.
Qed.

(** ** The downloader *)

Lemma file_exists_run (local_filename : str) w :
  exists size, file_exists local_filename w = (Ok size, w, []).
Proof.
  unfold file_exists, os_path_exists, os_path_getsize, bind, get_world, ret,
    raise, Fs.stat.
  destruct (Fs.resolve (fs w) (cwd w) local_filename)
    as [e | [c [d | es]]] eqn:E; cbv beta iota; rewrite ?E; eexists;
    reflexivity.
Qed.

(** One attempt makes one request, never sleeps, and can only return the
    destination path. *)
Lemma download_attempt_run url local_filename w r w1 t1 :
  download_attempt url local_filename w = (r, w1, t1) ->
  filter is_sleep t1 = [] /\ filter is_request t1 = [EvRequest url]
  /\ requests w1 = S (requests w)
  /\ (forall p, r = Ok p -> p = local_filename)
  /\ filter is_request_or_sleep t1 = [EvRequest url].
Proof.
  intros H. unfold download_attempt, raise_for_status, write_file, fs_store,
    print in H. unfold_monad_in H.
  repeat (break_match_in H; cbv beta iota in H);
    repeat match goal with
           | E : (_, _, _) = (_, _, _) |- _ => inversion E; subst; clear E
           end;
    split_and; try reflexivity; intros p Hp; inversion Hp; reflexivity.
Qed.

Lemma download_loop_success n url local_filename w p w1 t1 :
  download_attempt url local_filename w = (Ok p, w1, t1) ->
  download_loop (S n) url local_filename w = (Ok (Some p), w1, t1 ++ []).
Proof.
  intros H. cbn [download_loop]. unfold try_except, bind, ret. rewrite H.
  reflexivity.
Qed.

(** An attempt that raises, whatever the exception, is followed by a
    message, a wait of [retry_delay] seconds and the next round. *)
Lemma download_loop_failure n url local_filename w e w1 t1 :
  download_attempt url local_filename w = (Raise e, w1, t1) ->
  exists m,
    download_loop (S n) url local_filename w =
    match download_loop n url local_filename w1 with
    | (r, w2, t2) => (r, w2, t1 ++ [EvPrint m; EvSleep retry_delay] ++ t2)
    end.
Proof.
  intros H. cbn [download_loop]. unfold try_except at 1.
  unfold bind at 1. rewrite H.
  destruct (contains (of_string "IncompleteRead") (exn_msg e)).
  - exists (PrintConnectionError (exn_msg e) retry_delay).
    unfold bind, print, time_sleep, emit.
    destruct (download_loop n url local_filename w1) as [[r w2] t2].
    reflexivity.
  - exists (PrintUnexpectedError (exn_msg e) retry_delay).
    unfold bind, print, time_sleep, emit.
    destruct (download_loop n url local_filename w1) as [[r w2] t2].
    reflexivity.
Qed.

Lemma download_loop_run n : forall url local_filename w,
  let out := download_loop n url local_filename w in
  exists k w1,
    k <= n /\ attempts_fail k url local_filename w = Some w1 /\
    filter is_sleep (events_of out) = repeat (EvSleep retry_delay) k /\
    ((k < n /\
      (exists w2 t, download_attempt url local_filename w1
                    = (Ok local_filename, w2, t) /\ world_of out = w2) /\
      result_of out = Ok (Some local_filename) /\
      List.length (filter is_request (events_of out)) = S k /\
      requests (world_of out) = requests w + S k /\
      filter is_request_or_sleep (events_of out)
        = rounds k url ++ [EvRequest url])
     \/
     (k = n /\ result_of out = Ok None /\ world_of out = w1 /\
      List.length (filter is_request (events_of out)) = n /\
      requests (world_of out) = requests w + n /\
      In (EvPrint (PrintFailed local_filename (Z.of_nat max_attempts)))
         (events_of out) /\
      filter is_request_or_sleep (events_of out) = rounds n url)).
Proof.
  induction n as [|n IH]; intros url local_filename w out.
  - exists 0, w. split_and; try reflexivity. right.
    split_and; try reflexivity.
    + cbn. lia.
    + left. reflexivity.
  - destruct (download_attempt url local_filename w) as [[[p | e] w1] t1] eqn:Ha.
    + pose proof (download_attempt_run _ _ _ Ha) as [Hs [Hr [Hq [Hp Hrs]]]].
      specialize (Hp p eq_refl). subst p.
      exists 0, w. subst out.
      rewrite (download_loop_success n _ _ _ Ha).
      unfold events_of, world_of, result_of. cbn [fst snd].
      rewrite app_nil_r. split_and; [lia | reflexivity | exact Hs |].
      left. split_and.
      * lia.
      * exists w1, t1. split; [exact Ha | reflexivity].
      * reflexivity.
      * rewrite Hr. reflexivity.
      * rewrite Hq. lia.
      * exact Hrs.
    + pose proof (download_attempt_run _ _ _ Ha) as [Hs [Hr [Hq [_ Hrs]]]].
      destruct (download_loop_failure n _ _ _ Ha) as [m Hl].
      specialize (IH url local_filename w1). cbv zeta in IH.
      destruct IH as [k [w2 [Hk [Hf [Hsl Hcase]]]]].
      exists (S k), w2. subst out. rewrite Hl.
      destruct (download_loop n url local_filename w1) as [[r w3] t3].
      unfold events_of, world_of, result_of in *. cbn [fst snd] in *.
      split_and.
      * lia.
      * cbn [attempts_fail]. rewrite Ha. exact Hf.
      * rewrite !filter_app, Hs, Hsl. reflexivity.
      * destruct Hcase as [[H1 [H2 [H3 [H4 [H5 H7]]]]]
                          | [H1 [H2 [H3 [H4 [H5 [H6 H7]]]]]]].
        -- left. split_and; [lia | exact H2 | exact H3 | | |].
           ++ rewrite !filter_app, Hr. cbn. rewrite H4. reflexivity.
           ++ rewrite H5, Hq. lia.
           ++ rewrite !filter_app, Hrs, H7. reflexivity.
        -- right. split_and; [lia | exact H2 | exact H3 | | | |].
           ++ rewrite !filter_app, Hr. cbn. rewrite H4. reflexivity.
           ++ rewrite H5, Hq. lia.
           ++ apply in_or_app. right. right. right. exact H6.
           ++ rewrite !filter_app, Hrs, H7. reflexivity.
Qed.

Lemma download_file_unfold url local_filename w :
  download_file (url, local_filename) w
  = download_loop max_attempts url local_filename w.
Proof.
  unfold download_file, bind.
  destruct (file_exists_run local_filename w) as [size E]. rewrite E.
  destruct (download_loop max_attempts url local_filename w) as [[r w2] t2].
  reflexivity.
Qed.

(** C3.  [download_file] never raises.  It makes attempts until one
    succeeds, and an attempt that raises, whatever the exception, is
    followed by a wait of 180 seconds before the next request is made: the
    requests and waits of the run are [k] rounds of a request and its wait,
    one per failed attempt, followed by the request that succeeds, and the
    call returns the destination path after these [k + 1] requests.  When
    1000 attempts have raised, the run is exactly 1000 rounds of a request
    and a wait; it reports the failure and returns [None], which is no
    path. *)
Theorem download_file_retries (url local_filename : str) (w : World) :
  let out := download_file (url, local_filename) w in
  max_attempts = 1000 /\ retry_delay = 180%Z /\
  (forall p : str, @None str <> Some p) /\
  exists k w1,
    k <= max_attempts /\
    attempts_fail k url local_filename w = Some w1 /\
    filter is_sleep (events_of out) = repeat (EvSleep retry_delay) k /\
    ((k < max_attempts /\
      (exists w2 t, download_attempt url local_filename w1
                    = (Ok local_filename, w2, t) /\ world_of out = w2) /\
      result_of out = Ok (Some local_filename) /\
      List.length (filter is_request (events_of out)) = S k /\
      requests (world_of out) = requests w + S k /\
      filter is_request_or_sleep (events_of out)
        = rounds k url ++ [EvRequest url])
     \/
     (k = max_attempts /\ result_of out = Ok None /\ world_of out = w1 /\
      List.length (filter is_request (events_of out)) = max_attempts /\
      requests (world_of out) = requests w + max_attempts /\
      In (EvPrint (PrintFailed local_filename (Z.of_nat max_attempts)))
         (events_of out) /\
      filter is_request_or_sleep (events_of out) = rounds max_attempts url)).
Proof.
  intros out. split_and; [reflexivity | reflexivity | discriminate |].
  subst out. rewrite download_file_unfold.
  apply (download_loop_run max_attempts url local_filename w).
Qed.

Example download_file_server_down :
  let out := download_file (SamplesDownload.url, SamplesDownload.dest)
                           SamplesDownload.down_world in
  result_of out = Ok None /\
  List.length (filter is_request (events_of out)) = 1000 /\
  filter is_sleep (events_of out) = repeat (EvSleep 180) 1000.
Proof. vm_compute. split_and; reflexivity. Qed.

Example download_file_third_attempt :
  let out := download_file (SamplesDownload.url, SamplesDownload.dest)
                           SamplesDownload.flaky_world in
  result_of out = Ok (Some SamplesDownload.dest) /\
  filter is_request (events_of out)
    = repeat (EvRequest SamplesDownload.url) 3 /\
  filter is_sleep (events_of out) = repeat (EvSleep 180) 2 /\
  filter is_request_or_sleep (events_of out)
    = [EvRequest SamplesDownload.url; EvSleep 180;
       EvRequest SamplesDownload.url; EvSleep 180;
       EvRequest SamplesDownload.url] /\
  Fs.get (fs (world_of out)) [of_string "tmp"; of_string "001.tar.gz"]
    = Some (File Samples.archive_bytes).
Proof. vm_compute. split_and; reflexivity. Qed.

(** ** The per-file pipeline: its exception boundary *)

(** How [download_to_blob] ends, by the outcome of opening the container
    and of the [with] block. *)
Lemma download_to_blob_run
      (file_url file_name storage_acct_url container_name base_blob_name : str)
      (w : World) :
  download_to_blob file_url file_name storage_acct_url container_name
                   base_blob_name w =
  match open_container storage_acct_url container_name w with
  | (Raise e, w1, t1) => (Raise e, w1, t1)
  | (Ok container_client, w1, t1) =>
      match Tempfile.with_TemporaryDirectory
              (pipeline_body file_url file_name base_blob_name
                             container_client 0) w1 with
      | (Raise e, w2, t2) =>
          (Ok (-1)%Z, w2, t1 ++ t2 ++ [EvLog ERROR (LogException e)])
      | (Ok n, w2, t2) =>
          (Ok n, w2, t1 ++ t2 ++ [EvLog INFO (LogPhaseTime Total file_name)])
      end
  end.
Proof.
  unfold download_to_blob, pipeline_try, bind at 1.
  destruct (open_container storage_acct_url container_name w)
    as [[[cc | e] w1] t1]; [|reflexivity].
  unfold try_except, bind, logger_info, logger_exception, emit, ret.
  destruct (Tempfile.with_TemporaryDirectory _ w1) as [[[n | e] w2] t2];
    rewrite ?app_nil_r; reflexivity.
Qed.

(** C1, as the code has it.  An exception raised inside the [try] block of
    [download_to_blob], by the creation of the scratch directory, the
    download, the extraction, the removal of the archive, the upload or the
    cleanup, is logged and turned into [-1]; an exception raised by the
    steps before the [try], which build the credential and the service
    client and look up or create the container, reaches the caller. *)
Theorem download_to_blob_exception_boundary
      (file_url file_name storage_acct_url container_name base_blob_name : str)
      (w : World) :
  let out := download_to_blob file_url file_name storage_acct_url
                              container_name base_blob_name w in
  match open_container storage_acct_url container_name w with
  | (Raise e, w1, t1) => out = (Raise e, w1, t1)
  | (Ok container_client, w1, t1) =>
      (exists v, result_of out = Ok v) /\
      match Tempfile.with_TemporaryDirectory
              (pipeline_body file_url file_name base_blob_name
                             container_client 0) w1 with
      | (Raise e, w2, t2) =>
          out = (Ok (-1)%Z, w2, t1 ++ t2 ++ [EvLog ERROR (LogException e)])
      | (Ok n, w2, t2) =>
          out = (Ok n, w2,
                 t1 ++ t2 ++ [EvLog INFO (LogPhaseTime Total file_name)])
      end
  end.
Proof.
  intros out. subst out. rewrite download_to_blob_run.
  destruct (open_container storage_acct_url container_name w)
    as [[[cc | e] w1] t1]; [|reflexivity].
  destruct (Tempfile.with_TemporaryDirectory _ w1) as [[[n | e] w2] t2];
    (split; [eexists; reflexivity | reflexivity]).
Qed.

(** C1 as stated fails: a refused container listing is not turned into
    [-1], the exception leaves [download_to_blob]. *)
Lemma download_to_blob_setup_exception_propagates :
  let out := SamplesPipeline.run SamplesPipeline.auth_fail_world in
  result_of out = Raise SamplesPipeline.auth_error /\
  result_of out <> Ok (-1)%Z /\
  events_of out = [EvCredential; EvServiceClient Samples.account;
                   EvListContainers CONTAINER_NAME].
Proof.
  cbv zeta. split_and;
    [vm_compute; reflexivity | vm_compute; discriminate | vm_compute; reflexivity].
Qed.

Example download_to_blob_bad_archive :
  let out := SamplesPipeline.run SamplesPipeline.garbage_world in
  result_of out = Ok (-1)%Z /\
  exists e, exn_class e = "ReadError"%string /\
            In (EvLog ERROR (LogException e)) (events_of out).
Proof.
  cbv zeta. split; [vm_compute; reflexivity|]. eval_events.
  eexists (Exn "ReadError" _). split; [reflexivity|].
  cbn [In]. repeat (first [left; reflexivity | right]).
Qed.

(** ** The file system tree *)

Section FsFacts.

Lemma lookup_set_entry (c : str) (x : node) (es : entries_t) :
  Fs.lookup c (Fs.set_entry c x es) = Some x.
Proof.
  induction es as [|[n y] es IH]; simpl.
  - rewrite str_eqb_refl. reflexivity.
  - destruct (str_eqb n c) eqn:E; simpl; rewrite E; [reflexivity | exact IH].
Qed.

Lemma lookup_del_entry (c : str) (es : entries_t) :
  Fs.lookup c (Fs.del_entry c es) = None.
Proof.
  induction es as [|[n y] es IH]; simpl; [reflexivity|].
  destruct (str_eqb n c) eqn:E; simpl; [exact IH | rewrite E; exact IH].
Qed.

Lemma update_dir_get (f : entries_t -> entries_t) (d : list str) :
  forall t t', Fs.update_dir t d f = Some t' ->
               exists es, Fs.get t d = Some (Dir es)
                          /\ Fs.get t' d = Some (Dir (f es)).
Proof.
  induction d as [|c d IH]; intros t t' H; destruct t as [data | es];
    simpl in H; try discriminate.
  - inversion H; subst. exists es. split; reflexivity.
  - destruct (Fs.lookup c es) as [sub|] eqn:El; [|discriminate].
    destruct (Fs.update_dir sub d f) as [sub'|] eqn:Eu; [|discriminate].
    inversion H; subst. apply IH in Eu as [es0 [G1 G2]].
    exists es0. simpl. rewrite El, lookup_set_entry. split; assumption.
Qed.

Lemma get_app (t : node) (d p : list str) :
  Fs.get t (d ++ p) = match Fs.get t d with
                      | Some x => Fs.get x p
                      | None => None
                      end.
Proof.
  revert t. induction d as [|c d IH]; intros t; simpl; [reflexivity|].
  destruct t as [data | es]; [reflexivity|].
  destruct (Fs.lookup c es); [apply IH | reflexivity].
Qed.

Lemma update_dir_none (f : entries_t -> entries_t) (d : list str) :
  forall t, Fs.update_dir t d f = None ->
            forall es, Fs.get t d <> Some (Dir es).
Proof.
  induction d as [|c d IH]; intros t H es0; destruct t as [data | es];
    simpl in *; try discriminate.
  - destruct (Fs.lookup c es) as [sub|] eqn:El; [|discriminate].
    destruct (Fs.update_dir sub d f) as [sub'|] eqn:Eu; [discriminate|].
    eapply IH. exact Eu.
Qed.

Lemma path_parent_leaf (p : list str) :
  p <> [] -> p = Fs.parent p ++ [Fs.leaf p].
Proof. intros H. apply app_removelast_last. exact H. Qed.

Lemma del_at_get (d : list str) (c : str) (t : node) :
  Fs.get (match Fs.update_dir t d (Fs.del_entry c) with
          | Some t' => t'
          | None => t
          end) (d ++ [c]) = None.
Proof.
  rewrite get_app.
  destruct (Fs.update_dir t d (Fs.del_entry c)) as [t'|] eqn:Eu.
  - apply update_dir_get in Eu as [es [_ G]]. rewrite G. simpl.
    rewrite lookup_del_entry. reflexivity.
  - destruct (Fs.get t d) as [[data | es]|] eqn:G;
      [reflexivity | | reflexivity].
    exfalso. eapply update_dir_none; eassumption.
Qed.

(** After the removal of the entry at [p] nothing is found at [p]. *)
Lemma fs_without_get (p : list str) (t : node) :
  p <> [] -> Fs.get (fs_without p t) p = None.
Proof.
  intros Hp.
  transitivity (Fs.get (fs_without p t) (Fs.parent p ++ [Fs.leaf p])).
  - f_equal. apply path_parent_leaf. exact Hp.
  - unfold fs_without. destruct p as [|c p]; [contradiction|].
    apply del_at_get.
Qed.

End FsFacts.

(** ** Paths: splitting, normalising, joining *)

Section ResolveFacts.

Lemma split_sep_nonempty (s : str) : Fs.split_sep s <> [].
Proof.
  destruct s as [|c s]; simpl; [discriminate|].
  destruct (ascii_eqb c "/"%char); [discriminate|].
  destruct (Fs.split_sep s); discriminate.
Qed.

Lemma split_sep_app (a b : str) :
  Fs.split_sep (a ++ "/"%char :: b) = Fs.split_sep a ++ Fs.split_sep b.
Proof.
  induction a as [|c a IH]; simpl; [reflexivity|].
  destruct (ascii_eqb c "/"%char); [rewrite IH; reflexivity|].
  rewrite IH. pose proof (split_sep_nonempty a) as Hn.
  destruct (Fs.split_sep a); [contradiction | reflexivity].
Qed.

Lemma split_sep_plain (f : str) :
  char_in "/"%char f = false -> Fs.split_sep f = [f].
Proof.
  induction f as [|c f IH]; intros H; simpl; [reflexivity|].
  unfold char_in in H. cbn [existsb] in H.
  apply orb_false_iff in H as [Hc Hf].
  assert (Hc' : ascii_eqb c "/"%char = false).
  { apply ascii_eqb_false. apply ascii_eqb_false in Hc. congruence. }
  rewrite Hc', (IH Hf). reflexivity.
Qed.

Lemma valid_name_facts (f : str) :
  Fs.valid_name f = true ->
  f <> [] /\ char_in "/"%char f = false /\
  (forall stack, Fs.push_comp stack f = stack ++ [f]).
Proof.
  unfold Fs.valid_name. intros H.
  repeat (apply andb_true_iff in H as [H ?]).
  repeat match goal with
         | E : negb _ = true |- _ => apply negb_true_iff in E
         end.
  split_and.
  - intros E. subst f. discriminate.
  - assumption.
  - intros stack. unfold Fs.push_comp.
    repeat match goal with
           | E : str_eqb _ _ = false |- _ => rewrite E
           end. reflexivity.
Qed.

Lemma startswith_sep_app (x y : str) :
  x <> [] -> startswith OsPath.sep (x ++ y) = startswith OsPath.sep x.
Proof.
  intros H. destruct x as [|c x]; [contradiction|]. simpl.
  destruct (ascii_eqb "/"%char c); reflexivity.
Qed.

Lemma endswith_sep_true (root : str) :
  endswith OsPath.sep root = true -> exists r, root = r ++ ["/"%char].
Proof.
  unfold endswith. change (rev OsPath.sep) with ["/"%char]. intros H.
  apply startswith_true in H as [x Hx]. exists (rev x).
  rewrite <- (rev_involutive root), Hx. reflexivity.
Qed.



End ResolveFacts.

Section JoinFacts.


Lemma endswith_sep_app (y x : str) :
  x <> [] -> endswith OsPath.sep (y ++ x) = endswith OsPath.sep x.
Proof.
  intros H. unfold endswith. rewrite rev_app_distr.
  change (rev OsPath.sep) with OsPath.sep. apply startswith_sep_app.
  intros E. apply H. rewrite <- (rev_involutive x), E. reflexivity.
Qed.

Lemma valid_no_leading_sep (f : str) :
  Fs.valid_name f = true -> startswith OsPath.sep f = false.
Proof.
  intros Hv. destruct (@valid_name_facts f Hv) as [Hne [Hns _]].
  destruct f as [|c f]; [contradiction|]. simpl.
  unfold char_in in Hns. cbn [existsb] in Hns.
  apply orb_false_iff in Hns as [Hc _]. rewrite Hc. reflexivity.
Qed.





End JoinFacts.

(** ** Path resolution in the tree *)

Section Resolution.

Lemma push_comp_empty (cur : list str) : Fs.push_comp cur [] = cur.
Proof. reflexivity. Qed.

Lemma walk_app (root : node) (a b : list str) :
  forall cur,
    Fs.walk root cur (a ++ b)
    = match Fs.walk root cur a with
      | inr c => Fs.walk root c b
      | inl e => inl e
      end.
Proof.
  induction a as [|x a IH]; intros cur; cbn [app Fs.walk]; [reflexivity|].
  destruct (Fs.get root cur) as [[d | es]|]; [reflexivity | apply IH | reflexivity].
Qed.

(** Where a walk ends is a matter of the text of the path. *)
Lemma walk_lexical (root : node) (comps : list str) :
  forall cur c, Fs.walk root cur comps = inr c ->
                c = fold_left Fs.push_comp comps cur.
Proof.
  induction comps as [|x comps IH]; intros cur c H; cbn [Fs.walk fold_left] in *.
  - inversion H. reflexivity.
  - destruct (Fs.get root cur) as [[d | es]|]; try discriminate H.
    apply IH. exact H.
Qed.

Lemma resolve_inv (root : node) (cwd : list str) (p : str) c x :
  Fs.resolve root cwd p = inr (c, x) ->
  p <> [] /\ Fs.walk root (Fs.start cwd p) (Fs.split_sep p) = inr c
  /\ Fs.get root c = Some x /\ c = abspath_parts cwd p.
Proof.
  unfold Fs.resolve. destruct p as [|a p]; [discriminate|].
  destruct (Fs.walk root (Fs.start cwd (a :: p)) (Fs.split_sep (a :: p)))
    as [e | c0] eqn:W; [discriminate|].
  destruct (Fs.get root c0) as [x0|] eqn:G; [|discriminate].
  intros H. inversion H; subst c0 x0.
  split_and; [discriminate | reflexivity | exact G |].
  apply walk_lexical in W. exact W.
Qed.

Lemma resolve_intro (root : node) (cwd : list str) (p : str) c x :
  p <> [] -> Fs.walk root (Fs.start cwd p) (Fs.split_sep p) = inr c ->
  Fs.get root c = Some x -> Fs.resolve root cwd p = inr (c, x).
Proof.
  intros Hp W G. unfold Fs.resolve. destruct p; [contradiction|].
  rewrite W, G. reflexivity.
Qed.


Lemma stat_of_resolve (root : node) (cwd : list str) (p : str) c x :
  Fs.resolve root cwd p = inr (c, x) -> Fs.stat root cwd p = Some x.
Proof. intros H. unfold Fs.stat. rewrite H. reflexivity. Qed.

(** An absolute path resolves the same from every working directory. *)
Lemma resolve_absolute (root : node) (c1 c2 : list str) (p : str) :
  startswith OsPath.sep p = true -> Fs.resolve root c1 p = Fs.resolve root c2 p.
Proof. intros H. unfold Fs.resolve, Fs.start. rewrite H. reflexivity. Qed.


(** *** Trees that keep their directories *)

Lemma walk_mono (root root' : node) (comps : list str) :
  dirs_kept root root' ->
  forall cur c, Fs.walk root cur comps = inr c -> Fs.walk root' cur comps = inr c.
Proof.
  intros Hk. induction comps as [|x comps IH]; intros cur c H;
    cbn [Fs.walk] in *; [exact H|].
  destruct (Fs.get root cur) as [[d | es]|] eqn:G; try discriminate H.
  destruct (Hk cur es G) as [es' G']. rewrite G'. apply IH. exact H.
Qed.

Lemma lookup_set_entry_other (n m : str) (x : node) (es : entries_t) :
  n <> m -> Fs.lookup m (Fs.set_entry n x es) = Fs.lookup m es.
Proof.
  intros Hne. induction es as [|[k y] es IH]; cbn [Fs.set_entry Fs.lookup].
  - apply str_eqb_false in Hne. rewrite Hne. reflexivity.
  - destruct (str_eqb k n) eqn:E; cbn [Fs.lookup].
    + apply str_eqb_true in E. subst k. apply str_eqb_false in Hne.
      rewrite Hne. reflexivity.
    + destruct (str_eqb k m); [reflexivity | exact IH].
Qed.

Lemma get_dir_head (es e2 : entries_t) (m : str) (r : list str) :
  Fs.get (Dir es) (m :: r) = Some (Dir e2) ->
  exists sub, Fs.lookup m es = Some (Dir sub).
Proof.
  cbn [Fs.get]. destruct (Fs.lookup m es) as [[d | sub]|]; try discriminate.
  - destruct r; discriminate.
  - intros _. exists sub. reflexivity.
Qed.

(** Rewriting the entries of a directory keeps the directories of the
    tree when it keeps the sub-directories among the entries. *)
Lemma dirs_kept_update (f : entries_t -> entries_t) (d : list str) :
  forall root root',
    Fs.update_dir root d f = Some root' ->
    (forall es m sub, Fs.get root d = Some (Dir es) ->
                      Fs.lookup m es = Some (Dir sub) ->
                      Fs.lookup m (f es) = Some (Dir sub)) ->
    dirs_kept root root'.
Proof.
  induction d as [|c d IH]; intros root root' Hu Hf q e2 G;
    destruct root as [data | es]; cbn [Fs.update_dir] in Hu; try discriminate.
  - inversion Hu; subst root'. destruct q as [|m r].
    + eexists. reflexivity.
    + destruct (get_dir_head _ _ _ G) as [sub Hl].
      exists e2. cbn [Fs.get] in *. rewrite Hl in G.
      rewrite (Hf es m sub eq_refl Hl). exact G.
  - destruct (Fs.lookup c es) as [sub|] eqn:El; [|discriminate].
    destruct (Fs.update_dir sub d f) as [sub'|] eqn:Eu; [|discriminate].
    inversion Hu; subst root'. destruct q as [|m r].
    + eexists. reflexivity.
    + cbn [Fs.get] in *. destruct (str_eqb c m) eqn:Ecm.
      * apply str_eqb_true in Ecm. subst m. rewrite El in G.
        rewrite lookup_set_entry.
        apply (IH sub sub' Eu) with (q := r) (es := e2); [|exact G].
        intros es0 m sub0 Hg Hl. apply (Hf es0 m sub0); [|exact Hl].
        cbn [Fs.get]. rewrite El. exact Hg.
      * apply str_eqb_false in Ecm.
        rewrite (lookup_set_entry_other _ _ Ecm). exists e2. exact G.
Qed.

(** Storing a node under a name that is no directory keeps the
    directories. *)
Lemma dirs_kept_store (d : list str) (n : str) (x : node) (root root' : node) :
  Fs.update_dir root d (Fs.set_entry n x) = Some root' ->
  (forall sub, Fs.get root (d ++ [n]) <> Some (Dir sub)) ->
  dirs_kept root root'.
Proof.
  intros Hu Hn. apply (dirs_kept_update _ _ _ Hu).
  intros es m sub Hg Hl.
  destruct (str_eqb n m) eqn:E.
  - exfalso. apply str_eqb_true in E. subst m. apply (Hn sub).
    rewrite get_app, Hg. cbn [Fs.get]. rewrite Hl. reflexivity.
  - apply str_eqb_false in E. rewrite (lookup_set_entry_other _ _ E).
    exact Hl.
Qed.

(** *** Trailing slashes *)


Lemma strip_split (cs : list str) :
  exists k, cs = Fs.strip_trailing_empty cs ++ repeat [] k.
Proof.
  induction cs as [|c cs [k IH]]; [exists 0; reflexivity|].
  cbn [Fs.strip_trailing_empty].
  destruct (Fs.strip_trailing_empty cs) as [|r0 rest] eqn:E.
  - cbn [app] in IH. destruct (str_eqb c []) eqn:Ec.
    + apply str_eqb_true in Ec. subst c. exists (S k). rewrite IH at 1.
      reflexivity.
    + exists k. rewrite IH at 1. reflexivity.
  - exists k. rewrite IH at 1. reflexivity.
Qed.

Lemma strip_id (cs : list str) :
  last cs [] <> [] -> Fs.strip_trailing_empty cs = cs.
Proof.
  induction cs as [|c cs IH]; intros H; [reflexivity|].
  cbn [Fs.strip_trailing_empty]. destruct cs as [|c' cs'].
  - cbn [Fs.strip_trailing_empty]. cbn [last] in H.
    destruct (str_eqb c []) eqn:Ec; [|reflexivity].
    apply str_eqb_true in Ec. contradiction.
  - rewrite IH by exact H. reflexivity.
Qed.

Lemma split_sep_last (p : str) :
  p <> [] -> endswith OsPath.sep p = false -> last (Fs.split_sep p) [] <> [].
Proof.
  induction p as [|c s IH]; intros Hp He; [contradiction|].
  destruct s as [|c' s'].
  - cbn [Fs.split_sep]. destruct (ascii_eqb c "/"%char) eqn:Ec.
    + exfalso. apply ascii_eqb_true in Ec. subst c. discriminate He.
    + cbn. discriminate.
  - assert (Hs : c' :: s' <> []) by discriminate.
    change (c :: c' :: s') with ([c] ++ (c' :: s')) in He.
    rewrite endswith_sep_app in He by exact Hs.
    specialize (IH Hs He).
    pose proof (split_sep_nonempty (c' :: s')) as Hn.
    remember (c' :: s') as s0 eqn:Es0. clear Es0. cbn [Fs.split_sep].
    destruct (Fs.split_sep s0) as [|h t]; [contradiction|].
    destruct (ascii_eqb c "/"%char).
    + exact IH.
    + destruct t as [|h' t']; [cbn; discriminate | exact IH].
Qed.

Lemma walk_empties (root : node) (c : list str) (es : entries_t) (k : nat) :
  Fs.get root c = Some (Dir es) -> Fs.walk root c (repeat [] k) = inr c.
Proof.
  intros G. induction k as [|k IH]; [reflexivity|].
  cbn [repeat Fs.walk]. rewrite G, push_comp_empty. exact IH.
Qed.

Lemma walk_strip (root : node) (cur : list str) (cs : list str) c :
  Fs.walk root cur (Fs.strip_trailing_empty cs) = inr c ->
  (exists es, Fs.get root c = Some (Dir es))
  \/ Fs.strip_trailing_empty cs = cs ->
  Fs.walk root cur cs = inr c.
Proof.
  intros W [[es G] | E].
  - destruct (strip_split cs) as [k Ek]. rewrite Ek, walk_app, W.
    apply (walk_empties _ _ k G).
  - rewrite <- E. exact W.
Qed.

(** *** Created entries *)

Lemma resolve_parent_inv (root : node) (cwd : list str) (p : str) d n :
  Fs.resolve_parent root cwd p = inr (d, n) ->
  let comps := Fs.strip_trailing_empty (Fs.split_sep p) in
  p <> [] /\ Fs.walk root (Fs.start cwd p) (removelast comps) = inr d
  /\ (exists es, Fs.get root d = Some (Dir es)) /\ n = last comps [].
Proof.
  unfold Fs.resolve_parent. destruct p as [|a p]; [discriminate|]. cbv zeta.
  destruct (Fs.walk root _ _) as [e | d0] eqn:W; [discriminate|].
  destruct (Fs.get root d0) as [[data | es]|] eqn:G; try discriminate.
  intros H. inversion H; subst d0 n.
  split_and; [discriminate | reflexivity | exists es; exact G | reflexivity].
Qed.

Lemma resolve_parent_comps (root : node) (cwd : list str) (p : str) d n :
  Fs.resolve_parent root cwd p = inr (d, n) -> Fs.valid_name n = true ->
  Fs.strip_trailing_empty (Fs.split_sep p)
  = removelast (Fs.strip_trailing_empty (Fs.split_sep p)) ++ [n].
Proof.
  intros H Hv. apply resolve_parent_inv in H. cbv zeta in H.
  destruct H as [_ [_ [_ En]]].
  destruct (Fs.strip_trailing_empty (Fs.split_sep p)) as [|c cs] eqn:E.
  - cbn in En. subst n. discriminate Hv.
  - rewrite En. apply app_removelast_last. discriminate.
Qed.


(** Once the entry is there, in a tree that has kept its directories, the
    path resolves to it. *)
Lemma resolve_after_create (root root' : node) (cwd : list str) (p : str)
      d n x :
  Fs.resolve_parent root cwd p = inr (d, n) -> Fs.valid_name n = true ->
  dirs_kept root root' ->
  Fs.get root' (d ++ [n]) = Some x ->
  (exists es, x = Dir es) \/ endswith OsPath.sep p = false ->
  Fs.resolve root' cwd p = inr (d ++ [n], x).
Proof.
  intros H Hv Hk G Hx. pose proof (resolve_parent_comps _ _ _ H Hv) as Ec.
  apply resolve_parent_inv in H. cbv zeta in H.
  destruct H as [Hp [W [[es Gd] _]]].
  destruct (@valid_name_facts n Hv) as [_ [_ Hpush]].
  apply resolve_intro; [exact Hp | | exact G].
  apply walk_strip.
  - rewrite Ec, walk_app, (@walk_mono root root' _ Hk _ _ W). cbn [Fs.walk].
    destruct (Hk d es Gd) as [es' Gd']. rewrite Gd', Hpush. reflexivity.
  - destruct Hx as [[es' Ex] | He].
    + left. exists es'. rewrite G, Ex. reflexivity.
    + right. apply strip_id. apply split_sep_last; assumption.
Qed.

(** *** Entries of a directory that resolves *)


(** A path below a directory resolves only when the directory does. *)
Lemma resolve_join_dir (root : node) (cwd : list str) (dir n : str) c x :
  dir <> [] -> Fs.valid_name n = true ->
  Fs.resolve root cwd (OsPath.join dir n) = inr (c, x) ->
  exists d es, Fs.resolve root cwd (OsPath.join dir []) = inr (d, Dir es)
               /\ c = d ++ [n].
Proof.
  intros Hd Hv H. apply resolve_inv in H as [_ [W [G _]]].
  destruct (@valid_name_facts n Hv) as [Hne [Hns Hpush]].
  assert (Hsf : startswith OsPath.sep n = false)
    by (apply valid_no_leading_sep; exact Hv).
  unfold OsPath.join in *. rewrite Hsf in W.
  change (startswith OsPath.sep []) with false. cbv iota.
  destruct dir as [|c0 dir0]; [contradiction|].
  set (dir := c0 :: dir0) in *. cbn [orb] in *.
  destruct (endswith OsPath.sep dir) eqn:He.
  - rewrite app_nil_r. apply endswith_sep_true in He as [r Er].
    unfold Fs.start in W. rewrite (@startswith_sep_app dir n Hd) in W.
    rewrite Er in W at 2. rewrite <- app_assoc in W. cbn [app] in W.
    rewrite split_sep_app, walk_app, (@split_sep_plain n Hns) in W.
    destruct (Fs.walk root (if startswith OsPath.sep dir then [] else cwd)
                      (Fs.split_sep r)) as [e | d0] eqn:W0; [discriminate|].
    cbn [Fs.walk] in W.
    destruct (Fs.get root d0) as [[data | es0]|] eqn:G0; try discriminate.
    rewrite Hpush in W. inversion W; subst c.
    exists d0, es0. split; [|reflexivity].
    apply resolve_intro; [exact Hd | | exact G0].
    unfold Fs.start. rewrite Er at 2. rewrite split_sep_app, walk_app, W0.
    cbn [Fs.split_sep Fs.walk]. rewrite G0, push_comp_empty. reflexivity.
  - unfold Fs.start in W.
    rewrite (@startswith_sep_app dir (OsPath.sep ++ n) Hd) in W.
    change (dir ++ OsPath.sep ++ n) with (dir ++ "/"%char :: n) in W.
    rewrite split_sep_app, walk_app, (@split_sep_plain n Hns) in W.
    destruct (Fs.walk root (if startswith OsPath.sep dir then [] else cwd)
                      (Fs.split_sep dir)) as [e | d0] eqn:W0; [discriminate|].
    cbn [Fs.walk] in W.
    destruct (Fs.get root d0) as [[data | es0]|] eqn:G0; try discriminate.
    rewrite Hpush in W. inversion W; subst c.
    exists d0, es0. split; [|reflexivity].
    apply resolve_intro.
    + intros E. apply app_eq_nil in E as [E _]. contradiction.
    + unfold Fs.start.
      rewrite (@startswith_sep_app dir (OsPath.sep ++ []) Hd).
      change (dir ++ OsPath.sep ++ []) with (dir ++ "/"%char :: []).
      rewrite split_sep_app, walk_app, W0.
      cbn [Fs.split_sep Fs.walk]. rewrite G0, push_comp_empty. reflexivity.
    + exact G0.
Qed.

(** Nothing is made on the way to a directory that is there. *)
Lemma walk_create_existing (root : node) (comps : list str) :
  forall cur c x,
    Fs.walk root cur comps = inr c -> Fs.get root c = Some x ->
    Fs.walk_create root cur comps = inr (root, c).
Proof.
  induction comps as [|k comps IH]; intros cur c x W G;
    cbn [Fs.walk Fs.walk_create] in *.
  - inversion W. reflexivity.
  - destruct (Fs.get root cur) as [[data | es]|]; try discriminate W.
    assert (Hn : exists y, Fs.get root (Fs.push_comp cur k) = Some y).
    { destruct comps as [|k' comps'].
      - cbn [Fs.walk] in W. inversion W; subst c. exists x. exact G.
      - cbn [Fs.walk] in W.
        destruct (Fs.get root (Fs.push_comp cur k)) as [y|]; [|discriminate W].
        exists y. reflexivity. }
    destruct Hn as [y Hy]. rewrite Hy. apply (IH _ _ x W G).
Qed.

(** After the removal of what a path resolves to, the path names
    nothing. *)
Lemma stat_fs_without (root : node) (cwd : list str) (p : str) c :
  abspath_parts cwd p = c -> c <> [] ->
  Fs.stat (fs_without c root) cwd p = None.
Proof.
  intros Ec Hc. unfold Fs.stat.
  destruct (Fs.resolve (fs_without c root) cwd p) as [e | [c' x']] eqn:E;
    [reflexivity|].
  apply resolve_inv in E as [_ [_ [G Ec']]]. rewrite Ec', Ec in G.
  rewrite (fs_without_get root Hc) in G. discriminate G.
Qed.

End Resolution.

(** ** The scratch directory *)




(** The removal of the scratch directory: one fallible call. *)
Lemma cleanup_run d w :
  Tempfile.cleanup d w =
  let w1 := set_ticks (S (ticks w)) w in
  match faults w (ticks w) with
  | Some e => (Raise e, w1, [EvCleanup d])
  | None =>
      match Fs.resolve (fs w) (cwd w) d with
      | inr (c, Dir _) =>
          (Ok tt, set_fs (fs_without c (fs w)) w1, [EvCleanup d])
      | inr (_, File _) => (Raise (os_error Fs.ENOTDIR d), w1, [EvCleanup d])
      | inl Fs.ENOENT => (Ok tt, w1, [EvCleanup d])
      | inl e => (Raise (os_error e d), w1, [EvCleanup d])
      end
  end.
Proof.
  unfold Tempfile.cleanup, bind, emit, tick, get_world, modify, raise, ret.
  cbv zeta. destruct (faults w (ticks w)); [reflexivity|].
  cbn [fs cwd set_ticks].
  destruct (Fs.resolve (fs w) (cwd w) d) as [[| | |] | [c [data | es]]];
    reflexivity.
Qed.


(** The [with] block: the directory is made, the body runs, and the
    removal runs however the body ended; an exception of the removal
    replaces the outcome of the body. *)
Lemma with_TemporaryDirectory_run {A} (body : str -> M A) w :
  Tempfile.with_TemporaryDirectory body w =
  match Tempfile.mkdtemp w with
  | (Raise e, w1, t1) => (Raise e, w1, t1)
  | (Ok d, w1, t1) =>
      match body d w1 with
      | (r, w2, t2) =>
          match Tempfile.cleanup d w2 with
          | (Ok _, w3, t3) => (r, w3, t1 ++ t2 ++ t3)
          | (Raise e, w3, t3) => (Raise e, w3, t1 ++ t2 ++ t3)
          end
      end
  end.
Proof.
  unfold Tempfile.with_TemporaryDirectory, bind at 1.
  destruct (Tempfile.mkdtemp w) as [[[d | e] w1] t1]; [|reflexivity].
  unfold try_finally.
  destruct (body d w1) as [[r w2] t2].
  destruct (Tempfile.cleanup d w2) as [[[u | e] w3] t3]; reflexivity.
Qed.




Example scratch_directory_gone_after_upload :
  let out := SamplesPipeline.run Samples.fresh in
  result_of out = Ok 3%Z /\
  fs (world_of out) = fs Samples.fresh /\
  In (EvMkdtemp (of_string "/tmp/tmpabcdefgh")) (events_of out) /\
  In (EvCleanup (of_string "/tmp/tmpabcdefgh")) (events_of out).
Proof.
  cbv zeta. split_and;
    [ vm_compute; reflexivity | vm_compute; reflexivity
    | eval_events; cbn [In]; repeat (first [left; reflexivity | right])
    | eval_events; cbn [In]; repeat (first [left; reflexivity | right]) ].
Qed.

Example scratch_directory_gone_after_failure :
  let out := SamplesPipeline.run SamplesPipeline.clash_world in
  result_of out = Ok (-1)%Z /\
  fs (world_of out) = fs SamplesPipeline.clash_world /\
  blob_names CONTAINER_NAME (world_of out)
    = [of_string "real-colon-dataset/001/sub/b.jpg";
       of_string "real-colon-dataset/info.csv";
       of_string "real-colon-dataset/001/a.jpg"].
Proof. cbv zeta. split_and; vm_compute; reflexivity. Qed.

(** ** The extractor *)

Lemma os_remove_run p w :
  os_remove p w =
  let w1 := set_ticks (S (ticks w)) w in
  match faults w (ticks w) with
  | Some e => (Raise e, w1, [EvRemove p])
  | None =>
      match Fs.resolve (fs w) (cwd w) p with
      | inr (c, File _) =>
          (Ok tt, set_fs (fs_without c (fs w)) w1, [EvRemove p])
      | inr (_, Dir _) => (Raise (os_error Fs.EISDIR p), w1, [EvRemove p])
      | inl e => (Raise (os_error e p), w1, [EvRemove p])
      end
  end.
Proof.
  unfold os_remove, bind, emit, tick, get_world, modify, raise.
  cbv zeta. destruct (faults w (ticks w)); [reflexivity|].
  cbn [fs cwd set_ticks].
  destruct (Fs.resolve (fs w) (cwd w) p) as [e | [c [d | es]]];
    reflexivity.
Qed.

Lemma tarfile_open_run p w :
  p <> [] ->
  Tarfile.open p w =
  let w1 := set_ticks (S (ticks w)) w in
  match faults w (ticks w) with
  | Some e => (Raise e, w1, [EvTarOpen p])
  | None =>
      match Fs.resolve (fs w) (cwd w) p with
      | inr (_, File data) =>
          match untar w data with
          | Some members => (Ok members, w1, [EvTarOpen p])
          | None => (Raise (exn_of "ReadError"
                              (of_string "file could not be opened successfully")),
                     w1, [EvTarOpen p])
          end
      | inr (_, Dir _) => (Raise (os_error Fs.EISDIR p), w1, [EvTarOpen p])
      | inl e => (Raise (os_error e p), w1, [EvTarOpen p])
      end
  end.
Proof.
  intros Hp. destruct p as [|a p]; [contradiction|].
  unfold Tarfile.open, bind, emit, tick, get_world, ret, raise.
  cbv zeta. destruct (faults w (ticks w)); [reflexivity|].
  cbn [fs cwd untar set_ticks].
  destruct (Fs.resolve (fs w) (cwd w) (a :: p)) as [e | [c [d | es]]];
    try reflexivity.
  destruct (untar w d); reflexivity.
Qed.

(** Opening an archive is one event, however it ends. *)
Lemma tarfile_open_events p w :
  p <> [] -> events_of (Tarfile.open p w) = [EvTarOpen p].
Proof.
  intros Hp. rewrite (tarfile_open_run w Hp). cbv zeta.
  destruct (faults w (ticks w)); [reflexivity|].
  destruct (Fs.resolve (fs w) (cwd w) p) as [e | [c [d | es]]];
    try reflexivity.
  destruct (untar w d); reflexivity.
Qed.

Lemma tarfile_extractall_run p members dir w :
  Tarfile.extractall p members dir w =
  let w1 := set_ticks (S (ticks w)) w in
  match faults w (ticks w) with
  | Some e => (Raise e, w1, [EvExtractAll p dir])
  | None =>
      match Fs.walk_create (fs w) (Fs.start (cwd w) dir) (Fs.split_sep dir) with
      | inr (root, c) =>
          match Fs.update_dir root c members with
          | Some t => (Ok tt, set_fs t w1, [EvExtractAll p dir])
          | None => (Raise (os_error Fs.ENOTDIR dir), w1, [EvExtractAll p dir])
          end
      | inl e => (Raise (os_error e dir), w1, [EvExtractAll p dir])
      end
  end.
Proof.
  unfold Tarfile.extractall, bind, emit, tick, get_world, modify, raise.
  cbv zeta. destruct (faults w (ticks w)); [reflexivity|].
  cbn [fs cwd set_ticks].
  destruct (Fs.walk_create (fs w) (Fs.start (cwd w) dir) (Fs.split_sep dir))
    as [e | [root c]]; [reflexivity|].
  destruct (Fs.update_dir root c members); reflexivity.
Qed.

Lemma os_path_exists_run p w :
  os_path_exists p w =
  (Ok (match Fs.stat (fs w) (cwd w) p with
       | Some _ => true
       | None => false
       end), w, []).
Proof. reflexivity. Qed.

Lemma endswith_nonempty (suf s : str) :
  suf <> [] -> endswith suf s = true -> s <> [].
Proof.
  intros Hs H E. subst s. unfold endswith in H. cbn [rev] in H.
  destruct (rev suf) eqn:Er; [|discriminate H].
  apply Hs. rewrite <- (rev_involutive suf), Er. reflexivity.
Qed.

Lemma join_nonempty (a b : str) : b <> [] -> OsPath.join a b <> [].
Proof.
  intros Hb. unfold OsPath.join.
  destruct (startswith OsPath.sep b); [exact Hb|].
  destruct (_ || _); intros E; apply app_eq_nil in E as [_ E];
    [contradiction|]. discriminate E.
Qed.

(** [extract_file] on a path that ends in [.tar.gz]: one test of the
    directory it computes decides between the deletion alone and the
    extraction followed by the deletion. *)
Lemma extract_file_run (file_path download_dir : str) (w : World) :
  endswith tar_gz file_path = true ->
  let archive := OsPath.join download_dir file_path in
  let folder := extracted_folder_path download_dir file_path in
  archive <> [] /\
  extract_file (file_path, download_dir) w =
  match Fs.stat (fs w) (cwd w) folder with
  | Some _ =>
      match os_remove archive w with
      | (r, w2, t2) => (r, w2, EvPrint (PrintDeleting file_path) :: t2)
      end
  | None =>
      match bind (Tarfile.open archive)
                 (fun tar_ref =>
                    Tarfile.extractall archive tar_ref download_dir) w with
      | (Ok _, w1, t1) =>
          match os_remove archive w1 with
          | (r, w2, t2) =>
              (r, w2, EvPrint (PrintExtracting file_path) :: t1
                        ++ EvPrint (PrintDeleting file_path) :: t2)
          end
      | (Raise e, w1, t1) =>
          (Raise e, w1, EvPrint (PrintExtracting file_path) :: t1)
      end
  end.
Proof.
  intros Hend archive folder.
  assert (Ha : archive <> []).
  { apply join_nonempty. eapply endswith_nonempty; [|exact Hend]. discriminate. }
  split; [exact Ha|].
  unfold extract_file. unfold tar_gz in Hend. rewrite Hend.
  fold archive. unfold bind at 1. rewrite os_path_exists_run.
  change (OsPath.join download_dir
            (fst (OsPath.splitext (OsPath.basename
                                     (rstrip (of_string ".tar.gz") file_path)))))
    with folder.
  destruct (Fs.stat (fs w) (cwd w) folder) as [x|].
  - cbn [negb]. unfold bind, ret, print, emit.
    destruct (os_remove archive w) as [[r w2] t2]. reflexivity.
  - cbn [negb]. unfold bind at 1. unfold bind at 1.
    unfold print at 1, emit at 1.
    destruct (bind (Tarfile.open archive) _ w) as [[[u | e] w1] t1];
      [|reflexivity].
    unfold bind, print, emit.
    destruct (os_remove archive w1) as [[r w2] t2]. reflexivity.
Qed.

(** The archive is opened exactly when the directory computed does not
    exist. *)
Lemma extract_file_opens (file_path download_dir : str) (w : World) :
  endswith tar_gz file_path = true ->
  let archive := OsPath.join download_dir file_path in
  let folder := extracted_folder_path download_dir file_path in
  let out := extract_file (file_path, download_dir) w in
  (Fs.stat (fs w) (cwd w) folder <> None ->
   events_of out = [EvPrint (PrintDeleting file_path); EvRemove archive]) /\
  (Fs.stat (fs w) (cwd w) folder = None ->
   exists rest,
     events_of out = EvPrint (PrintExtracting file_path)
                       :: EvTarOpen archive :: rest).
Proof.
  intros Hend archive folder out.
  destruct (@extract_file_run file_path download_dir w Hend) as [Ha Hrun].
  fold archive folder in Ha, Hrun. fold out in Hrun. clearbody out.
  split.
  - intros Hex. destruct (Fs.stat (fs w) (cwd w) folder); [|contradiction].
    rewrite os_remove_run in Hrun. cbv zeta in Hrun. subst out.
    destruct (faults w (ticks w)); [reflexivity|].
    destruct (Fs.resolve (fs w) (cwd w) archive) as [e | [c [d | es]]];
      reflexivity.
  - intros Hno. rewrite Hno in Hrun. unfold bind at 1 in Hrun.
    pose proof (@tarfile_open_events archive w Ha) as Hev.
    destruct (Tarfile.open archive w) as [[[tar | e] w1] t1].
    + unfold events_of in Hev. cbn [snd] in Hev. subst t1.
      destruct (Tarfile.extractall archive tar download_dir w1)
        as [[[u | e] w2] t2].
      * destruct (os_remove archive w2) as [[r w3] t3]. subst out.
        eexists. reflexivity.
      * subst out. eexists. reflexivity.
    + unfold events_of in Hev. cbn [snd] in Hev. subst t1 out.
      eexists. reflexivity.
Qed.

(** C6.  For a path ending in [.tar.gz]: when the directory [extract_file]
    computes exists, the archive is not opened and nothing is extracted, the
    only change to the file system is that the archive is deleted; when it
    does not exist, the archive is opened, its whole content is extracted
    into the download directory, and then the archive is deleted. *)
Theorem extract_file_skips_or_extracts (file_path download_dir : str) (w : World) :
  endswith tar_gz file_path = true ->
  let archive := OsPath.join download_dir file_path in
  let folder := extracted_folder_path download_dir file_path in
  let out := extract_file (file_path, download_dir) w in
  (Fs.stat (fs w) (cwd w) folder <> None ->
   events_of out = [EvPrint (PrintDeleting file_path); EvRemove archive] /\
   forall c data,
     faults w (ticks w) = None ->
     Fs.resolve (fs w) (cwd w) archive = inr (c, File data) ->
     result_of out = Ok tt /\
     fs (world_of out) = fs_without c (fs w))
  /\
  (Fs.stat (fs w) (cwd w) folder = None ->
   (exists rest,
      events_of out = EvPrint (PrintExtracting file_path)
                        :: EvTarOpen archive :: rest) /\
   forall c data members d es fs1 c' data',
     faults w (ticks w) = None ->
     faults w (S (ticks w)) = None ->
     faults w (S (S (ticks w))) = None ->
     Fs.resolve (fs w) (cwd w) archive = inr (c, File data) ->
     untar w data = Some members ->
     extraction_target w download_dir = Some (d, es) ->
     Fs.update_dir (fs w) d members = Some fs1 ->
     Fs.resolve fs1 (cwd w) archive = inr (c', File data') ->
     result_of out = Ok tt /\
     events_of out =
       [EvPrint (PrintExtracting file_path); EvTarOpen archive;
        EvExtractAll archive download_dir;
        EvPrint (PrintDeleting file_path); EvRemove archive] /\
     Fs.get fs1 d = Some (Dir (members es)) /\
     fs (world_of out) = fs_without c' fs1).
Proof.
  intros Hend archive folder out.
  destruct (@extract_file_opens file_path download_dir w Hend) as [Hskip Hopen].
  destruct (@extract_file_run file_path download_dir w Hend) as [Ha Hrun].
  fold archive folder in Ha, Hrun, Hskip, Hopen.
  fold out in Hrun, Hskip, Hopen. clearbody out.
  split.
  - intros Hex. split; [apply Hskip; exact Hex|].
    intros c data Hf Hres.
    destruct (Fs.stat (fs w) (cwd w) folder); [|contradiction].
    rewrite os_remove_run in Hrun. cbv zeta in Hrun.
    rewrite Hf, Hres in Hrun. subst out. split; reflexivity.
  - intros Hno. split; [apply Hopen; exact Hno|].
    intros c data members d es fs1 c' data' F0 F1 F2 Hres Hu Ht Hx Hres'.
    rewrite Hno in Hrun. unfold bind at 1 in Hrun.
    rewrite (tarfile_open_run w Ha) in Hrun. cbv zeta in Hrun.
    rewrite F0, Hres, Hu in Hrun.
    rewrite tarfile_extractall_run in Hrun. cbv zeta in Hrun.
    cbn [faults ticks fs cwd set_ticks] in Hrun. rewrite F1 in Hrun.
    unfold extraction_target in Ht.
    destruct (Fs.walk (fs w) (Fs.start (cwd w) download_dir)
                      (Fs.split_sep download_dir)) as [e | d0] eqn:W;
      [discriminate Ht|].
    destruct (Fs.get (fs w) d0) as [[xd | es0]|] eqn:G; try discriminate Ht.
    inversion Ht; subst d0 es0.
    rewrite (@walk_create_existing (fs w) _ _ _ _ W G), Hx in Hrun.
    rewrite os_remove_run in Hrun. cbv zeta in Hrun.
    cbn [faults ticks fs cwd set_ticks set_fs] in Hrun.
    rewrite F2, Hres' in Hrun. subst out.
    split_and; try reflexivity.
    apply update_dir_get in Hx as [es1 [G1 G2]].
    rewrite G in G1. inversion G1; subst es1. exact G2.
Qed.

Lemma extract_file_skips_or_extracts_witness :
  endswith tar_gz SamplesExtract.file_path = true /\
  (let out := extract_file (SamplesExtract.file_path, SamplesExtract.download_dir)
                           SamplesExtract.again_world in
   events_of out = [EvPrint (PrintDeleting SamplesExtract.file_path);
                    EvRemove (of_string "dataset/001.tar.gz")] /\
   result_of out = Ok tt /\
   fs (world_of out)
     = fs_without [of_string "dataset"; of_string "001.tar.gz"]
                  (fs SamplesExtract.again_world)) /\
  (let out := extract_file (SamplesExtract.file_path, SamplesExtract.download_dir)
                           SamplesExtract.new_world in
   result_of out = Ok tt /\
   fs (world_of out)
     = fs_without [of_string "dataset"; of_string "001.tar.gz"]
                  SamplesExtract.extracted_fs).
Proof.
  assert (Hend : endswith tar_gz SamplesExtract.file_path = true)
    by reflexivity.
  split; [exact Hend | split].
  - destruct (@extract_file_skips_or_extracts
                SamplesExtract.file_path SamplesExtract.download_dir
                SamplesExtract.again_world Hend) as [H _].
    assert (Hex : Fs.stat (fs SamplesExtract.again_world)
                     (cwd SamplesExtract.again_world)
                     (extracted_folder_path SamplesExtract.download_dir
                                            SamplesExtract.file_path)
                  <> None) by (vm_compute; discriminate).
    destruct (H Hex) as [Hev Hrm].
    destruct (Hrm [of_string "dataset"; of_string "001.tar.gz"]
                  Samples.archive_bytes eq_refl eq_refl) as [Hr Hfs].
    cbv zeta. split_and; [exact Hev | exact Hr | exact Hfs].
  - destruct (@extract_file_skips_or_extracts
                SamplesExtract.file_path SamplesExtract.download_dir
                SamplesExtract.new_world Hend) as [_ H].
    destruct (H eq_refl) as [_ H2].
    destruct (H2 [of_string "dataset"; of_string "001.tar.gz"]
                 Samples.archive_bytes SamplesExtract.members
                 [of_string "dataset"]
                 [ (of_string "001.tar.gz", File Samples.archive_bytes) ]
                 SamplesExtract.extracted_fs
                 [of_string "dataset"; of_string "001.tar.gz"]
                 Samples.archive_bytes
                 eq_refl eq_refl eq_refl eq_refl eq_refl eq_refl eq_refl eq_refl)
      as [Hr [_ [_ Hfs]]].
    cbv zeta. split; [exact Hr | exact Hfs].
Defined.

(** ** The directory [extract_file] consults *)

Lemma endswith_app (suf s : str) : endswith suf (s ++ suf) = true.
Proof. unfold endswith. rewrite rev_app_distr. apply startswith_app. Qed.

Lemma basename_no_slash (s : str) : ~ In "/"%char (OsPath.basename s).
Proof.
  destruct (last_sep_split s) as [H | [a [b [E H]]]].
  - rewrite basename_no_sep by exact H. exact H.
  - rewrite E, basename_after_sep by exact H. exact H.
Qed.

Lemma splitext_root_prefix (p : str) :
  exists t, p = fst (OsPath.splitext p) ++ t.
Proof.
  unfold OsPath.splitext.
  destruct (_ <? _)%Z; [|exists []; cbn [fst]; rewrite app_nil_r; reflexivity].
  destruct (OsPath.has_non_dot _); cbn [fst];
    [|exists []; rewrite app_nil_r; reflexivity].
  unfold slice_to. eexists. symmetry. apply firstn_skipn.
Qed.

Lemma no_slash_no_leading_sep (s : str) :
  ~ In "/"%char s -> startswith OsPath.sep s = false.
Proof.
  destruct s as [|c s]; [reflexivity|]. intros H. simpl.
  destruct (ascii_eqb "/"%char c) eqn:E; [|reflexivity].
  exfalso. apply H. left. apply ascii_eqb_true in E. symmetry. exact E.
Qed.

(** Two names joined to the same directory give the same path only when
    they are the same name. *)
Lemma join_tail_inj (d a b : str) :
  startswith OsPath.sep a = false -> startswith OsPath.sep b = false ->
  OsPath.join d a = OsPath.join d b -> a = b.
Proof.
  intros Ha Hb. unfold OsPath.join. rewrite Ha, Hb.
  destruct (_ || _); intros E.
  - apply app_inv_head in E. exact E.
  - apply app_inv_head in E. apply app_inv_head in E. exact E.
Qed.

(** C10.  [extract_file] computes the directory it tests with
    [file_path.rstrip('.tar.gz')], which removes every trailing character
    of the set [{. t a r g z}]: what is removed from the archive name is a
    run of such characters, what is left does not end in one, and the
    suffix [.tar.gz] alone is not what is removed when the stem ends in a
    character of the set.  The directory whose existence decides whether
    [extract_file] opens the archive is the download directory joined with
    the name so computed: the archive is opened exactly when that directory
    does not exist, and is deleted unopened when it does.  For a stem that
    ends in a character of the set this name is strictly shorter than the
    stem, hence different from the stem and from its base name, and the
    directory consulted is not the directory of that base name in the
    download directory. *)
Theorem extract_file_rstrip_char_set
        (stem p : str) (c : ascii) (download_dir : str) (w : World) :
  stem = p ++ [c] -> In c tar_gz ->
  let file_path := stem ++ tar_gz in
  let archive := OsPath.join download_dir file_path in
  let folder_name := extracted_folder_name file_path in
  let out := extract_file (file_path, download_dir) w in
  (exists t, file_path = stripped_name file_path ++ t
             /\ Forall (fun x => In x tar_gz) t) /\
  (forall q x, stripped_name file_path = q ++ [x] -> ~ In x tar_gz) /\
  stripped_name file_path = rstrip tar_gz p /\
  stripped_name file_path <> stem /\
  (In (EvTarOpen archive) (events_of out)
   <-> Fs.stat (fs w) (cwd w) (OsPath.join download_dir folder_name) = None) /\
  (Fs.stat (fs w) (cwd w) (OsPath.join download_dir folder_name) <> None ->
   events_of out = [EvPrint (PrintDeleting file_path); EvRemove archive]) /\
  List.length folder_name < List.length stem /\
  folder_name <> stem /\
  folder_name <> OsPath.basename stem /\
  OsPath.join download_dir folder_name
    <> OsPath.join download_dir (OsPath.basename stem).
Proof.
  intros E Hc file_path archive folder_name out.
  destruct (@stripped_name_char_set stem p c E Hc)
    as [H1 [H2 [H3 [H4 [H5 [H6 H7]]]]]].
  fold file_path in H1, H2, H3, H4, H5, H6, H7.
  fold folder_name in H5, H6, H7.
  assert (Hend : endswith tar_gz file_path = true) by apply endswith_app.
  destruct (@extract_file_opens file_path download_dir w Hend) as [Hskip Hopen].
  change (extracted_folder_path download_dir file_path)
    with (OsPath.join download_dir folder_name) in Hskip, Hopen.
  change (OsPath.join download_dir file_path) with archive in Hskip, Hopen.
  change (extract_file (file_path, download_dir) w) with out in Hskip, Hopen.
  clearbody out.
  split_and; try assumption.
  - split.
    + intros Hin.
      destruct (Fs.stat (fs w) (cwd w) (OsPath.join download_dir folder_name))
        eqn:Hs; [|reflexivity].
      exfalso. rewrite Hskip in Hin by discriminate.
      destruct Hin as [Hin | [Hin | []]]; discriminate Hin.
    + intros Hno. destruct (Hopen Hno) as [rest Hev]. rewrite Hev.
      right. left. reflexivity.
  - intros Ej. apply H7. apply (@join_tail_inj download_dir _ _); [| |exact Ej].
    + apply no_slash_no_leading_sep.
      destruct (splitext_root_prefix
                  (OsPath.basename (stripped_name file_path))) as [t Et].
      intros Hin. apply (@basename_no_slash (stripped_name file_path)).
      rewrite Et. apply in_or_app. left. exact Hin.
    + apply no_slash_no_leading_sep. apply basename_no_slash.
Qed.

Lemma extract_file_rstrip_char_set_witness :
  let stem := of_string "data" in
  let w := SamplesData.data_world in
  let out := extract_file (SamplesData.file_path, SamplesExtract.download_dir) w in
  stripped_name (stem ++ tar_gz) = of_string "d" /\
  extracted_folder_name (stem ++ tar_gz) = of_string "d" /\
  extracted_folder_name (stem ++ tar_gz) <> stem /\
  Fs.stat (fs w) (cwd w) (of_string "dataset/data") <> None /\
  Fs.stat (fs w) (cwd w) (of_string "dataset/d") = None /\
  In (EvTarOpen (of_string "dataset/data.tar.gz")) (events_of out).
Proof.
  intros stem w out.
  assert (Hin : In "a"%char tar_gz) by (simpl; tauto).
  pose proof (@extract_file_rstrip_char_set
                stem (of_string "dat") "a"%char SamplesExtract.download_dir w
                eq_refl Hin) as H.
  cbv zeta in H.
  destruct H as [_ [_ [_ [_ [Hiff [_ [_ [Hne _]]]]]]]].
  assert (Hno : Fs.stat (fs w) (cwd w) (of_string "dataset/d") = None)
    by (vm_compute; reflexivity).
  split_and.
  - reflexivity.
  - reflexivity.
  - exact Hne.
  - vm_compute. discriminate.
  - exact Hno.
  - apply Hiff. exact Hno.
Defined.

(** ** The walk of a tree *)

Section WalkFacts.










End WalkFacts.

Section WalkUploads.

Variables (fsroot : node) (cwd : list str) (tmpdir base_blob_name : str).



End WalkUploads.

(** ** The upload phase *)

Lemma read_file_ok p w data w1 t1 :
  read_file p w = (Ok data, w1, t1) ->
  Fs.stat (fs w) (cwd w) p = Some (File data)
  /\ w1 = set_ticks (S (ticks w)) w /\ t1 = [EvOpenRead p].
Proof.
  unfold read_file, bind, emit, tick, get_world, ret, raise, Fs.stat.
  destruct (faults w (ticks w)); [discriminate|].
  cbn [fs cwd set_ticks].
  destruct (Fs.resolve (fs w) (cwd w) p) as [e | [c [d | es]]];
    intros H; inversion H; subst. split_and; reflexivity.
Qed.

Lemma blobs_of_set_blobs c b cs b0 :
  Azure.blobs_of c cs = Some b0 ->
  Azure.blobs_of c (Azure.set_blobs c b cs) = Some b.
Proof.
  induction cs as [|[n x] cs IH]; simpl; [discriminate|].
  destruct (str_eqb n c) eqn:E; simpl; rewrite E; [reflexivity | exact IH].
Qed.

Lemma upload_blob_ok c b data w w1 t1 :
  Azure.upload_blob c b data w = (Ok tt, w1, t1) ->
  fs w1 = fs w /\ cwd w1 = cwd w
  /\ blobs_in c w1 = blobs_in c w ++ [(b, data)]
  /\ t1 = [EvUploadBlob c b data].
Proof.
  unfold Azure.upload_blob, bind, emit, tick, get_world, modify, raise.
  destruct (faults w (ticks w)); [discriminate|].
  cbn [containers set_ticks]. unfold blobs_in.
  destruct (Azure.blobs_of c (containers w)) as [blobs|] eqn:Hb;
    [|discriminate].
  destruct (existsb (str_eqb b) (map fst blobs)); [discriminate|].
  intros H. inversion H; subst. cbn [fs cwd containers set_containers set_ticks].
  rewrite (blobs_of_set_blobs _ _ _ Hb). split_and; reflexivity.
Qed.

Lemma upload_files_ok root tmpdir base cc :
  forall files n w m w' t,
    upload_files root tmpdir base cc files n w = (Ok m, w', t) ->
    let new := map (upload_of (fs w) (cwd w) tmpdir base root) files in
    m = (n + Z.of_nat (List.length files))%Z
    /\ fs w' = fs w /\ cwd w' = cwd w
    /\ blobs_in cc w' = blobs_in cc w ++ new
    /\ filter is_upload t = map (fun b => EvUploadBlob cc (fst b) (snd b)) new.
Proof.
  induction files as [|f files IH]; intros n w m w' t H new.
  - inversion H; subst. subst new. simpl. rewrite app_nil_r.
    split_and; try reflexivity. lia.
  - cbn [upload_files] in H. unfold bind at 1, get_world at 1 in H.
    destruct (bind (read_file (OsPath.join root f)) _ w)
      as [[r0 w0] t0] eqn:Hb.
    cbn [app] in H. inversion H; subst r0 w0 t0; clear H.
    apply bind_inv_ok in Hb as [data [w1 [t1 [t2 [Hr [Hb Et]]]]]].
    apply read_file_ok in Hr as [Hg [Ew1 Et1]].
    apply bind_inv_ok in Hb as [u [w2 [t3 [t4 [Hu [Hrest Et2]]]]]].
    destruct u. apply upload_blob_ok in Hu as [Hfs [Hcwd [Hblobs Et3]]].
    apply IH in Hrest. cbv zeta in Hrest.
    destruct Hrest as [Em [Hfs' [Hcwd' [Hblobs' Hev]]]].
    assert (Hfs2 : fs w2 = fs w) by (rewrite Hfs, Ew1; reflexivity).
    assert (Hcwd2 : cwd w2 = cwd w) by (rewrite Hcwd, Ew1; reflexivity).
    assert (Hb1 : blobs_in cc w1 = blobs_in cc w) by (rewrite Ew1; reflexivity).
    rewrite Hfs2, Hcwd2 in Hblobs', Hev.
    subst new. cbn [map List.length].
    assert (Hup : upload_of (fs w) (cwd w) tmpdir base root f
                  = (OsPath.join base
                       (relpath (cwd w) (OsPath.join root f) tmpdir), data)).
    { unfold upload_of, read_data. rewrite Hg. reflexivity. }
    split_and.
    + lia.
    + congruence.
    + congruence.
    + rewrite Hblobs', Hblobs, Hb1, Hup, <- app_assoc. reflexivity.
    + subst t t1 t2 t3. cbn [app filter is_upload map fst snd].
      rewrite Hev, Hup. reflexivity.
Qed.

Lemma upload_walk_ok tmpdir base cc :
  forall triples n w m w' t,
    upload_walk tmpdir base cc triples n w = (Ok m, w', t) ->
    let new := planned_uploads (fs w) (cwd w) tmpdir base triples in
    m = (n + Z.of_nat (List.length new))%Z
    /\ fs w' = fs w /\ cwd w' = cwd w
    /\ blobs_in cc w' = blobs_in cc w ++ new
    /\ filter is_upload t = map (fun b => EvUploadBlob cc (fst b) (snd b)) new.
Proof.
  induction triples as [|[[root dirs] files] triples IH];
    intros n w m w' t H new.
  - inversion H; subst. subst new. simpl. rewrite app_nil_r.
    split_and; try reflexivity. lia.
  - cbn [upload_walk] in H.
    apply bind_inv_ok in H as [k [w1 [t1 [t2 [Hf [Hrest Et]]]]]].
    apply upload_files_ok in Hf. cbv zeta in Hf.
    destruct Hf as [Ek [Hfs [Hcwd [Hblobs Hev]]]].
    apply IH in Hrest. cbv zeta in Hrest.
    destruct Hrest as [Em [Hfs' [Hcwd' [Hblobs' Hev']]]].
    rewrite Hfs, Hcwd in Hblobs', Hev', Em.
    subst new. unfold planned_uploads at 1 2 3. cbn [flat_map fst snd].
    fold (planned_uploads (fs w) (cwd w) tmpdir base triples).
    split_and.
    + rewrite length_app, length_map, Nat2Z.inj_add. rewrite Em, Ek. lia.
    + congruence.
    + congruence.
    + rewrite Hblobs', Hblobs, <- app_assoc. reflexivity.
    + subst t. rewrite filter_app, Hev, Hev', map_app. reflexivity.
Qed.




(** The body of the [with] block is the fetch of the archive followed by
    the upload phase. *)
Lemma pipeline_body_split
      (file_url file_name base_blob_name container_client : str)
      (n : Z) (tmpdir : str) (w : World) :
  pipeline_body file_url file_name base_blob_name container_client n tmpdir w
  = match fetch_phase file_url file_name tmpdir w with
    | (Ok _, w1, t1) =>
        match upload_phase tmpdir base_blob_name container_client file_name
                           n w1 with
        | (r, w2, t2) => (r, w2, t1 ++ t2)
        end
    | (Raise e, w1, t1) => (Raise e, w1, t1)
    end.
Proof.
  unfold pipeline_body, fetch_phase. cbv zeta.
  unfold bind, logger_info, emit.
  destruct (download_file _ w) as [[[o | e] w1] t1]; [|reflexivity].
  destruct (Tarfile.open _ w1) as [[[tar | e] w2] t2]; [|reflexivity].
  destruct (Tarfile.extractall _ tar tmpdir w2) as [[[u | e] w3] t3];
    [|reflexivity].
  destruct (os_remove _ w3) as [[[u' | e] w4] t4]; [|reflexivity].
  destruct (upload_phase _ _ _ _ _ w4) as [[r w5] t5].
  rewrite <- !app_assoc. reflexivity.
Qed.

Lemma cleanup_containers d w r w' t :
  Tempfile.cleanup d w = (r, w', t) -> containers w' = containers w.
Proof.
  rewrite cleanup_run. cbv zeta. intros H.
  destruct (faults w (ticks w)); [inversion H; reflexivity|].
  destruct (Fs.resolve (fs w) (cwd w) d) as [[| | |] | [c [data | es]]];
    inversion H; reflexivity.
Qed.

Example pipeline_returns_file_count :
  let out := SamplesPipeline.run Samples.fresh in
  result_of out = Ok (Z.of_nat (count_files (Dir Samples.sample_tree))) /\
  blob_names CONTAINER_NAME (world_of out)
    = [of_string "real-colon-dataset/info.csv";
       of_string "real-colon-dataset/001/a.jpg";
       of_string "real-colon-dataset/001/sub/b.jpg"].
Proof. cbv zeta. split; vm_compute; reflexivity. Qed.

(** * Further properties of the program *)

(** ** [blob_exists] for a name with an extension *)

(** X2.  For a file name with a dot, [blob_exists] makes one listing call
    for the base joined with what precedes the first dot, changes neither
    the file system nor the containers, and answers whether a listed blob
    starts with that prefix; a failure of the call, or a missing container,
    reaches the caller as an exception. *)
Theorem blob_exists_checks_first_dot_stem
        (a b container_client base_blob_name : str) (w : World) :
  ~ In "."%char a ->
  let out := blob_exists (a ++ "."%char :: b) container_client base_blob_name w in
  let prefix := OsPath.join base_blob_name a in
  events_of out = [EvListBlobNames container_client prefix] /\
  fs (world_of out) = fs w /\ containers (world_of out) = containers w /\
  match faults w (ticks w) with
  | Some e => result_of out = Raise e
  | None =>
      match Azure.blobs_of container_client (containers w) with
      | Some _ => result_of out = Ok (listed_under prefix container_client w)
      | None => exists e, result_of out = Raise e
                          /\ exn_class e = "ResourceNotFoundError"%string
      end
  end.
Proof.
  intros H out prefix. subst out prefix. rewrite blob_exists_run.
  unfold blob_prefix. rewrite name_wo_ext_dot by exact H.
  rewrite file_stem_dot by exact H. cbv zeta.
  destruct (faults w (ticks w)) as [e|].
  - split_and; reflexivity.
  - destruct (Azure.blobs_of container_client (containers w)).
    + split_and; reflexivity.
    + split_and; try reflexivity. eexists. split; reflexivity.
Qed.

Lemma blob_exists_checks_first_dot_stem_witness :
  ~ In "."%char (of_string "001-001_frames") /\
  (let out := blob_exists (of_string "001-001_frames.tar.gz") CONTAINER_NAME
                          BASE_BLOB_NAME SamplesExistence.all_uploaded_world in
   events_of out
     = [EvListBlobNames CONTAINER_NAME
          (of_string "real-colon-dataset/001-001_frames")] /\
   result_of out = Ok false).
Proof.
  assert (H : ~ In "."%char (of_string "001-001_frames")).
  { intros Hin. apply char_in_true in Hin. discriminate Hin. }
  destruct (@blob_exists_checks_first_dot_stem
              (of_string "001-001_frames") (of_string "tar.gz") CONTAINER_NAME
              BASE_BLOB_NAME SamplesExistence.all_uploaded_world H)
    as [Hev [_ [_ Hres]]].
  split; [exact H | split; [exact Hev | exact Hres]].
Defined.

(** ** Opening the container *)

Lemma blobs_of_none_iff (c : str) (cs : list (str * blobs_t)) :
  Azure.blobs_of c cs = None
  <-> existsb (fun x => str_eqb x c) (map fst cs) = false.
Proof.
  induction cs as [|[n b] cs IH]; simpl; [tauto|].
  destruct (str_eqb n c); simpl; [split; discriminate | exact IH].
Qed.

Lemma existsb_filter_startswith (c : str) (names : list str) :
  existsb (fun x => str_eqb x c) (filter (startswith c) names)
  = existsb (fun x => str_eqb x c) names.
Proof.
  induction names as [|n names IH]; simpl; [reflexivity|].
  destruct (str_eqb n c) eqn:E.
  - apply str_eqb_true in E. subst n.
    replace (startswith c c) with true.
    + simpl. rewrite str_eqb_refl. reflexivity.
    + symmetry. rewrite <- (app_nil_r c) at 2. apply startswith_app.
  - destruct (startswith c n); simpl; rewrite ?E; exact IH.
Qed.

Lemma blobs_of_app_new (c k : str) (cs : list (str * blobs_t)) :
  Azure.blobs_of k (cs ++ [(c, [])])
  = match Azure.blobs_of k cs with
    | Some b => Some b
    | None => if str_eqb c k then Some [] else None
    end.
Proof.
  induction cs as [|[n b] cs IH]; simpl; [reflexivity|].
  destruct (str_eqb n k); [reflexivity | exact IH].
Qed.

(** What [open_container] does when it returns, by whether the container
    was there. *)
Lemma open_container_ok acct c w cc w' t :
  open_container acct c w = (Ok cc, w', t) ->
  cc = c /\
  match Azure.blobs_of c (containers w) with
  | Some _ => containers w' = containers w /\ filter is_create t = []
  | None => containers w' = containers w ++ [(c, [])]
            /\ filter is_create t = [EvCreateContainer c]
  end.
Proof.
  intros H. unfold open_container, Azure.DefaultAzureCredential,
    Azure.BlobServiceClient, Azure.list_containers, Azure.create_container,
    Azure.get_container_client in H. unfold_monad_in H. world_simpl_in H.
  destruct (faults w (ticks w)); world_simpl_in H; [discriminate|].
  destruct (faults w (S (ticks w))); world_simpl_in H; [discriminate|].
  destruct (faults w (S (S (ticks w)))); world_simpl_in H; [discriminate|].
  rewrite existsb_filter_startswith in H.
  destruct (Azure.blobs_of c (containers w)) as [b|] eqn:Hb.
  - assert (He : existsb (fun x => str_eqb x c) (map fst (containers w)) = true).
    { destruct (existsb _ _) eqn:E; [reflexivity|].
      apply blobs_of_none_iff in E. congruence. }
    rewrite He in H. cbn [negb] in H. inversion H; subst.
    split_and; reflexivity.
  - pose proof (proj1 (blobs_of_none_iff c (containers w)) Hb) as He.
    rewrite He in H. cbn [negb] in H. world_simpl_in H.
    destruct (faults w (S (S (S (ticks w))))); world_simpl_in H;
      [discriminate|].
    rewrite Hb in H. world_simpl_in H. inversion H; subst.
    split_and; reflexivity.
Qed.

(** X3.  When [open_container] returns, the client it returns is for the
    requested container, that container exists, and no blob of any container
    has changed; the container is created exactly when it was absent. *)
Theorem open_container_ensures_container acct c w cc w' t :
  open_container acct c w = (Ok cc, w', t) ->
  cc = c /\
  Azure.blobs_of c (containers w') <> None /\
  (forall k, blobs_in k w' = blobs_in k w) /\
  (Azure.blobs_of c (containers w) <> None ->
   containers w' = containers w /\ filter is_create t = []) /\
  (Azure.blobs_of c (containers w) = None ->
   filter is_create t = [EvCreateContainer c] /\ blobs_in c w' = []).
Proof.
  intros H. apply open_container_ok in H as [Ecc H].
  destruct (Azure.blobs_of c (containers w)) as [b|] eqn:Hb;
    destruct H as [Hc Ht].
  - split_and.
    + exact Ecc.
    + rewrite Hc, Hb. discriminate.
    + intros k. unfold blobs_in. rewrite Hc. reflexivity.
    + intros _. split; assumption.
    + discriminate.
  - assert (Hk : forall k, blobs_in k w' = blobs_in k w).
    { intros k. unfold blobs_in. rewrite Hc, blobs_of_app_new.
      destruct (Azure.blobs_of k (containers w)); [reflexivity|].
      destruct (str_eqb c k); reflexivity. }
    split_and.
    + exact Ecc.
    + rewrite Hc, blobs_of_app_new, Hb, str_eqb_refl. discriminate.
    + exact Hk.
    + intros Hn. contradiction.
    + intros _. split; [exact Ht|]. rewrite Hk. unfold blobs_in.
      rewrite Hb. reflexivity.
Qed.

Lemma open_container_ensures_container_witness :
  let w := SamplesPipeline.no_tmp_world in
  let w0 := set_containers [] w in
  let out := open_container Samples.account CONTAINER_NAME w0 in
  out = (Ok CONTAINER_NAME, world_of out, events_of out) /\
  Azure.blobs_of CONTAINER_NAME (containers (world_of out)) <> None /\
  filter is_create (events_of out) = [EvCreateContainer CONTAINER_NAME].
Proof.
  intros w w0 out.
  assert (H : out = (Ok CONTAINER_NAME, world_of out, events_of out))
    by reflexivity.
  destruct (@open_container_ensures_container
              Samples.account CONTAINER_NAME w0 CONTAINER_NAME (world_of out)
              (events_of out) H) as [_ [Hex [_ [_ Hnew]]]].
  destruct (Hnew eq_refl) as [Hev _].
  split_and; [exact H | exact Hex | exact Hev].
Defined.

(** ** [extract_file] on a stem made of the characters of [.tar.gz] *)

Lemma rstrip_all (chars s : str) :
  Forall (fun c => char_in c chars = true) s -> rstrip chars s = [].
Proof.
  intros H. rewrite <- (app_nil_l s). rewrite rstrip_app_all by exact H.
  reflexivity.
Qed.

Lemma set_stem_valid_name (stem : str) :
  Forall (fun c => In c tar_gz) stem ->
  Fs.valid_name (stem ++ tar_gz) = true.
Proof.
  intros H. unfold Fs.valid_name.
  assert (Hlen : 7 <= List.length (stem ++ tar_gz)).
  { rewrite length_app. unfold tar_gz. cbn. lia. }
  assert (Hne : forall s, List.length s < 7 ->
                          str_eqb (stem ++ tar_gz) s = false).
  { intros s Hs. apply str_eqb_false. intros E. rewrite E in Hlen. lia. }
  rewrite !Hne by (cbn; lia). cbn [negb andb].
  apply negb_true_iff. destruct (char_in "/"%char (stem ++ tar_gz)) eqn:E;
    [|reflexivity].
  apply char_in_true in E. apply in_app_or in E as [E | E].
  - rewrite Forall_forall in H. apply H in E. apply char_in_true in E.
    discriminate E.
  - apply char_in_true in E. discriminate E.
Qed.

(** X4.  An archive whose stem consists of characters of [.tar.gz] only,
    such as [rat.tar.gz], that lies in a download directory given by a path
    that is not empty, is never extracted: [rstrip] leaves the empty name,
    the directory consulted is the download directory itself, which exists
    because the archive lies in it, and [extract_file] deletes the archive
    unopened. *)
Theorem extract_file_set_character_stem_never_extracted
        (stem download_dir : str) (c : list str) (data : str) (w : World) :
  Forall (fun c => In c tar_gz) stem ->
  download_dir <> [] ->
  faults w (ticks w) = None ->
  Fs.resolve (fs w) (cwd w) (OsPath.join download_dir (stem ++ tar_gz))
    = inr (c, File data) ->
  let file_path := stem ++ tar_gz in
  let archive := OsPath.join download_dir file_path in
  let out := extract_file (file_path, download_dir) w in
  extracted_folder_name file_path = [] /\
  result_of out = Ok tt /\
  events_of out = [EvPrint (PrintDeleting file_path); EvRemove archive] /\
  fs (world_of out) = fs_without c (fs w) /\
  Fs.stat (fs (world_of out)) (cwd w) archive = None.
Proof.
  intros Hset Hdd Hf Ha file_path archive out.
  change (Fs.resolve (fs w) (cwd w) archive = inr (c, File data)) in Ha.
  assert (Hfolder : extracted_folder_name file_path = []).
  { unfold extracted_folder_name, stripped_name, file_path. fold tar_gz.
    rewrite rstrip_app_all by apply tar_gz_all_in_set.
    rewrite rstrip_all; [reflexivity|].
    eapply Forall_impl; [|exact Hset]. intros x Hx. apply char_in_true.
    exact Hx. }
  pose proof (set_stem_valid_name Hset) as Hvalid. fold file_path in Hvalid.
  destruct (@resolve_join_dir (fs w) (cwd w) download_dir file_path c
                              (File data) Hdd Hvalid Ha)
    as [d [es [Hdir Ec]]].
  assert (Hex : Fs.stat (fs w) (cwd w)
                        (extracted_folder_path download_dir file_path)
                = Some (Dir es)).
  { unfold extracted_folder_path. rewrite Hfolder.
    apply (@stat_of_resolve _ _ _ _ _ Hdir). }
  destruct (@extract_file_run file_path download_dir w
                              (endswith_app tar_gz stem)) as [_ Hrun].
  fold archive in Hrun. rewrite Hex in Hrun.
  rewrite os_remove_run in Hrun. cbv zeta in Hrun.
  rewrite Hf, Ha in Hrun.
  change (extract_file (file_path, download_dir) w) with out in Hrun.
  clearbody out. subst out.
  unfold result_of, events_of, world_of. cbn [fst snd fs set_fs].
  split_and; try reflexivity; [exact Hfolder|].
  apply resolve_inv in Ha as [_ [_ [_ Eabs]]].
  apply stat_fs_without; [symmetry; exact Eabs|].
  rewrite Ec. intros E. apply app_eq_nil in E as [_ E]. discriminate E.
Qed.

Lemma extract_file_set_character_stem_never_extracted_witness :
  let w := SamplesStrip.rat_world in
  let out := extract_file (SamplesStrip.file_path, SamplesExtract.download_dir) w in
  Forall (fun c => In c tar_gz) SamplesStrip.stem /\
  SamplesExtract.download_dir <> [] /\
  faults w (ticks w) = None /\
  result_of out = Ok tt /\
  events_of out = [EvPrint (PrintDeleting SamplesStrip.file_path);
                   EvRemove (of_string "dataset/rat.tar.gz")] /\
  Fs.stat (fs (world_of out)) (cwd w) (of_string "dataset/rat.tar.gz") = None.
Proof.
  intros w out.
  assert (Hset : Forall (fun c => In c tar_gz) SamplesStrip.stem).
  { repeat constructor; simpl; tauto. }
  assert (Hdd : SamplesExtract.download_dir <> []) by discriminate.
  destruct (@extract_file_set_character_stem_never_extracted
              SamplesStrip.stem SamplesExtract.download_dir
              [of_string "dataset"; of_string "rat.tar.gz"]
              Samples.archive_bytes w Hset Hdd eq_refl eq_refl)
    as [_ [Hr [Hev [_ Hg]]]].
  split_and; [exact Hset | exact Hdd | reflexivity | exact Hr | exact Hev
              | exact Hg].
Defined.

(** With the empty path as download directory the directory consulted is
    the empty path, which never exists: the same archive is extracted, into
    the working directory. *)
Example extract_file_set_character_stem_in_cwd :
  let w := Samples.world [(of_string "rat.tar.gz", File Samples.archive_bytes)]
                         [] Samples.always_ok Samples.no_faults in
  let out := extract_file (SamplesStrip.file_path, []) w in
  result_of out = Ok tt /\
  events_of out = [EvPrint (PrintExtracting SamplesStrip.file_path);
                   EvTarOpen SamplesStrip.file_path;
                   EvExtractAll SamplesStrip.file_path [];
                   EvPrint (PrintDeleting SamplesStrip.file_path);
                   EvRemove SamplesStrip.file_path].
Proof. cbv zeta. split; vm_compute; reflexivity. Qed.

(** ** [extract_files] *)






(** Two archives, the first of which is missing: the second is extracted
    all the same, and the exception of the first is raised afterwards. *)
Example extract_files_runs_every_path :
  let out := extract_files [of_string "000.tar.gz"; SamplesExtract.file_path]
                           SamplesExtract.download_dir
                           SamplesExtract.new_world in
  (exists e, result_of out = Raise e
             /\ exn_class e = "FileNotFoundError"%string) /\
  fs (world_of out)
    = fs_without [of_string "dataset"; of_string "001.tar.gz"]
                 SamplesExtract.extracted_fs.
Proof.
  cbv zeta. split.
  - eexists (Exn "FileNotFoundError" _). split; [vm_compute|]; reflexivity.
  - vm_compute. reflexivity.
Qed.

(** ** [download_file]: what reaches the disk *)

Lemma concat_nonempty_chunks (chunks : list str) :
  List.concat (filter (fun chunk => negb (str_eqb chunk [])) chunks)
  = List.concat chunks.
Proof.
  induction chunks as [|c chunks IH]; [reflexivity|]. cbn [filter].
  destruct c as [|x c]; cbn [str_eqb negb]; cbn [List.concat];
    rewrite IH; reflexivity.
Qed.

Lemma download_attempt_frame url local_filename w r w1 t1 :
  download_attempt url local_filename w = (r, w1, t1) ->
  http w1 = http w /\ cwd w1 = cwd w /\
  (refused (http w (requests w) url) = true -> fs w1 = fs w).
Proof.
  intros H. unfold download_attempt, raise_for_status, write_file, fs_store,
    print in H. unfold_monad_in H. world_simpl_in H. unfold refused.
  destruct (http w (requests w) url) as [e | status chunks broken];
    world_simpl_in H.
  { inversion H; subst. split_and; reflexivity. }
  destruct ((400 <=? status) && (status <? 600))%Z; world_simpl_in H.
  { inversion H; subst. split_and; reflexivity. }
  repeat (break_match_in H; world_simpl_in H);
    inversion H; subst; split_and; try reflexivity; discriminate.
Qed.

(** A write that returns has put the data under the name. *)
Lemma write_file_ok p data w u w' t :
  write_file p data w = (Ok u, w', t) ->
  t = [] /\ cwd w' = cwd w /\
  Fs.stat (fs w') (cwd w) p = Some (File data).
Proof.
  intros H. unfold write_file, fs_store, bind, get_world, modify, raise in H.
  destruct (Fs.resolve_parent (fs w) (cwd w) p) as [e | [d n]] eqn:R;
    [discriminate H|].
  destruct (endswith OsPath.sep p || negb (Fs.valid_name n)) eqn:B;
    [discriminate H|].
  apply orb_false_iff in B as [He Hv]. apply negb_false_iff in Hv.
  assert (Hstore :
    forall t', Fs.update_dir (fs w) d (Fs.set_entry n (File data)) = Some t' ->
               (forall sub, Fs.get (fs w) (d ++ [n]) <> Some (Dir sub)) ->
               Fs.stat t' (cwd w) p = Some (File data)).
  { intros t' U Hnd. apply stat_of_resolve with (c := d ++ [n]).
    apply (@resolve_after_create (fs w) t' (cwd w) p d n (File data) R Hv).
    - apply (@dirs_kept_store d n (File data) (fs w) t' U Hnd).
    - rewrite get_app. apply update_dir_get in U as [es [_ G2]]. rewrite G2.
      cbn [Fs.get]. rewrite lookup_set_entry. reflexivity.
    - right. exact He. }
  destruct (Fs.get (fs w) (d ++ [n])) as [[dd | es]|] eqn:G;
    try discriminate H;
    (destruct (Fs.update_dir (fs w) d (Fs.set_entry n (File data)))
       as [t'|] eqn:U; [|discriminate H];
     inversion H; subst; cbn [fs cwd set_fs];
     split_and; [reflexivity | reflexivity |];
     apply (Hstore t' eq_refl); intros sub; discriminate).
Qed.

(** An attempt that returns has written the whole answer. *)
Lemma download_attempt_ok_content url local_filename w p w1 t1 :
  download_attempt url local_filename w = (Ok p, w1, t1) ->
  exists status chunks,
    http w (requests w) url = Resp status chunks None /\
    refused (Resp status chunks None) = false /\
    Fs.stat (fs w1) (cwd w1) local_filename
      = Some (File (List.concat chunks)).
Proof.
  intros H. unfold download_attempt, raise_for_status, print in H.
  unfold_monad_in H. world_simpl_in H.
  destruct (http w (requests w) url) as [e | status chunks broken] eqn:Hh;
    world_simpl_in H; [discriminate|].
  destruct ((400 <=? status) && (status <? 600))%Z eqn:Hs; world_simpl_in H;
    [discriminate|].
  destruct (faults w (ticks w)); world_simpl_in H; [discriminate|].
  match type of H with
  | context [write_file ?q ?d ?w0] =>
      destruct (write_file q d w0) as [[[u | e] w2] t2] eqn:Hw
  end; world_simpl_in H; [|discriminate].
  destruct broken; world_simpl_in H; [discriminate|].
  inversion H; subst p w1 t1; clear H.
  apply write_file_ok in Hw as [_ [Hc Hst]].
  cbn [fs cwd set_ticks set_requests] in Hc, Hst.
  exists status, chunks. split_and; [reflexivity | exact Hs |].
  rewrite Hc, Hst, concat_nonempty_chunks. reflexivity.
Qed.

Lemma attempts_fail_frame url local_filename k :
  forall w w1,
    attempts_fail k url local_filename w = Some w1 ->
    http w1 = http w /\ cwd w1 = cwd w /\
    ((forall n, refused (http w n url) = true) -> fs w1 = fs w).
Proof.
  induction k as [|k IH]; intros w w1 H.
  - inversion H; subst. split_and; reflexivity.
  - cbn [attempts_fail] in H.
    destruct (download_attempt url local_filename w) as [[[p | e] w0] t0] eqn:Ha;
      [discriminate|].
    apply download_attempt_frame in Ha as [Hh [Hc Hf]].
    apply IH in H as [Hh' [Hc' Hf']].
    split_and; [congruence | congruence |].
    intros Hall. rewrite Hf'.
    + apply Hf. apply Hall.
    + intros n. rewrite Hh. apply Hall.
Qed.

(** X6.  When [download_file] returns a path it is the destination, the
    answer to the last request it made was complete and had no error
    status, and the destination file holds exactly the bytes of that
    answer. *)
Theorem download_file_complete_content
        (url local_filename p : str) (w w' : World) (t : list event) :
  download_file (url, local_filename) w = (Ok (Some p), w', t) ->
  p = local_filename /\
  exists status chunks,
    http w (Nat.pred (requests w')) url = Resp status chunks None /\
    refused (Resp status chunks None) = false /\
    Fs.stat (fs w') (cwd w') local_filename
      = Some (File (List.concat chunks)).
Proof.
  intros H. rewrite download_file_unfold in H.
  destruct (download_loop_run max_attempts url local_filename w)
    as [k [w1 [_ [Hfail [_ Hcase]]]]].
  rewrite H in Hcase. unfold result_of, world_of, events_of in Hcase.
  cbn [fst snd] in Hcase.
  destruct Hcase as [[_ [[w2 [t2 [Ha Ew]]] [Hr _]]] | [_ [Hr _]]];
    [|discriminate Hr].
  inversion Hr; subst p. split; [reflexivity|]. subst w2.
  pose proof (@download_attempt_run url local_filename w1 _ _ _ Ha)
    as [_ [_ [Hq _]]].
  apply attempts_fail_frame in Hfail as [Hh _].
  apply download_attempt_ok_content in Ha as [status [chunks [E1 [E2 E3]]]].
  exists status, chunks. rewrite Hq. cbn [Nat.pred]. rewrite <- Hh.
  split_and; assumption.
Qed.

Lemma download_file_complete_content_witness :
  let out := download_file (SamplesDownload.url, SamplesDownload.dest)
                           SamplesDownload.flaky_world in
  out = (Ok (Some SamplesDownload.dest), world_of out, events_of out) /\
  exists status chunks,
    Samples.twice_down (Nat.pred (requests (world_of out))) SamplesDownload.url
      = Resp status chunks None /\
    Fs.get (fs (world_of out)) [of_string "tmp"; of_string "001.tar.gz"]
      = Some (File (List.concat chunks)).
Proof.
  intros out.
  assert (H : download_file (SamplesDownload.url, SamplesDownload.dest)
                            SamplesDownload.flaky_world
              = (Ok (Some SamplesDownload.dest), world_of out, events_of out))
    by (vm_compute; reflexivity).
  destruct (@download_file_complete_content
              SamplesDownload.url SamplesDownload.dest SamplesDownload.dest
              SamplesDownload.flaky_world (world_of out) (events_of out) H)
    as [_ [status [chunks [E1 [_ E3]]]]].
  split; [exact H|]. exists status, chunks. split; [exact E1 | exact E3].
Defined.

(** X7.  A source that refuses every request, by a connection error or by a
    4xx or 5xx status alike, costs the full 1000 requests and 1000 waits of
    180 seconds; [download_file] then returns [None] and has left the file
    system as it was. *)
Theorem download_file_refused_every_time
        (url local_filename : str) (w : World) :
  (forall n, refused (http w n url) = true) ->
  let out := download_file (url, local_filename) w in
  result_of out = Ok None /\
  requests (world_of out) = requests w + 1000 /\
  filter is_sleep (events_of out) = repeat (EvSleep 180) 1000 /\
  fs (world_of out) = fs w.
Proof.
  intros Hall out. subst out. rewrite download_file_unfold.
  destruct (download_loop_run max_attempts url local_filename w)
    as [k [w1 [_ [Hfail [Hsl Hcase]]]]].
  pose proof (attempts_fail_frame _ _ _ _ Hfail) as [Hh [_ Hfs]].
  destruct Hcase as [[_ [[w2 [t2 [Ha _]]] _]] | [Ek [Hr [Ew [_ [Hq _]]]]]].
  - exfalso. apply download_attempt_ok_content in Ha
      as [status [chunks [E1 [E2 _]]]].
    rewrite Hh in E1. specialize (Hall (requests w1)). rewrite E1 in Hall.
    congruence.
  - subst k. split_and.
    + exact Hr.
    + exact Hq.
    + exact Hsl.
    + rewrite Ew. apply Hfs. exact Hall.
Qed.

Lemma download_file_refused_every_time_witness :
  let w := SamplesDownload.down_world in
  let out := download_file (SamplesDownload.url, SamplesDownload.dest) w in
  (forall n, refused (http w n SamplesDownload.url) = true) /\
  result_of out = Ok None /\
  requests (world_of out) = 1000 /\
  fs (world_of out) = fs w.
Proof.
  intros w out.
  assert (Hall : forall n, refused (http w n SamplesDownload.url) = true)
    by (intros n; reflexivity).
  destruct (@download_file_refused_every_time
              SamplesDownload.url SamplesDownload.dest w Hall)
    as [Hr [Hq [_ Hfs]]].
  split_and; [exact Hall | exact Hr | exact Hq | exact Hfs].
Defined.

(** ** The result of the pipeline *)

Lemma upload_phase_nonneg tmpdir base cc file_name w n w' t :
  upload_phase tmpdir base cc file_name 0 w = (Ok n, w', t) -> (0 <= n)%Z.
Proof.
  unfold upload_phase. intros H.
  apply bind_inv_ok in H as [triples [w1 [t1 [t2 [_ [H _]]]]]].
  apply bind_inv_ok in H as [m [w2 [t3 [t4 [Hw [H _]]]]]].
  apply bind_inv_ok in H as [u [w3 [t5 [t6 [_ [H _]]]]]].
  inversion H; subst. apply upload_walk_ok in Hw. cbv zeta in Hw.
  destruct Hw as [Em _]. lia.
Qed.

Lemma pipeline_body_nonneg file_url file_name base cc tmpdir w n w' t :
  pipeline_body file_url file_name base cc 0 tmpdir w = (Ok n, w', t) ->
  (0 <= n)%Z.
Proof.
  rewrite pipeline_body_split.
  destruct (fetch_phase file_url file_name tmpdir w) as [[[u | e] w1] t1];
    [|discriminate].
  destruct (upload_phase tmpdir base cc file_name 0 w1) as [[r w2] t2] eqn:Hu.
  intros H. inversion H; subst r w2 t. eapply upload_phase_nonneg. exact Hu.
Qed.

Lemma with_block_nonneg file_url file_name base cc w n w' t :
  Tempfile.with_TemporaryDirectory
    (pipeline_body file_url file_name base cc 0) w = (Ok n, w', t) ->
  (0 <= n)%Z.
Proof.
  rewrite with_TemporaryDirectory_run.
  destruct (Tempfile.mkdtemp w) as [[[d | e] w1] t1]; [|discriminate].
  destruct (pipeline_body file_url file_name base cc 0 d w1)
    as [[[m | e] w2] t2] eqn:Hb;
    destruct (Tempfile.cleanup d w2) as [[[u | e'] w3] t3];
    intros H; inversion H; subst.
  eapply pipeline_body_nonneg. exact Hb.
Qed.

Lemma run_task_ok_range (tk : task) w v w' t :
  run_task tk w = (Ok v, w', t) -> v = (-1)%Z \/ (0 <= v)%Z.
Proof.
  unfold run_task. rewrite download_to_blob_run.
  destruct (open_container _ _ w) as [[[cc | e] w0] t0]; [|discriminate].
  destruct (Tempfile.with_TemporaryDirectory _ w0) as [[[n | e] w1] t1] eqn:Hb;
    intros H; inversion H; subst.
  - right. eapply with_block_nonneg. exact Hb.
  - left. reflexivity.
Qed.

(** X8.  A result of [download_to_blob] is [-1] or a count that is not
    negative, and it is [-1] exactly when the [try] block raised: a count of
    zero, for an archive without files, is a success and not a failure. *)
Theorem download_to_blob_sentinel_unambiguous
        (file_url file_name storage_acct_url container_name base_blob_name : str)
        (w : World) (v : Z) (w' : World) (t : list event) :
  download_to_blob file_url file_name storage_acct_url container_name
                   base_blob_name w = (Ok v, w', t) ->
  exists container_client w0 t0,
    open_container storage_acct_url container_name w
      = (Ok container_client, w0, t0) /\
    match Tempfile.with_TemporaryDirectory
            (pipeline_body file_url file_name base_blob_name
                           container_client 0) w0 with
    | (Ok n, _, _) => v = n /\ (0 <= v)%Z /\ v <> (-1)%Z
    | (Raise _, _, _) => v = (-1)%Z
    end.
Proof.
  rewrite download_to_blob_run.
  destruct (open_container storage_acct_url container_name w)
    as [[[cc | e] w0] t0]; [|discriminate].
  intros H. exists cc, w0, t0. split; [reflexivity|].
  destruct (Tempfile.with_TemporaryDirectory _ w0) as [[[n | e] w1] t1] eqn:Hb;
    inversion H; subst; [|reflexivity].
  apply with_block_nonneg in Hb. split_and; [reflexivity | exact Hb | lia].
Qed.

Lemma download_to_blob_sentinel_unambiguous_witness :
  let out := download_to_blob SamplesPipeline.url SamplesPipeline.file_name
                              Samples.account CONTAINER_NAME BASE_BLOB_NAME
                              SamplesPipeline.garbage_world in
  out = (Ok (-1)%Z, world_of out, events_of out) /\
  exists container_client w0 t0 e w1 t1,
    open_container Samples.account CONTAINER_NAME SamplesPipeline.garbage_world
      = (Ok container_client, w0, t0) /\
    Tempfile.with_TemporaryDirectory
      (pipeline_body SamplesPipeline.url SamplesPipeline.file_name
                     BASE_BLOB_NAME container_client 0) w0
      = (Raise e, w1, t1).
Proof.
  intros out.
  assert (H : download_to_blob SamplesPipeline.url SamplesPipeline.file_name
                               Samples.account CONTAINER_NAME BASE_BLOB_NAME
                               SamplesPipeline.garbage_world
              = (Ok (-1)%Z, world_of out, events_of out))
    by (vm_compute; reflexivity).
  destruct (@download_to_blob_sentinel_unambiguous
              SamplesPipeline.url SamplesPipeline.file_name Samples.account
              CONTAINER_NAME BASE_BLOB_NAME SamplesPipeline.garbage_world
              (-1)%Z (world_of out) (events_of out) H)
    as [cc [w0 [t0 [Ho Hb]]]].
  split; [exact H|]. exists cc, w0, t0.
  destruct (Tempfile.with_TemporaryDirectory _ w0) as [[[n | e] w1] t1] eqn:Hw.
  - exfalso. destruct Hb as [_ [_ Hn]]. apply Hn. reflexivity.
  - exists e, w1, t1. split; [exact Ho | reflexivity].
Defined.

(** ** The orchestrator: what stops a run *)

Lemma open_container_article acct cname w r w' t :
  open_container acct cname w = (r, w', t) ->
  article_files w' = article_files w /\ filter is_list_call t = [].
Proof.
  intros H. unfold open_container, Azure.DefaultAzureCredential,
    Azure.BlobServiceClient, Azure.list_containers, Azure.create_container,
    Azure.get_container_client in H. unfold_monad_in H.
  repeat (break_match_in H; cbv beta iota in H); inversion H; subst;
    repeat match goal with
           | E : (_, _, _) = (_, _, _) |- _ => inversion E; subst; clear E
           end; split; reflexivity.
Qed.

(** X9.  A failure to fetch the article is fatal: [main] raises it with no
    listing call and no pool, after it has made sure that the container
    exists. *)
Theorem main_catalog_failure_is_fatal w e cc w1 t1 :
  open_container (environ_account_url w) CONTAINER_NAME w = (Ok cc, w1, t1) ->
  article_files w = Raise e ->
  main w = (Raise e, w1, t1) /\
  Azure.blobs_of CONTAINER_NAME (containers w1) <> None /\
  filter is_list_call t1 = [] /\ filter is_pool t1 = [] /\
  filter is_request t1 = [].
Proof.
  intros Ho Ha.
  pose proof (@open_container_article _ _ _ _ _ _ Ho) as [Hart Hlist].
  pose proof (@open_container_run _ _ _ _ _ _ Ho)
    as [_ [_ [_ [_ [_ [_ [_ Hsetup]]]]]]].
  split_and.
  - unfold main, bind, get_world, fetch_article_files. rewrite Ho.
    rewrite Hart, Ha. cbn. rewrite app_nil_r. reflexivity.
  - apply open_container_ok in Ho as [_ Ho].
    destruct (Azure.blobs_of CONTAINER_NAME (containers w)) eqn:Hb;
      destruct Ho as [Hc _]; rewrite Hc.
    + rewrite Hb. discriminate.
    + rewrite blobs_of_app_new, Hb, str_eqb_refl. discriminate.
  - exact Hlist.
  - apply setup_no_pool. exact Hsetup.
  - apply setup_no_request. exact Hsetup.
Qed.

Lemma main_catalog_failure_is_fatal_witness :
  let w := SamplesMain.no_catalog_world in
  let o := open_container (environ_account_url w) CONTAINER_NAME w in
  o = (Ok CONTAINER_NAME, world_of o, events_of o) /\
  article_files w = Raise SamplesMain.fetch_error /\
  main w = (Raise SamplesMain.fetch_error, world_of o, events_of o) /\
  blob_names CONTAINER_NAME w = [] /\
  Azure.blobs_of CONTAINER_NAME (containers (world_of o)) <> None.
Proof.
  intros w o.
  assert (H1 : o = (Ok CONTAINER_NAME, world_of o, events_of o)) by reflexivity.
  assert (H2 : article_files w = Raise SamplesMain.fetch_error) by reflexivity.
  destruct (@main_catalog_failure_is_fatal
              w SamplesMain.fetch_error CONTAINER_NAME (world_of o)
              (events_of o) H1 H2) as [Hm [Hc _]].
  split_and; [exact H1 | exact H2 | exact Hm | reflexivity | exact Hc].
Defined.

(** The queue loop stops at the first listing that fails, and has then
    started nothing. *)
Lemma queue_tasks_raise files cc acct :
  forall acc w e w' t,
    queue_tasks files cc acct acc w = (Raise e, w', t) ->
    containers w' = containers w /\ fs w' = fs w /\
    filter is_pool t = [] /\ filter is_request t = [] /\
    exists f, In f files /\
              In (EvListBlobNames cc (blob_prefix BASE_BLOB_NAME (name f))) t.
Proof.
  induction files as [|f files IH]; intros acc w e w' t H; [discriminate|].
  cbn [queue_tasks] in H. apply bind_inv in H
    as [[b [w1 [t1 [t2 [Hb [Hk Et]]]]]] | [e0 [Hb Er]]].
  - rewrite blob_exists_run in Hb. cbv zeta in Hb.
    destruct (faults w (ticks w)); [discriminate|].
    destruct (Azure.blobs_of cc (containers w)); [|discriminate].
    inversion Hb; subst b w1 t1; clear Hb.
    destruct (listed_under _ cc w);
      unfold logger_info in Hk; rewrite emit_bind in Hk;
      match type of Hk with
      | context [queue_tasks files cc acct ?a ?w0] =>
          destruct (queue_tasks files cc acct a w0) as [[r w2] t3] eqn:Hq
      end;
      inversion Hk; subst r w2 t2; clear Hk;
      apply IH in Hq as [E1 [E2 [E3 [E4 [g [Hg Hin]]]]]];
      subst t; cbn [app filter is_pool is_request];
      (split_and; [exact E1 | exact E2 | exact E3 | exact E4 |];
       exists g; split; [right; exact Hg | right; right; exact Hin]).
  - rewrite blob_exists_run in Hb. cbv zeta in Hb.
    destruct (faults w (ticks w)) as [e1|].
    + inversion Hb; subst. split_and; try reflexivity.
      exists f. split; left; reflexivity.
    + destruct (Azure.blobs_of cc (containers w)); [discriminate|].
      inversion Hb; subst. split_and; try reflexivity.
      exists f. split; left; reflexivity.
Qed.

(** X10.  A listing that fails while the catalog is checked stops [main]
    with that exception: no request has been made, no pool created, and
    the file system and the container are as [open_container] left them. *)
Theorem main_listing_failure_stops_the_run w cc w1 t1 files e w2 t2 :
  open_container (environ_account_url w) CONTAINER_NAME w = (Ok cc, w1, t1) ->
  article_files w = Ok files ->
  queue_tasks files cc (environ_account_url w) [] w1 = (Raise e, w2, t2) ->
  main w = (Raise e, w2, t1 ++ t2) /\
  filter is_request (t1 ++ t2) = [] /\ filter is_pool (t1 ++ t2) = [] /\
  fs w2 = fs w /\ containers w2 = containers w1 /\
  exists f, In f files /\
            In (EvListBlobNames cc (blob_prefix BASE_BLOB_NAME (name f))) t2.
Proof.
  intros Ho Ha Hq.
  pose proof (@open_container_article _ _ _ _ _ _ Ho) as [Hart _].
  pose proof (@open_container_run _ _ _ _ _ _ Ho)
    as [Hfs [_ [_ [_ [_ [_ [_ Hsetup]]]]]]].
  pose proof (@queue_tasks_raise files cc (environ_account_url w) [] w1 e w2 t2
                Hq) as [Hc [Hf [Hp [Hr Hex]]]].
  split_and.
  - unfold main, bind, get_world, fetch_article_files. rewrite Ho.
    rewrite Hart, Ha, Hq. cbn. reflexivity.
  - rewrite filter_app, Hr, (setup_no_request _ Hsetup). reflexivity.
  - rewrite filter_app, Hp, (setup_no_pool _ Hsetup). reflexivity.
  - rewrite Hf. exact Hfs.
  - exact Hc.
  - exact Hex.
Qed.

Lemma main_listing_failure_stops_the_run_witness :
  let w := SamplesMain.listing_fail_world in
  let o1 := open_container (environ_account_url w) CONTAINER_NAME w in
  let o2 := queue_tasks Samples.catalog CONTAINER_NAME (environ_account_url w)
                        [] (world_of o1) in
  o1 = (Ok CONTAINER_NAME, world_of o1, events_of o1) /\
  article_files w = Ok Samples.catalog /\
  o2 = (Raise SamplesMain.listing_error, world_of o2, events_of o2) /\
  main w = (Raise SamplesMain.listing_error, world_of o2,
            events_of o1 ++ events_of o2).
Proof.
  intros w o1 o2.
  assert (H1 : o1 = (Ok CONTAINER_NAME, world_of o1, events_of o1))
    by reflexivity.
  assert (H2 : article_files w = Ok Samples.catalog) by reflexivity.
  assert (H3 : o2 = (Raise SamplesMain.listing_error, world_of o2, events_of o2))
    by reflexivity.
  destruct (@main_listing_failure_stops_the_run
              w CONTAINER_NAME (world_of o1) (events_of o1) Samples.catalog
              SamplesMain.listing_error (world_of o2) (events_of o2) H1 H2 H3)
    as [Hm _].
  split_and; [exact H1 | exact H2 | exact H3 | exact Hm].
Defined.



Lemma map_m_forall {X Y} (f : X -> M Y) (P : Y -> Prop) :
  (forall x w y w' t, f x w = (Ok y, w', t) -> P y) ->
  forall xs w ys w' t, map_m f xs w = (Ok ys, w', t) -> Forall P ys.
Proof.
  intros Hf. induction xs as [|x xs IH]; intros w ys w' t H.
  - inversion H. constructor.
  - cbn [map_m] in H.
    apply bind_inv_ok in H as [y [w1 [t1 [t2 [Hy [H _]]]]]].
    apply bind_inv_ok in H as [ys' [w2 [t3 [t4 [Hys [Hr _]]]]]].
    inversion Hr; subst. constructor; [eapply Hf; exact Hy | eapply IH; exact Hys].
Qed.

Lemma nth_map_lt {X Y} (f : X -> Y) (l : list X) (i : nat) (d : Y) (d' : X) :
  i < List.length l -> nth i (map f l) d = f (nth i l d').
Proof.
  revert i. induction l as [|x l IH]; intros i Hi; [cbn in Hi; lia|].
  destruct i as [|i]; [reflexivity|]. cbn [map nth]. apply IH.
  cbn [List.length] in Hi. lia.
Qed.

Lemma nth_summary_line (names : list str) (rs : list Z) (i : nat) (dn : str) :
  List.length names = List.length rs -> i < List.length names ->
  nth i (map summary_event (combine names rs)) (EvLog INFO LogAllDone)
  = summary_event (nth i names dn, nth i rs 0%Z).
Proof.
  revert rs i. induction names as [|x names IH]; intros rs i Hl Hi;
    [cbn in Hi; lia|].
  destruct rs as [|r rs]; [discriminate Hl|].
  destruct i as [|i]; [reflexivity|]. cbn [combine map nth]. apply IH.
  - cbn [List.length] in Hl. lia.
  - cbn [List.length] in Hi. lia.
Qed.

(** X12.  With [n >= 1] queued tasks whose workers all return, [main] makes
    one pool of [min(4, n)] processes, between 1 and 4, and after the
    workers logs one line per task, in task order: the i-th line names the
    file of the i-th task, as failed when its result is [-1] and with its
    count otherwise, and every result is [-1] or not negative. *)
Theorem main_summary_in_task_order tasks w rs w1 t1 :
  tasks <> [] ->
  map_m run_task tasks w = (Ok rs, w1, t1) ->
  let n := List.length tasks in
  exists lines,
    main_dispatch tasks w
      = (Ok tt, w1,
         EvPool (Z.min 4 (Z.of_nat n)) :: t1 ++ lines
           ++ [EvLog INFO LogAllDone]) /\
    (1 <= Z.min 4 (Z.of_nat n) <= 4)%Z /\
    List.length lines = n /\ List.length rs = n /\
    forall i, i < n ->
      let file := t_file_name (nth i tasks (task_of [] (FileInfo [] []))) in
      let r := nth i rs 0%Z in
      (r = (-1)%Z \/ (0 <= r)%Z) /\
      nth i lines (EvLog INFO LogAllDone)
        = if (r =? -1)%Z then EvLog ERROR (LogFailed file)
          else EvLog INFO (LogUploaded r file).
Proof.
  intros Hne Hm n.
  destruct (@main_dispatch_pending tasks w rs w1 t1 Hne Hm) as [Hd Hlen].
  pose proof (map_m_length _ _ _ Hm) as Hrs.
  pose proof (map_m_forall run_task (fun v => v = (-1)%Z \/ (0 <= v)%Z)
                           run_task_ok_range _ _ Hm) as Hrange.
  eexists. split; [exact Hd|].
  split; [subst n; destruct tasks; [contradiction|]; cbn [List.length]; lia|].
  split; [exact Hlen|]. split; [exact Hrs|].
  - intros i Hi file r. split.
    + rewrite Forall_forall in Hrange. apply Hrange. apply nth_In.
      rewrite Hrs. exact Hi.
    + rewrite (@nth_summary_line (map t_file_name tasks) rs i [])
        by (rewrite length_map; first [symmetry; exact Hrs | exact Hi]).
      rewrite (@nth_map_lt _ _ t_file_name tasks i []
                           (task_of [] (FileInfo [] [])) Hi).
      unfold summary_event. cbn [fst snd]. reflexivity.
Qed.

Lemma main_summary_in_task_order_witness :
  let w := SamplesExistence.readm_world in
  let o1 := open_container (environ_account_url w) CONTAINER_NAME w in
  let o2 := queue_tasks Samples.catalog CONTAINER_NAME (environ_account_url w)
                        [] (world_of o1) in
  let o3 := map_m run_task SamplesMain.tasks (world_of o2) in
  SamplesMain.tasks <> [] /\
  o3 = (Ok [3%Z], world_of o3, events_of o3) /\
  exists lines,
    main_dispatch SamplesMain.tasks (world_of o2)
      = (Ok tt, world_of o3,
         EvPool 1 :: events_of o3 ++ lines ++ [EvLog INFO LogAllDone]) /\
    nth 0 lines (EvLog INFO LogAllDone)
      = EvLog INFO (LogUploaded 3 (of_string "001.tar.gz")).
Proof.
  intros w o1 o2 o3.
  assert (Hne : SamplesMain.tasks <> []) by discriminate.
  assert (H : map_m run_task SamplesMain.tasks (world_of o2)
              = (Ok [3%Z], world_of o3, events_of o3))
    by (vm_compute; reflexivity).
  destruct (@main_summary_in_task_order
              SamplesMain.tasks (world_of o2) [3%Z] (world_of o3)
              (events_of o3) Hne H) as [lines [Hd [_ [_ [_ Hnth]]]]].
  split_and; [exact Hne | exact H |].
  exists lines. split; [exact Hd|].
  destruct (Hnth 0 (Nat.lt_0_1)) as [_ E]. exact E.
Defined.

(** ** What a computation keeps *)

Section Frame.

Variable I : World -> World -> Prop.
Hypothesis law : frame_law I.

Lemma frame_refl w : I w w.
Proof. apply law. Qed.

Lemma frame_trans a b c : I a b -> I b c -> I a c.
Proof. destruct law as [_ [Ht _]]. apply Ht. Qed.

Lemma preserves_ret {A} (a : A) : preserves I (ret a).
Proof. intros w r w' t H. inversion H; subst. apply frame_refl. Qed.

Lemma preserves_raise {A} (e : exn) : preserves I (@raise A e).
Proof. intros w r w' t H. inversion H; subst. apply frame_refl. Qed.

Lemma preserves_emit (e : event) : preserves I (emit e).
Proof. intros w r w' t H. inversion H; subst. apply frame_refl. Qed.

Lemma preserves_get_world : preserves I get_world.
Proof. intros w r w' t H. inversion H; subst. apply frame_refl. Qed.

Lemma preserves_tick : preserves I tick.
Proof.
  intros w r w' t H. unfold tick in H.
  destruct (faults w (ticks w)); inversion H; subst; apply law.
Qed.

Lemma preserves_bind {A B} (c : M A) (k : A -> M B) :
  preserves I c -> (forall a, preserves I (k a)) -> preserves I (bind c k).
Proof.
  intros Hc Hk w r w' t H. apply bind_inv in H
    as [[a [w1 [t1 [t2 [H1 [H2 _]]]]]] | [e [H1 _]]].
  - eapply frame_trans; [eapply Hc; exact H1 | eapply Hk; exact H2].
  - eapply Hc. exact H1.
Qed.

Lemma preserves_try_except {A} (c : M A) (h : exn -> M A) :
  preserves I c -> (forall e, preserves I (h e)) ->
  preserves I (try_except c h).
Proof.
  intros Hc Hh w r w' t H. unfold try_except in H.
  destruct (c w) as [[[a | e] w1] t1] eqn:H1.
  - inversion H; subst. eapply Hc. exact H1.
  - destruct (h e w1) as [[r2 w2] t2] eqn:H2. inversion H; subst.
    eapply frame_trans; [eapply Hc; exact H1 | eapply Hh; exact H2].
Qed.

Lemma preserves_map_m {A B} (f : A -> M B) (xs : list A) :
  (forall x, preserves I (f x)) -> preserves I (map_m f xs).
Proof.
  intros Hf. induction xs as [|x xs IH]; cbn [map_m].
  - apply preserves_ret.
  - apply preserves_bind; [apply Hf|]. intros y.
    apply preserves_bind; [exact IH|]. intros ys. apply preserves_ret.
Qed.

Lemma preserves_for_each {A} (xs : list A) (body : A -> M unit) :
  (forall x, preserves I (body x)) -> preserves I (for_each xs body).
Proof.
  intros Hb. induction xs as [|x xs IH]; cbn [for_each].
  - apply preserves_ret.
  - apply preserves_bind; [apply Hb | intros _; exact IH].
Qed.

Lemma preserves_try_finally {A} (c : M A) (f : M unit) :
  preserves I c -> preserves I f -> preserves I (try_finally c f).
Proof.
  intros Hc Hf w r w' t H. unfold try_finally in H.
  destruct (c w) as [[r1 w1] t1] eqn:H1.
  destruct (f w1) as [[[u | e] w2] t2] eqn:H2; inversion H; subst;
    (eapply frame_trans; [eapply Hc; exact H1 | eapply Hf; exact H2]).
Qed.

Lemma preserves_Pool (n : Z) : preserves I (Pool n).
Proof.
  unfold Pool. destruct (n <? 1)%Z; [apply preserves_raise | apply preserves_emit].
Qed.

Lemma preserves_pool_map {A B} (p : Z) (f : A -> M B) (xs : list A) :
  (forall x, preserves I (f x)) -> preserves I (pool_map p f xs).
Proof.
  intros Hf. unfold pool_map. apply preserves_bind.
  - apply preserves_map_m. intros c. unfold run_chunk.
    apply preserves_try_except.
    + apply preserves_bind; [apply preserves_map_m; exact Hf|].
      intros rs. apply preserves_ret.
    + intros e. apply preserves_ret.
  - intros rs. destruct (collect rs); [apply preserves_ret | apply preserves_raise].
Qed.

End Frame.

(** One step of a proof that a composed computation keeps a relation. *)
Ltac frame_step law :=
  first
    [ apply (preserves_bind law); [|intros ?]
    | apply (preserves_try_except law); [|intros ?]
    | apply (preserves_ret law)
    | apply (preserves_raise law)
    | apply (preserves_emit law)
    | apply (preserves_get_world law)
    | apply (preserves_tick law)
    | match goal with
      | |- preserves _ (if ?b then _ else _) => destruct b
      | |- preserves _ (match ?x with _ => _ end) => destruct x
      end ].

(** Case analysis of a run down to the worlds it can leave. *)
Ltac run_cases H :=
  unfold_monad_in H;
  repeat (break_match_in H; cbv beta iota in H);
  inversion H; subst;
  repeat match goal with
         | E : (_, _, _) = (_, _, _) |- _ => inversion E; subst; clear E
         end.

(** ** The blobs are never deleted or overwritten *)

Lemma grow_law : frame_law blobs_grow.
Proof.
  unfold frame_law, blobs_grow. split_and.
  - intros w c b H. exists []. rewrite app_nil_r. exact H.
  - intros a b c Hab Hbc k blobs H.
    destruct (Hab k blobs H) as [n1 H1]. destruct (Hbc k _ H1) as [n2 H2].
    exists (n1 ++ n2). rewrite app_assoc. exact H2.
  - intros w n c b H. exists []. rewrite app_nil_r. exact H.
  - intros w n c b H. exists []. rewrite app_nil_r. exact H.
  - intros w n c b H. exists []. rewrite app_nil_r. exact H.
Qed.

Lemma grow_same (w w' : World) :
  containers w' = containers w -> blobs_grow w w'.
Proof.
  intros E c b H. exists []. rewrite E, app_nil_r. exact H.
Qed.

Lemma blobs_of_set_blobs_other c k b cs :
  k <> c -> Azure.blobs_of k (Azure.set_blobs c b cs) = Azure.blobs_of k cs.
Proof.
  intros Hk. induction cs as [|[n b0] cs IH]; simpl.
  - destruct (str_eqb c k) eqn:E; [|reflexivity].
    apply str_eqb_true in E. congruence.
  - destruct (str_eqb n c) eqn:Ec; simpl.
    + apply str_eqb_true in Ec. subst n.
      destruct (str_eqb c k) eqn:E; [|reflexivity].
      apply str_eqb_true in E. congruence.
    + destruct (str_eqb n k); [reflexivity | exact IH].
Qed.

Lemma grow_upload_blob c b data :
  preserves blobs_grow (Azure.upload_blob c b data).
Proof.
  intros w r w' t H. unfold Azure.upload_blob in H. unfold_monad_in H.
  world_simpl_in H.
  destruct (faults w (ticks w)); world_simpl_in H.
  { inversion H; subst. apply grow_same. reflexivity. }
  destruct (Azure.blobs_of c (containers w)) as [blobs|] eqn:Hb;
    world_simpl_in H.
  2:{ inversion H; subst. apply grow_same. reflexivity. }
  destruct (existsb (str_eqb b) (map fst blobs)); world_simpl_in H.
  { inversion H; subst. apply grow_same. reflexivity. }
  inversion H; subst. intros k bk Hk. cbn [containers set_containers].
  destruct (str_eqb k c) eqn:E.
  - apply str_eqb_true in E. subst k.
    rewrite (blobs_of_set_blobs _ _ _ Hb). rewrite Hb in Hk.
    inversion Hk; subst. eexists. reflexivity.
  - apply str_eqb_false in E. rewrite blobs_of_set_blobs_other by exact E.
    exists []. rewrite app_nil_r. exact Hk.
Qed.

Lemma grow_open_container acct c :
  preserves blobs_grow (open_container acct c).
Proof.
  intros w r w' t H.
  assert (Hc : containers w' = containers w
               \/ containers w' = containers w ++ [(c, [])]).
  { unfold open_container, Azure.DefaultAzureCredential,
      Azure.BlobServiceClient, Azure.list_containers, Azure.create_container,
      Azure.get_container_client in H. run_cases H; auto. }
  destruct Hc as [Hc | Hc]; [apply grow_same; exact Hc|].
  intros k b Hk. exists []. rewrite Hc, blobs_of_app_new, Hk, app_nil_r.
  reflexivity.
Qed.

Lemma containers_download_attempt url p w r w' t :
  download_attempt url p w = (r, w', t) -> containers w' = containers w.
Proof.
  intros H. unfold download_attempt, raise_for_status, write_file, fs_store,
    print in H. run_cases H; reflexivity.
Qed.

Lemma containers_os_remove p w r w' t :
  os_remove p w = (r, w', t) -> containers w' = containers w.
Proof. intros H. unfold os_remove in H. run_cases H; reflexivity. Qed.

Lemma containers_tarfile_open p w r w' t :
  Tarfile.open p w = (r, w', t) -> containers w' = containers w /\ fs w' = fs w.
Proof.
  intros H. unfold Tarfile.open in H. run_cases H; split; reflexivity.
Qed.

Lemma containers_extractall p m dir w r w' t :
  Tarfile.extractall p m dir w = (r, w', t) -> containers w' = containers w.
Proof. intros H. unfold Tarfile.extractall in H. run_cases H; reflexivity. Qed.

Lemma containers_read_file p w r w' t :
  read_file p w = (r, w', t) -> containers w' = containers w /\ fs w' = fs w.
Proof. intros H. unfold read_file in H. run_cases H; split; reflexivity. Qed.

Lemma containers_os_mkdir p w r w' t :
  os_mkdir p w = (r, w', t) -> containers w' = containers w.
Proof.
  intros H. unfold os_mkdir, fs_store in H. run_cases H; reflexivity.
Qed.

Lemma containers_mkdtemp_loop tries :
  forall w r w' t,
    Tempfile.mkdtemp_loop tries w = (r, w', t) -> containers w' = containers w.
Proof.
  induction tries as [|tries IH]; intros w r w' t H.
  - inversion H; subst. reflexivity.
  - cbn [Tempfile.mkdtemp_loop] in H.
    unfold bind at 1, get_world at 1 in H.
    unfold bind at 1, modify at 1 in H.
    unfold try_except, bind at 1 in H.
    destruct (os_mkdir _ _) as [[[u | e] w1] t1] eqn:Hm;
      apply containers_os_mkdir in Hm.
    + unfold ret in H. inversion H; subst. exact Hm.
    + destruct (String.eqb (exn_class e) "FileExistsError").
      * destruct (Tempfile.mkdtemp_loop tries w1) as [[r2 w2] t2] eqn:Hl.
        inversion H; subst. apply IH in Hl. rewrite Hl, Hm. reflexivity.
      * unfold raise in H. inversion H; subst. exact Hm.
Qed.

Lemma containers_mkdtemp w r w' t :
  Tempfile.mkdtemp w = (r, w', t) -> containers w' = containers w.
Proof.
  unfold Tempfile.mkdtemp, bind, emit, ret.
  destruct (Tempfile.mkdtemp_loop Tempfile.TMP_MAX w) as [[[d | e] w1] t1] eqn:H;
    intros E; inversion E; subst; eapply containers_mkdtemp_loop; exact H.
Qed.

Lemma grow_download_loop n url p :
  preserves blobs_grow (download_loop n url p).
Proof.
  induction n as [|n IH]; cbn [download_loop].
  - unfold print. repeat frame_step grow_law.
  - apply (preserves_try_except grow_law).
    + apply (preserves_bind grow_law).
      * intros w r w' t H. apply grow_same.
        eapply containers_download_attempt. exact H.
      * intros a. apply (preserves_ret grow_law).
    + intros e. unfold print, time_sleep.
      apply (preserves_bind grow_law); [|intros _; exact IH].
      destruct (contains _ _); repeat frame_step grow_law.
Qed.

Lemma grow_download_file args : preserves blobs_grow (download_file args).
Proof.
  destruct args as [url p]. unfold download_file.
  apply (preserves_bind grow_law).
  - intros w r w' t H. destruct (file_exists_run p w) as [size E].
    rewrite E in H. inversion H; subst. apply grow_law.
  - intros _. apply grow_download_loop.
Qed.

Lemma grow_upload_files root tmpdir base cc files :
  forall n, preserves blobs_grow (upload_files root tmpdir base cc files n).
Proof.
  induction files as [|f files IH]; intros n; cbn [upload_files].
  - apply (preserves_ret grow_law).
  - apply (preserves_bind grow_law); [apply (preserves_get_world grow_law)|].
    intros w0. apply (preserves_bind grow_law).
    + intros w r w' t H. apply grow_same.
      eapply containers_read_file. exact H.
    + intros data. apply (preserves_bind grow_law);
        [apply grow_upload_blob | intros _; apply IH].
Qed.

Lemma grow_upload_walk tmpdir base cc triples :
  forall n, preserves blobs_grow (upload_walk tmpdir base cc triples n).
Proof.
  induction triples as [|[[root dirs] files] triples IH]; intros n;
    cbn [upload_walk].
  - apply (preserves_ret grow_law).
  - apply (preserves_bind grow_law);
      [apply grow_upload_files | intros m; apply IH].
Qed.

Lemma grow_pipeline_body file_url file_name base cc n tmpdir :
  preserves blobs_grow (pipeline_body file_url file_name base cc n tmpdir).
Proof.
  unfold pipeline_body, upload_phase, os_walk, logger_info.
  apply (preserves_bind grow_law); [apply grow_download_file | intros _].
  apply (preserves_bind grow_law); [apply (preserves_emit grow_law) | intros _].
  apply (preserves_bind grow_law).
  { intros w r w' t H. apply grow_same. eapply containers_tarfile_open.
    exact H. }
  intros tar_ref. apply (preserves_bind grow_law).
  { intros w r w' t H. apply grow_same. eapply containers_extractall.
    exact H. }
  intros _.
  apply (preserves_bind grow_law); [apply (preserves_emit grow_law) | intros _].
  apply (preserves_bind grow_law).
  { intros w r w' t H. apply grow_same. eapply containers_os_remove.
    exact H. }
  intros _. apply (preserves_bind grow_law).
  { repeat frame_step grow_law. }
  intros triples. apply (preserves_bind grow_law);
    [apply grow_upload_walk | intros m; repeat frame_step grow_law].
Qed.

Lemma grow_cleanup d : preserves blobs_grow (Tempfile.cleanup d).
Proof.
  intros w r w' t H. apply grow_same. eapply cleanup_containers. exact H.
Qed.

Lemma grow_download_to_blob file_url file_name acct cname base :
  preserves blobs_grow (download_to_blob file_url file_name acct cname base).
Proof.
  unfold download_to_blob, pipeline_try, Tempfile.with_TemporaryDirectory,
    logger_info, logger_exception.
  apply (preserves_bind grow_law); [apply grow_open_container | intros cc].
  apply (preserves_try_except grow_law);
    [|intros e; repeat frame_step grow_law].
  apply (preserves_bind grow_law); [|intros n; repeat frame_step grow_law].
  apply (preserves_bind grow_law).
  - intros w r w' t H. apply grow_same. eapply containers_mkdtemp. exact H.
  - intros d. apply (preserves_try_finally grow_law);
      [apply grow_pipeline_body | apply grow_cleanup].
Qed.

(** X13.  Whatever happens in a run of [download_to_blob], with a count,
    with [-1] or with an exception, every container that existed still
    exists and holds its old blobs, in their order and with their content,
    followed by the new ones: uploads that were made before a failure stay,
    and no blob is deleted or overwritten. *)
Theorem download_to_blob_keeps_every_blob
        (file_url file_name storage_acct_url container_name base_blob_name : str)
        (w : World) :
  blobs_grow w
    (world_of (download_to_blob file_url file_name storage_acct_url
                                container_name base_blob_name w)).
Proof.
  destruct (download_to_blob file_url file_name storage_acct_url
                             container_name base_blob_name w)
    as [[r w'] t] eqn:H.
  unfold world_of. cbn [fst snd].
  eapply grow_download_to_blob. exact H.
Qed.

Lemma grow_queue_tasks files cc acct :
  forall acc, preserves blobs_grow (queue_tasks files cc acct acc).
Proof.
  induction files as [|f files IH]; intros acc; cbn [queue_tasks].
  - apply (preserves_ret grow_law).
  - apply (preserves_bind grow_law).
    + intros w r w' t H. rewrite blob_exists_run in H. cbv zeta in H.
      apply grow_same. run_cases H; reflexivity.
    + intros b. unfold logger_info. destruct b;
        (apply (preserves_bind grow_law);
         [apply (preserves_emit grow_law) | intros _; apply IH]).
Qed.

Lemma grow_main_dispatch tasks : preserves blobs_grow (main_dispatch tasks).
Proof.
  unfold main_dispatch, pool_starmap, logger_info.
  apply (preserves_bind grow_law).
  - destruct (negb _).
    + apply (preserves_bind grow_law); [|intros r; apply (preserves_ret grow_law)].
      apply (preserves_bind grow_law); [apply (preserves_Pool grow_law)|].
      intros _. apply (preserves_pool_map grow_law). intros tk.
      unfold run_task. apply grow_download_to_blob.
    + apply (preserves_ret grow_law).
  - intros [results|]; [|apply (preserves_raise grow_law)].
    apply (preserves_bind grow_law);
      [|intros _; apply (preserves_emit grow_law)].
    apply (preserves_for_each grow_law). intros [file n].
    unfold summary_line, logger_error, logger_info.
    destruct (n =? -1)%Z; apply (preserves_emit grow_law).
Qed.

(** X14.  Whatever happens in a run of [main], every container that existed
    still exists and holds its old blobs followed by new ones: the program
    never deletes and never overwrites a blob. *)
Theorem main_keeps_every_blob (w : World) :
  blobs_grow w (world_of (main w)).
Proof.
  destruct (main w) as [[r w'] t] eqn:H. unfold world_of. cbn [fst snd].
  assert (Hp : preserves blobs_grow main).
  { unfold main.
    apply (preserves_bind grow_law); [apply (preserves_get_world grow_law)|].
    intros w1. apply (preserves_bind grow_law); [apply grow_open_container|].
    intros cc. apply (preserves_bind grow_law).
    { intros w2 r2 w2' t2 E. unfold fetch_article_files in E.
      inversion E; subst. apply grow_law. }
    intros files. apply (preserves_bind grow_law);
      [apply grow_queue_tasks | intros tasks; apply grow_main_dispatch]. }
  eapply Hp. exact H.
Qed.

(** ** The pipeline from the call to the return *)








Example blobs_after_a_failed_upload :
  let w := SamplesPipeline.clash_world in
  let out := SamplesPipeline.run w in
  result_of out = Ok (-1)%Z /\
  blobs_in CONTAINER_NAME (world_of out)
    = blobs_in CONTAINER_NAME w
      ++ [ (of_string "real-colon-dataset/info.csv", of_string "I");
           (of_string "real-colon-dataset/001/a.jpg", of_string "A") ].
Proof. cbv zeta. split; vm_compute; reflexivity. Qed.
